(** * mWebSockets: the client-side opening handshake

    A shallow embedding of [src/WebSocketClient.cpp] (namespace [net],
    class [WebSocketClient]) and the properties of its opening handshake:
    the bounded wait for the first response byte, the byte-at-a-time response
    reader with its fixed 128-byte line buffer, the per-line header checks,
    the final requirement check and the ready-state transitions of [open]. *)

From Stdlib Require Import List Ascii String Bool Arith NArith ZArith Lia.
Import ListNotations.

(** ** Characters and C strings

    A [char] is an [ascii]; a C string is the list of the characters that
    precede its terminating NUL.  Raw memory (the line buffer) is a list of
    characters that may hold NULs. *)

Definition cstring := list ascii.

Definition lit (s : string) : cstring := list_ascii_of_string s.

Definition NUL : ascii := "000"%char.
Definition CR : ascii := "013"%char.
Definition LF : ascii := "010"%char.
Definition SP : ascii := " "%char.
Definition HT : ascii := "009"%char.

Definition ord (c : ascii) : N := N_of_ascii c.

(** The C string that starts at the beginning of a memory area. *)
Fixpoint c_str (mem : list ascii) : cstring :=
  match mem with
  | [] => []
  | c :: mem' => if (c =? NUL)%char then [] else c :: c_str mem'
  end.

Definition mem_char (set : cstring) (c : ascii) : bool :=
  existsb (Ascii.eqb c) set.

(** [strspn]: length of the initial segment made of characters of [accept]. *)
Fixpoint strspn (s accept : cstring) : nat :=
  match s with
  | [] => 0
  | c :: s' => if mem_char accept c then S (strspn s' accept) else 0
  end.

(** [strcspn]: length of the initial segment free of characters of [reject]. *)
Fixpoint strcspn (s reject : cstring) : nat :=
  match s with
  | [] => 0
  | c :: s' => if mem_char reject c then 0 else S (strcspn s' reject)
  end.

(** [strcmp]: only the sign of the result is specified by the C standard. *)
Fixpoint strcmp (a b : cstring) : Z :=
  match a, b with
  | [], [] => 0
  | [], _ :: _ => -1
  | _ :: _, [] => 1
  | x :: a', y :: b' =>
      if (x =? y)%char then strcmp a' b'
      else if (ord x <? ord y)%N then -1 else 1
  end%Z.

Definition strncmp (a b : cstring) (n : nat) : Z :=
  strcmp (firstn n a) (firstn n b).

Definition is_upper (c : ascii) : bool :=
  ((65 <=? ord c) && (ord c <=? 90))%N.

Definition tolower (c : ascii) : ascii :=
  if is_upper c then ascii_of_N (ord c + 32) else c.

Definition strcasecmp (a b : cstring) : Z :=
  strcmp (map tolower a) (map tolower b).

(** [strtok_r (s, delim, &save)]: leading delimiters are skipped; the token,
    if any, runs up to the next delimiter, which is overwritten by NUL; the
    save pointer is left behind that delimiter (or on the final NUL).  The
    result is the token ([None] for a null pointer) and the string at the
    save pointer. *)
Definition strtok_r (s delim : cstring) : option cstring * cstring :=
  let s1 := skipn (strspn s delim) s in
  match s1 with
  | [] => (None, [])
  | _ :: _ =>
      let n := strcspn s1 delim in
      (Some (firstn n s1), skipn (S n) s1)
  end.

(** Array store [a[i] = c]; [None] when [i] is outside the array. *)
Fixpoint store (a : list ascii) (i : nat) (c : ascii) : option (list ascii) :=
  match a, i with
  | [], _ => None
  | _ :: a', 0 => Some (c :: a')
  | x :: a', S i' => option_map (cons x) (store a' i' c)
  end.

(** ** Enumerations of the library *)

Inductive ReadyState := CONNECTING | OPEN | CLOSING | CLOSED.

Inductive WebSocketError :=
  | CONNECTION_REFUSED
  | REQUEST_TIMEOUT
  | UPGRADE_REQUIRED
  | BAD_REQUEST.

(** Modelled from the spec: the handshake flag bits are declared in the
    library header, which is not among the sources; the three requirements
    are independent bits of one [uint8_t]. *)
Definition kValidUpgradeHeader : N := 1.
Definition kValidConnectionHeader : N := 2.
Definition kValidSecKey : N := 4.

Definition has_flag (flags k : N) : bool := negb (N.land flags k =? 0)%N.

(** Behaviour that the C++ standard leaves undefined. *)
Inductive undefined_behaviour :=
  | BufferOverflow   (* store outside [char buffer[128]] *)
  | NullPointer.     (* a null [char *] handed to a string function *)

(** ** The client object, its transport and the monad of its methods *)

Inductive eWebSocketCloseEvent := GOING_AWAY | ABNORMAL_CLOSURE.

(** A call made to a registered listener. *)
Inductive callback :=
  | OnOpen
  | OnError (code : WebSocketError).

(** What the remote end does with one connection attempt: whether
    [connect] succeeds, at which times [available()] reports pending bytes,
    and the bytes that [_read()] delivers before it reports [-1]. *)
Record Server := {
  accepts : bool;
  pending_at : nat -> bool;
  response : list ascii
}.

Record WebSocketClient := {
  m_readyState : ReadyState;
  m_protocol : option cstring;
  _onOpen : bool;              (* an open listener is registered *)
  _onError : bool;             (* an error listener is registered *)
  (* m_client, the transport *)
  connected : bool;
  pending : nat -> bool;
  unread : list ascii;
  written : list ascii;        (* the bytes written so far *)
  (* the environment *)
  millis : nat;                (* the time that [delay] has let pass *)
  calls : list callback        (* listener calls made so far, oldest first *)
}.

Inductive outcome (A : Type) :=
  | Returns (a : A) (c : WebSocketClient)
  | Undefined (u : undefined_behaviour).
Arguments Returns {A} a c.
Arguments Undefined {A} u.

Definition M (A : Type) := WebSocketClient -> outcome A.

Definition ret {A} (a : A) : M A := fun c => Returns a c.

Definition bind {A B} (m : M A) (k : A -> M B) : M B :=
  fun c => match m c with
           | Returns a c' => k a c'
           | Undefined u => Undefined u
           end.

Notation "x <- m ;; k" := (bind m (fun x => k))
  (at level 61, m at next level, right associativity).
Notation "m ;; k" := (bind m (fun _ => k))
  (at level 61, right associativity).

Definition modify (f : WebSocketClient -> WebSocketClient) : M unit :=
  fun c => Returns tt (f c).

Definition set_readyState (s : ReadyState) (c : WebSocketClient) :=
  {| m_readyState := s; m_protocol := m_protocol c; _onOpen := _onOpen c;
     _onError := _onError c; connected := connected c; pending := pending c;
     unread := unread c; written := written c; millis := millis c;
     calls := calls c |}.

Definition set_protocol (p : option cstring) (c : WebSocketClient) :=
  {| m_readyState := m_readyState c; m_protocol := p; _onOpen := _onOpen c;
     _onError := _onError c; connected := connected c; pending := pending c;
     unread := unread c; written := written c; millis := millis c;
     calls := calls c |}.

Definition set_transport (up : bool) (p : nat -> bool) (r : list ascii)
    (c : WebSocketClient) :=
  {| m_readyState := m_readyState c; m_protocol := m_protocol c;
     _onOpen := _onOpen c; _onError := _onError c; connected := up;
     pending := p; unread := r; written := written c; millis := millis c;
     calls := calls c |}.

Definition set_unread (r : list ascii) (c : WebSocketClient) :=
  set_transport (connected c) (pending c) r c.

Definition set_written (w : list ascii) (c : WebSocketClient) :=
  {| m_readyState := m_readyState c; m_protocol := m_protocol c;
     _onOpen := _onOpen c; _onError := _onError c; connected := connected c;
     pending := pending c; unread := unread c; written := w;
     millis := millis c; calls := calls c |}.

Definition set_millis (t : nat) (c : WebSocketClient) :=
  {| m_readyState := m_readyState c; m_protocol := m_protocol c;
     _onOpen := _onOpen c; _onError := _onError c; connected := connected c;
     pending := pending c; unread := unread c; written := written c;
     millis := t; calls := calls c |}.

Definition set_calls (l : list callback) (c : WebSocketClient) :=
  {| m_readyState := m_readyState c; m_protocol := m_protocol c;
     _onOpen := _onOpen c; _onError := _onError c; connected := connected c;
     pending := pending c; unread := unread c; written := written c;
     millis := millis c; calls := l |}.

(** *** The transport [m_client] and the Arduino core *)

Definition connect (server : Server) : M bool :=
  fun c =>
    Returns (accepts server)
      (if accepts server
       then set_transport true (pending_at server) (response server) c
       else set_transport false (fun _ => false) [] c).

(** [m_client.available() != 0] *)
Definition available (c : WebSocketClient) : bool :=
  connected c && pending c (millis c).

Definition delay (time : nat) (c : WebSocketClient) : WebSocketClient :=
  set_millis (millis c + time) c.

Definition print (s : cstring) : M unit :=
  modify (fun c => set_written (written c ++ s) c).

Definition println (s : cstring) : M unit :=
  print (s ++ [CR; LF]).

(** [snprintf(buffer, size, ...)] keeps at most [size - 1] characters. *)
Definition snprintf (size : nat) (formatted : cstring) : cstring :=
  firstn (size - 1) formatted.

Definition digit (n : nat) : ascii := ascii_of_nat (48 + n).

Fixpoint utoa_digits (fuel n : nat) (acc : cstring) : cstring :=
  match fuel with
  | 0 => acc
  | S fuel' =>
      let acc' := digit (n mod 10) :: acc in
      if n / 10 =? 0 then acc' else utoa_digits fuel' (n / 10) acc'
  end.

(** [%u] of a [uint16_t]: at most five digits. *)
Definition utoa (n : N) : cstring :=
  utoa_digits 5 (N.to_nat (n mod 65536)) [].

(** *** Members of the base class [WebSocket] *)

(** Modelled from the spec: [WebSocket::terminate] is defined in the base
    class, which is not among the sources; it terminates the transport and
    sets the ready state to CLOSED. *)
Definition terminate : M unit :=
  modify (fun c =>
    set_readyState CLOSED (set_transport false (pending c) (unread c) c)).

(** Modelled from the spec: [WebSocket::close] is defined in the base class,
    which is not among the sources; called with [instant] set, as [open]
    does, it unconditionally force-closes the existing session, and is
    idempotent.  The closing handshake of the other form is out of scope. *)
Definition close (code : eWebSocketCloseEvent) (instant : bool) : M unit :=
  if instant then terminate else ret tt.

(** Modelled from the spec: [WebSocket::_read] is defined in the base class,
    which is not among the sources; it reads one byte from the transport, or
    reports that there is none ([-1]). *)
Definition _read (stream : list ascii) : option ascii * list ascii :=
  match stream with
  | [] => (None, [])
  | bite :: stream' => (Some bite, stream')
  end.

(** The macro [_TRIGGER_ERROR(code)]. *)
Definition _TRIGGER_ERROR (code : WebSocketError) : M unit :=
  terminate ;;
  fun c => if _onError c
           then Returns tt (set_calls (calls c ++ [OnError code]) c)
           else Returns tt c.

(** ** The header validator: the body of [if (bite == '\n')] *)

(** What the handling of one complete line does to the reading loop. *)
Inductive line_action :=
  | Next (flags : N) (protocol : option cstring)
      (* falls through to [memset], [counter = 0], [++currentLine];
         [protocol] is the string newly assigned to [m_protocol], if any *)
  | Break
      (* [break] *)
  | Fail (code : WebSocketError)
      (* [_TRIGGER_ERROR(code); return false;] *)
  | Crash (u : undefined_behaviour).

Section Handshake.

Set Default Proof Using "Type".

(** External collaborators, consumed as opaque functions: the accept-key
    computer [encodeSecKey] (SHA-1 and base64 of the key and the GUID), the
    base64 encoder, and the attempt budget [kTimeoutInterval]. *)
Variable encodeSecKey : cstring -> cstring.
Variable base64_encode : list ascii -> cstring.
Variable kTimeoutInterval : nat.

(** The default value of the parameter [time] of [_waitForResponse], given
    in the class declaration, and the values that the sixteen calls of
    [random(0xFF)] yield after [randomSeed(seed)]. *)
Variable kDelay : nat.
Variable random : N -> list ascii.

(** [line] is the string in [buffer] once it has been cut at
    [buffer[lineBreakPos]]; its length is [lineBreakPos]. *)
Definition on_line (secKey : cstring) (currentLine : nat) (line : cstring)
    (flags : N) : line_action :=
  let lineBreakPos := List.length line in
  if currentLine =? 0 then
    if negb (strncmp line (lit "HTTP/1.1 101") 12 =? 0)%Z
    then Fail BAD_REQUEST
    else Next flags None
  else if 0 <? lineBreakPos then
    let (header, rest) := strtok_r line (lit ":") in
    match header with
    | None => Crash NullPointer (* strcasecmp_P(nullptr, ...) *)
    | Some header =>
        if (strcasecmp header (lit "Upgrade") =? 0)%Z then
          match fst (strtok_r rest (lit " ")) with
          | None => Fail UPGRADE_REQUIRED
          | Some value =>
              if negb (strcasecmp value (lit "websocket") =? 0)%Z
              then Fail UPGRADE_REQUIRED
              else Next (N.lor flags kValidUpgradeHeader) None
          end
        else if (strcasecmp header (lit "Connection") =? 0)%Z then
          match fst (strtok_r rest (lit " ")) with
          | None => Fail UPGRADE_REQUIRED
          | Some value =>
              if negb (strcasecmp value (lit "Upgrade") =? 0)%Z
              then Fail UPGRADE_REQUIRED
              else Next (N.lor flags kValidConnectionHeader) None
          end
        else if (strcasecmp header (lit "Sec-WebSocket-Accept") =? 0)%Z then
          let value := fst (strtok_r rest (lit " ")) in
          let encodedKey := encodeSecKey secKey in
          match value with
          | None => Fail BAD_REQUEST
          | Some value =>
              if negb (strcmp value encodedKey =? 0)%Z
              then Fail BAD_REQUEST
              else Next (N.lor flags kValidSecKey) None
          end
        else if (strcasecmp header (lit "Sec-WebSocket-Protocol") =? 0)%Z then
          match fst (strtok_r rest (lit " ")) with
          | None => Crash NullPointer (* strlen(nullptr) *)
          | Some value => Next flags (Some value)
          end
        else Next flags None
    end
  else Break.

(** *** [_readResponse]: the reading loop *)

Record locals := {
  flags : N;            (* uint8_t *)
  currentLine : nat;    (* byte *)
  counter : nat;        (* byte *)
  buffer : list ascii   (* char [128] *)
}.

Definition locals0 : locals :=
  {| flags := 0; currentLine := 0; counter := 0; buffer := repeat NUL 128 |}.

(** How the [while] loop is left. *)
Inductive loop_exit :=
  | EndOfStream (flags : N) (protocol : option cstring)
      (* [_read()] returned [-1] *)
  | BlankLine (flags : N) (protocol : option cstring) (rest : list ascii)
      (* [break]; [rest] has not been read *)
  | Failure (code : WebSocketError) (protocol : option cstring)
      (rest : list ascii)
      (* [_TRIGGER_ERROR(code); return false;] *)
  | Faulted (u : undefined_behaviour).

Definition assign (new old : option cstring) : option cstring :=
  match new with
  | Some _ => new
  | None => old
  end.

(** One round of the [while] loop, on the byte [bite] that [_read()] has
    delivered: either the next round, or the way in which the loop is left
    (a function of the bytes that have not been read). *)
Inductive round :=
  | Continue (v : locals) (protocol : option cstring)
  | Leave (exit : list ascii -> loop_exit).

Definition loop_body (secKey : cstring) (bite : ascii) (v : locals)
    (protocol : option cstring) : round :=
  (* buffer[counter++] = bite; *)
  match store (buffer v) (counter v) bite with
  | None => Leave (fun _ => Faulted BufferOverflow)
  | Some buffer1 =>
      let counter1 := (counter v + 1) mod 256 in
      if (bite =? LF)%char then
        let lineBreakPos := strcspn (c_str buffer1) [CR; LF] mod 256 in
        (* buffer[lineBreakPos] = '\0'; *)
        match store buffer1 lineBreakPos NUL with
        | None => Leave (fun _ => Faulted BufferOverflow)
        | Some buffer2 =>
            match on_line secKey (currentLine v) (c_str buffer2)
                    (flags v) with
            | Next flags' p =>
                Continue
                  {| flags := flags';
                     currentLine := (currentLine v + 1) mod 256;
                     counter := 0;
                     buffer := repeat NUL 128 |}
                  (assign p protocol)
            | Break => Leave (BlankLine (flags v) protocol)
            | Fail code => Leave (Failure code protocol)
            | Crash u => Leave (fun _ => Faulted u)
            end
        end
      else
        Continue
          {| flags := flags v; currentLine := currentLine v;
             counter := counter1; buffer := buffer1 |}
          protocol
  end.

(** [while ((bite = _read()) != -1) { ... }], on the bytes that [_read()]
    delivers before it reports [-1]. *)
Fixpoint read_loop (secKey : cstring) (stream : list ascii) (v : locals)
    (protocol : option cstring) : loop_exit :=
  match stream with
  | [] => EndOfStream (flags v) protocol
  | bite :: stream' =>
      match loop_body secKey bite v protocol with
      | Continue v' protocol' => read_loop secKey stream' v' protocol'
      | Leave exit => exit stream'
      end
  end.

Definition _validateHandshake (flags : N) : M bool :=
  if negb (has_flag flags kValidUpgradeHeader) then
    _TRIGGER_ERROR UPGRADE_REQUIRED ;; ret false
  else if negb (has_flag flags kValidConnectionHeader) then
    _TRIGGER_ERROR UPGRADE_REQUIRED ;; ret false
  else if negb (has_flag flags kValidSecKey) then
    _TRIGGER_ERROR BAD_REQUEST ;; ret false
  else ret true.

Definition _readResponse (secKey : cstring) : M bool :=
  fun c =>
    match read_loop secKey (unread c) locals0 (m_protocol c) with
    | EndOfStream flags p =>
        _validateHandshake flags (set_protocol p (set_unread [] c))
    | BlankLine flags p rest =>
        _validateHandshake flags (set_protocol p (set_unread rest c))
    | Failure code p rest =>
        (_TRIGGER_ERROR code ;; ret false)
          (set_protocol p (set_unread rest c))
    | Faulted u => Undefined u
    end.

(** *** [generateSecKey], [_sendRequest], [_waitForResponse] *)

Definition generateSecKey (seed : N) : cstring :=
  let kLength := 16 in
  let temp := firstn kLength (random seed) in
  base64_encode temp.

Definition _sendRequest (host : cstring) (port : N) (path secKey : cstring)
    (supportedProtocols : option cstring) : M unit :=
  println (snprintf 128 (lit "GET " ++ path ++ lit " HTTP/1.1")) ;;
  println (snprintf 128 (lit "Host: " ++ host ++ lit ":" ++ utoa port)) ;;
  println (lit "Upgrade: websocket") ;;
  println (lit "Connection: Upgrade") ;;
  println (snprintf 128 (lit "Sec-WebSocket-Key: " ++ secKey)) ;;
  match supportedProtocols with
  | Some protocols =>
      println (snprintf 128 (lit "Sec-WebSocket-Protocol: " ++ protocols))
  | None => ret tt
  end ;;
  println (lit "Sec-WebSocket-Version: 13" ++ [CR; LF]).

(** The [while] loop of [_waitForResponse]; it is left after at most
    [maxAttempts] rounds, so [S maxAttempts] units of fuel are enough. *)
Fixpoint wait_loop (fuel attempts maxAttempts time : nat)
    (c : WebSocketClient) : nat * WebSocketClient :=
  match fuel with
  | 0 => (attempts, c)
  | S fuel' =>
      if negb (available c) && (attempts <? maxAttempts)
      then wait_loop fuel' (S attempts) maxAttempts time (delay time c)
      else (attempts, c)
  end.

Definition _waitForResponse (maxAttempts time : nat) : M bool :=
  fun c =>
    let (attempts, c') := wait_loop (S maxAttempts) 0 maxAttempts time c in
    Returns (attempts <? maxAttempts) c'.

(** *** [open] *)

Definition open (host : cstring) (port : N) (path : cstring)
    (supportedProtocols : option cstring) (server : Server) (seed : N)
    : M bool :=
  close GOING_AWAY true ;;
  ok <- connect server ;;
  if negb ok then
    _TRIGGER_ERROR CONNECTION_REFUSED ;; ret false
  else
    let secKey := generateSecKey seed in
    _sendRequest host port path secKey supportedProtocols ;;
    modify (set_readyState CONNECTING) ;;
    ok <- _waitForResponse kTimeoutInterval kDelay ;;
    if negb ok then
      _TRIGGER_ERROR REQUEST_TIMEOUT ;; ret false
    else
      ok <- _readResponse secKey ;;
      if negb ok then ret false
      else
        modify (set_readyState OPEN) ;;
        (fun c => if _onOpen c
                  then Returns tt (set_calls (calls c ++ [OnOpen]) c)
                  else Returns tt c) ;;
        ret true.

(** ** Vocabulary of the statements *)

(** [a] and [b] are equal up to the case of the letters A-Z. *)
Definition caseless_eq (a b : cstring) : Prop :=
  map tolower a = map tolower b.

Definition begins_with (prefix s : cstring) : Prop :=
  firstn (List.length prefix) s = prefix.

Fixpoint skip_while (f : ascii -> bool) (s : cstring) : cstring :=
  match s with
  | [] => []
  | c :: s' => if f c then skip_while f s' else s
  end.

Fixpoint take_until (f : ascii -> bool) (s : cstring) : cstring :=
  match s with
  | [] => []
  | c :: s' => if f c then [] else c :: take_until f s'
  end.

(** The first token of [s] delimited by the characters that satisfy
    [delim], if there is one. *)
Definition first_token (delim : ascii -> bool) (s : cstring)
    : option cstring :=
  match take_until delim (skip_while delim s) with
  | [] => None
  | t => Some t
  end.

Definition is_space (c : ascii) : bool := (c =? SP)%char.

(** White space in the sense of [isspace]: space, tab, line feed, vertical
    tab, form feed and carriage return. *)
Definition is_whitespace (c : ascii) : bool :=
  (c =? SP)%char || ((9 <=? ord c) && (ord c <=? 13))%N.

(** The text of a line: the bytes received before its line feed, cut at the
    first carriage return (or NUL). *)
Definition line_end (c : ascii) : bool :=
  (c =? NUL)%char || (c =? CR)%char || (c =? LF)%char.

Definition line_text (raw : list ascii) : cstring := take_until line_end raw.

(** The bytes of one line, as they arrive: no line feed among them, and
    with their line feed they fit the 128-byte line buffer. *)
Definition buffer_line (raw : list ascii) : Prop :=
  ~ In LF raw /\ List.length raw < 128.

(** The state in which the loop starts a line. *)
Definition line_start (v : locals) : Prop :=
  counter v = 0 /\ buffer v = repeat NUL 128 /\ currentLine v < 256.

(** The first requirement that [flags] misses, in the order Upgrade,
    Connection, Sec-WebSocket-Accept, with the cause it is reported by. *)
Definition first_missing (flags : N) : option WebSocketError :=
  if negb (N.testbit flags 0) then Some UPGRADE_REQUIRED
  else if negb (N.testbit flags 1) then Some UPGRADE_REQUIRED
  else if negb (N.testbit flags 2) then Some BAD_REQUEST
  else None.

(** The bytes of the upgrade request: each line is formatted into a
    128-byte buffer and ends with CR LF; a blank line closes the request. *)
Definition handshake_request (host : cstring) (port : N)
    (path secKey : cstring) (supportedProtocols : option cstring)
    : list ascii :=
  snprintf 128 (lit "GET " ++ path ++ lit " HTTP/1.1") ++ [CR; LF] ++
  snprintf 128 (lit "Host: " ++ host ++ lit ":" ++ utoa port) ++ [CR; LF] ++
  lit "Upgrade: websocket" ++ [CR; LF] ++
  lit "Connection: Upgrade" ++ [CR; LF] ++
  snprintf 128 (lit "Sec-WebSocket-Key: " ++ secKey) ++ [CR; LF] ++
  match supportedProtocols with
  | Some protocols =>
      snprintf 128 (lit "Sec-WebSocket-Protocol: " ++ protocols) ++ [CR; LF]
  | None => []
  end ++
  lit "Sec-WebSocket-Version: 13" ++ [CR; LF] ++ [CR; LF].

(** What the [k]-th poll of [_waitForResponse] sees, [k] delays of [time]
    after the wait began in state [c]. *)
Definition polled (time : nat) (c : WebSocketClient) (k : nat) : bool :=
  connected c && pending c (millis c + k * time).

(** The state in which [open] begins to wait for the response: connected,
    the request written, the ready state CONNECTING. *)
Definition requesting (request : list ascii) (server : Server)
    (c : WebSocketClient) : WebSocketClient :=
  {| m_readyState := CONNECTING; m_protocol := m_protocol c;
     _onOpen := _onOpen c; _onError := _onError c; connected := true;
     pending := pending_at server; unread := response server;
     written := written c ++ request; millis := millis c;
     calls := calls c |}.

(** A byte is pending at one of the polls of the wait that can report it;
    the wait begins at the time [now]. *)
Definition first_byte_seen (server : Server) (now : nat) : Prop :=
  exists k, k < kTimeoutInterval /\
            pending_at server (now + k * kDelay) = true.

(** The failing handshake attempts and their causes: the connection is
    refused; no byte is seen in time; a line is rejected by the validator
    (the status line or a checked header); a requirement is missing when the
    header loop has ended. *)
Inductive failing_attempt (server : Server) (c : WebSocketClient)
    (secKey : cstring) : WebSocketError -> Prop :=
  | connection_refused :
      accepts server = false ->
      failing_attempt server c secKey CONNECTION_REFUSED
  | request_timeout :
      accepts server = true ->
      ~ first_byte_seen server (millis c) ->
      failing_attempt server c secKey REQUEST_TIMEOUT
  | line_rejected code p rest :
      accepts server = true ->
      first_byte_seen server (millis c) ->
      read_loop secKey (response server) locals0 (m_protocol c)
        = Failure code p rest ->
      failing_attempt server c secKey code
  | requirement_missing flags p code :
      accepts server = true ->
      first_byte_seen server (millis c) ->
      read_loop secKey (response server) locals0 (m_protocol c)
        = EndOfStream flags p \/
      (exists rest,
         read_loop secKey (response server) locals0 (m_protocol c)
           = BlankLine flags p rest) ->
      first_missing flags = Some code ->
      failing_attempt server c secKey code.

(** The headers that the validator tells apart. *)
Inductive header_kind :=
  | UpgradeHeader
  | ConnectionHeader
  | AcceptHeader
  | ProtocolHeader
  | OtherHeader.

(** [line] is a header of the given kind that carries what the handshake
    asks of it: [Upgrade: websocket], [Connection: Upgrade] (names and
    values up to case), [Sec-WebSocket-Accept] with exactly the expected
    accept value, [Sec-WebSocket-Protocol] with a protocol name, or a header
    of another name. *)
Definition valid_header (secKey line : cstring) (kind : header_kind)
    : Prop :=
  exists name rest,
    strtok_r line (lit ":") = (Some name, rest) /\
    match kind with
    | UpgradeHeader =>
        caseless_eq name (lit "Upgrade") /\
        exists value, first_token is_space rest = Some value /\
                      caseless_eq value (lit "websocket")
    | ConnectionHeader =>
        caseless_eq name (lit "Connection") /\
        exists value, first_token is_space rest = Some value /\
                      caseless_eq value (lit "Upgrade")
    | AcceptHeader =>
        caseless_eq name (lit "Sec-WebSocket-Accept") /\
        first_token is_space rest = Some (encodeSecKey secKey)
    | ProtocolHeader =>
        caseless_eq name (lit "Sec-WebSocket-Protocol") /\
        first_token is_space rest <> None
    | OtherHeader =>
        ~ caseless_eq name (lit "Upgrade") /\
        ~ caseless_eq name (lit "Connection") /\
        ~ caseless_eq name (lit "Sec-WebSocket-Accept") /\
        ~ caseless_eq name (lit "Sec-WebSocket-Protocol")
    end.

(** A response as it arrives: the bytes of the status line, of the header
    lines and of the blank line, each without its line feed (a carriage
    return before the line feed belongs to them), and what follows. *)
Record http_response := {
  status_line : list ascii;
  header_lines : list (list ascii);
  blank_line : list ascii;
  body : list ascii
}.

Definition wire (r : http_response) : list ascii :=
  status_line r ++ LF ::
  flat_map (fun raw => raw ++ [LF]) (header_lines r) ++
  blank_line r ++ LF :: body r.

Definition has_header (secKey : cstring) (kind : header_kind)
    (r : http_response) : Prop :=
  Exists (fun raw => valid_header secKey (line_text raw) kind)
    (header_lines r).

(** A valid 101 response to the key [secKey]: its status line begins with
    [HTTP/1.1 101], every header line is a valid header, a valid [Upgrade],
    a valid [Connection] and a valid [Sec-WebSocket-Accept] header are
    among them, and a blank line ends them.  Each line is a line of the line
    buffer and the 8-bit line counter numbers them all. *)
Definition valid_101_response (secKey : cstring) (r : http_response)
    : Prop :=
  buffer_line (status_line r) /\
  begins_with (lit "HTTP/1.1 101") (status_line r) /\
  Forall (fun raw => buffer_line raw /\
                     exists kind, valid_header secKey (line_text raw) kind)
    (header_lines r) /\
  has_header secKey UpgradeHeader r /\
  has_header secKey ConnectionHeader r /\
  has_header secKey AcceptHeader r /\
  buffer_line (blank_line r) /\
  line_text (blank_line r) = [] /\
  List.length (header_lines r) < 255.

(** [o] is a failed step: it returns [false] after terminating the
    transport, forcing the state to CLOSED and dispatching the error
    notification for [code] once (an empty listener slot receives nothing). *)
Definition fails_with (code : WebSocketError) (c : WebSocketClient)
    (o : outcome bool) : Prop :=
  exists c',
    o = Returns false c' /\
    connected c' = false /\
    m_readyState c' = CLOSED /\
    calls c' = calls c ++ (if _onError c then [OnError code] else []).

(** ** The handshake of RFC 6455, section 1.3, as sample data *)

Definition rfc_nonce : list ascii := lit "the sample nonce".
Definition rfc_key : cstring := lit "dGhlIHNhbXBsZSBub25jZQ==".
Definition rfc_accept : cstring := lit "s3pPLMBiTxaQ9kYGzzhZRbK+xOo=".

Definition rfc_random (seed : N) : list ascii := rfc_nonce.
Definition rfc_base64 (bytes : list ascii) : cstring := rfc_key.
Definition rfc_encodeSecKey (secKey : cstring) : cstring := rfc_accept.

Definition rfc_response : http_response :=
  {| status_line := lit "HTTP/1.1 101 Switching Protocols" ++ [CR];
     header_lines :=
       [lit "Upgrade: websocket" ++ [CR];
        lit "Connection: Upgrade" ++ [CR];
        lit "Sec-WebSocket-Accept: s3pPLMBiTxaQ9kYGzzhZRbK+xOo=" ++ [CR];
        lit "Sec-WebSocket-Protocol: chat" ++ [CR]];
     blank_line := [CR];
     body := [] |}.

(** A server that answers with [reply]; its first byte is pending from the
    time [arrival] on. *)
Definition server_replying (arrival : nat) (reply : list ascii) : Server :=
  {| accepts := true;
     pending_at := fun now => arrival <=? now;
     response := reply |}.

Definition refusing_server : Server :=
  {| accepts := false; pending_at := fun _ => false; response := [] |}.

(** A closed client with both listeners registered. *)
Definition fresh_client : WebSocketClient :=
  {| m_readyState := CLOSED; m_protocol := None; _onOpen := true;
     _onError := true; connected := false; pending := fun _ => false;
     unread := []; written := []; millis := 0; calls := [] |}.

Definition crlf (line : string) : list ascii := lit line ++ [CR; LF].

(** A response whose accept value is not the expected one, and a response
    that is not a 101 response. *)
Definition wrong_accept_reply : list ascii :=
  crlf "HTTP/1.1 101 Switching Protocols" ++
  crlf "Upgrade: websocket" ++
  crlf "Connection: Upgrade" ++
  crlf "Sec-WebSocket-Accept: c3pPLMBiTxaQ9kYGzzhZRbK+xOo=" ++
  crlf "".

Definition not_found_reply : list ascii :=
  crlf "HTTP/1.1 404 Not Found" ++
  crlf "Content-Length: 0" ++
  crlf "".

(** A 101 response in which a tab follows the colon of the [Upgrade]
    header; one with an empty [Sec-WebSocket-Protocol] header; one with a
    header line of 140 bytes. *)
Definition tab_upgrade : cstring := lit "Upgrade:" ++ [HT] ++ lit "websocket".

Definition tab_reply : list ascii :=
  crlf "HTTP/1.1 101 Switching Protocols" ++
  tab_upgrade ++ [CR; LF] ++
  crlf "Connection: Upgrade" ++
  crlf "Sec-WebSocket-Accept: s3pPLMBiTxaQ9kYGzzhZRbK+xOo=" ++
  crlf "".

Definition empty_protocol_reply : list ascii :=
  crlf "HTTP/1.1 101 Switching Protocols" ++
  crlf "Upgrade: websocket" ++
  crlf "Connection: Upgrade" ++
  crlf "Sec-WebSocket-Accept: s3pPLMBiTxaQ9kYGzzhZRbK+xOo=" ++
  crlf "Sec-WebSocket-Protocol:" ++
  crlf "".

Definition long_header : list ascii :=
  lit "X-Trace: " ++ repeat "a"%char 130 ++ [CR].

Definition long_header_reply : list ascii :=
  crlf "HTTP/1.1 101 Switching Protocols" ++
  crlf "Upgrade: websocket" ++
  crlf "Connection: Upgrade" ++
  crlf "Sec-WebSocket-Accept: s3pPLMBiTxaQ9kYGzzhZRbK+xOo=" ++
  long_header ++ [LF] ++
  crlf "".

(** The response of the RFC with one more header, [Connection: keep-alive],
    behind the others. *)
Definition keep_alive_response : http_response :=
  {| status_line := lit "HTTP/1.1 101 Switching Protocols" ++ [CR];
     header_lines :=
       [lit "Upgrade: websocket" ++ [CR];
        lit "Connection: Upgrade" ++ [CR];
        lit "Sec-WebSocket-Accept: s3pPLMBiTxaQ9kYGzzhZRbK+xOo=" ++ [CR];
        lit "Connection: keep-alive" ++ [CR]];
     blank_line := [CR];
     body := [] |}.

(** A status line that is not followed by a line feed. *)
Definition bare_not_found : list ascii := lit "HTTP/1.1 404 Not Found".

(** The three required headers and 252 more, 255 header lines in all, and
    the response that carries them. *)
Definition pad_header : list ascii := lit "X-Pad: 1" ++ [CR].

Definition padded_headers : list (list ascii) :=
  [lit "Upgrade: websocket" ++ [CR];
   lit "Connection: Upgrade" ++ [CR];
   lit "Sec-WebSocket-Accept: s3pPLMBiTxaQ9kYGzzhZRbK+xOo=" ++ [CR]] ++
  repeat pad_header 252.

Definition padded_reply : list ascii :=
  crlf "HTTP/1.1 101 Switching Protocols" ++
  flat_map (fun raw => raw ++ [LF]) padded_headers ++
  crlf "".

(** The 256 lines of a response before its [Sec-WebSocket-Accept] header:
    the status line, [Upgrade], [Connection] and 253 more; and the response
    with the correct [Sec-WebSocket-Accept] header as line 256. *)
Definition late_accept_lines : list (list ascii) :=
  [lit "HTTP/1.1 101 Switching Protocols" ++ [CR];
   lit "Upgrade: websocket" ++ [CR];
   lit "Connection: Upgrade" ++ [CR]] ++
  repeat pad_header 253.

Definition late_accept_reply : list ascii :=
  flat_map (fun raw => raw ++ [LF]) late_accept_lines ++
  crlf "Sec-WebSocket-Accept: s3pPLMBiTxaQ9kYGzzhZRbK+xOo=" ++
  crlf "".

(** The 256 lines of [padded_reply] before its blank line. *)
Definition padded_lines : list (list ascii) :=
  (lit "HTTP/1.1 101 Switching Protocols" ++ [CR]) :: padded_headers.

(** A path of 121 characters. *)
Definition long_path : cstring := lit "/" ++ repeat "a"%char 120.

(** The loop state at the start of line [n] with the flags [f]. *)
Definition at_line (n : nat) (f : N) : locals :=
  {| flags := f; currentLine := n; counter := 0; buffer := repeat NUL 128 |}.

(** ** The listeners and [listen] *)

Definition set_listeners (open_listener error_listener : bool)
    (c : WebSocketClient) :=
  {| m_readyState := m_readyState c; m_protocol := m_protocol c;
     _onOpen := open_listener; _onError := error_listener;
     connected := connected c; pending := pending c; unread := unread c;
     written := written c; millis := millis c; calls := calls c |}.

(** [onOpen(callback)] and [onError(callback)]: the callback, which may be
    empty, replaces the one of the slot. *)
Definition onOpen (callback : bool) : M unit :=
  modify (fun c => set_listeners callback (_onError c) c).

Definition onError (callback : bool) : M unit :=
  modify (fun c => set_listeners (_onOpen c) callback c).

(** The frame reader of the base class, which is not among the sources. *)
Variable _readFrame : M unit.

(** The client together with the close listener of the base class and the
    calls made to it. *)
Record Listening := {
  session : WebSocketClient;
  _onClose : bool;
  closures : list eWebSocketCloseEvent
}.

Definition is_OPEN (s : ReadyState) : bool :=
  match s with
  | OPEN => true
  | _ => false
  end.

Definition listen (l : Listening) : Listening + undefined_behaviour :=
  let c := session l in
  if negb (connected c) then
    if is_OPEN (m_readyState c) then
      match terminate c with
      | Returns _ c' =>
          inl {| session := c'; _onClose := _onClose l;
                 closures := if _onClose l
                             then closures l ++ [ABNORMAL_CLOSURE]
                             else closures l |}
      | Undefined u => inr u
      end
    else inl l
  else if available c then
    match _readFrame c with
    | Returns _ c' =>
        inl {| session := c'; _onClose := _onClose l;
               closures := closures l |}
    | Undefined u => inr u
    end
  else inl l.

(** [loop()] of the sketch, which calls [client.listen()], run [n] times. *)
Fixpoint loop (n : nat) (l : Listening) : Listening + undefined_behaviour :=
  match n with
  | 0 => inl l
  | S n' =>
      match listen l with
      | inl l' => loop n' l'
      | inr u => inr u
      end
  end.

(** ** More vocabulary *)

(** The flag bit that a required header sets. *)
Definition requirement_bit (kind : header_kind) : option N :=
  match kind with
  | UpgradeHeader => Some 0%N
  | ConnectionHeader => Some 1%N
  | AcceptHeader => Some 2%N
  | ProtocolHeader | OtherHeader => None
  end.

(** The loop is left towards the final check with the flags [f]. *)
Definition exits_with (e : loop_exit) (f : N) : Prop :=
  (exists q, e = EndOfStream f q) \/ (exists q rest, e = BlankLine f q rest).

(** Bytes of a line that do not end its text: no NUL, CR or LF. *)
Definition text_only (raw : list ascii) : Prop :=
  Forall (fun c => line_end c = false) raw.


(** The request as its format strings spell it, nothing cut. *)
Definition plain_request (host : cstring) (port : N) (path secKey : cstring)
    (supportedProtocols : option cstring) : list ascii :=
  lit "GET " ++ path ++ lit " HTTP/1.1" ++ [CR; LF] ++
  lit "Host: " ++ host ++ lit ":" ++ utoa port ++ [CR; LF] ++
  lit "Upgrade: websocket" ++ [CR; LF] ++
  lit "Connection: Upgrade" ++ [CR; LF] ++
  lit "Sec-WebSocket-Key: " ++ secKey ++ [CR; LF] ++
  match supportedProtocols with
  | Some protocols =>
      lit "Sec-WebSocket-Protocol: " ++ protocols ++ [CR; LF]
  | None => []
  end ++
  lit "Sec-WebSocket-Version: 13" ++ [CR; LF] ++ [CR; LF].

(** A response that stops behind its last header line, before the blank
    line. *)
Definition wire_without_blank_line (r : http_response) : list ascii :=
  status_line r ++ LF ::
  flat_map (fun raw => raw ++ [LF]) (header_lines r).

(** The loop state in which the next line starts, with the flags
    [flags']: [memset], [counter = 0], [++currentLine]. *)
Definition next_line (v : locals) (flags' : N) : locals :=
  {| flags := flags'; currentLine := (currentLine v + 1) mod 256;
     counter := 0; buffer := repeat NUL 128 |}.

(** The reader seen line by line.  [read_lines secKey lines v p] hands the
    text of each of [lines] in turn to the validator, from the loop state
    [v]: it is the state behind them when the validator lets the loop go on
    at each of them, and [None] when it leaves the loop at one of them (a
    blank line, a rejected line, a null pointer). *)
Fixpoint read_lines (secKey : cstring) (lines : list (list ascii))
    (v : locals) (p : option cstring) : option (locals * option cstring) :=
  match lines with
  | [] => Some (v, p)
  | raw :: lines' =>
      match on_line secKey (currentLine v) (line_text raw) (flags v) with
      | Next flags' q =>
          read_lines secKey lines' (next_line v flags') (assign q p)
      | _ => None
      end
  end.

(** The bytes of the lines [lines], each with its line feed. *)
Definition on_wire (lines : list (list ascii)) : list ascii :=
  flat_map (fun raw => raw ++ [LF]) lines.

(** What the first token of [rest] delimited by [delim] decides: [on_match]
    when it satisfies [matches]; [on_miss] when it does not, or when there
    is no token. *)
Definition token_decides (delim : ascii -> bool) (matches : cstring -> Prop)
    (rest : cstring) (on_match on_miss : Prop) : Prop :=
  (forall value, first_token delim rest = Some value -> matches value ->
                 on_match) /\
  (forall value, first_token delim rest = Some value -> ~ matches value ->
                 on_miss) /\
  (first_token delim rest = None -> on_miss).

(** The first line of a response, as the claims speak of it: the bytes
    before the first line feed, or all of them when there is none. *)
Definition first_line (response : list ascii) : list ascii :=
  take_until (fun c => (c =? LF)%char) response.

(** The response as the claim about valid responses words it: a status
    line that begins with [HTTP/1.1 101], and among the headers a valid
    [Upgrade], a valid [Connection] and a [Sec-WebSocket-Accept] header with
    the expected accept value. *)
Definition claimed_101_response (secKey : cstring) (r : http_response)
    : Prop :=
  begins_with (lit "HTTP/1.1 101") (status_line r) /\
  has_header secKey UpgradeHeader r /\
  has_header secKey ConnectionHeader r /\
  has_header secKey AcceptHeader r.

(** A line on which the validator follows a null pointer: a line of colons
    only, which has no header name, or a [Sec-WebSocket-Protocol] header
    without a value. *)
Definition null_line (line : cstring) : Prop :=
  line <> [] /\
  (Forall (fun c => c = ":"%char) line \/
   exists name rest,
     strtok_r line (lit ":") = (Some name, rest) /\
     caseless_eq name (lit "Sec-WebSocket-Protocol") /\
     first_token is_space rest = None).

(** A session whose transport has gone away. *)
Definition dropped (s : ReadyState) (close_listener : bool) : Listening :=
  {| session := set_readyState s fresh_client;
     _onClose := close_listener;
     closures := [] |}.

(** ** C strings *)

Lemma strcmp_eq (a b : cstring) : strcmp a b = 0%Z <-> a = b.
Proof.
  revert b; induction a as [|x a IH]; intros [|y b]; simpl;
    try (split; [discriminate | congruence]); [now split|].
  destruct (Ascii.eqb_spec x y) as [->|Hxy].
  - rewrite IH. split; congruence.
  - split; [destruct (ord x <? ord y)%N; discriminate | congruence].
Qed.

Lemma strcasecmp_eq (a b : cstring) :
  strcasecmp a b = 0%Z <-> caseless_eq a b.
Proof. apply strcmp_eq. Qed.

Lemma strcasecmp_caseless (a b y : cstring) :
  caseless_eq a b -> strcasecmp a y = strcasecmp b y.
Proof. unfold strcasecmp, caseless_eq. now intros ->. Qed.

Lemma strncmp_eq (s prefix : cstring) :
  strncmp s prefix (List.length prefix) = 0%Z <-> begins_with prefix s.
Proof.
  unfold strncmp, begins_with. rewrite strcmp_eq, firstn_all. now split.
Qed.

Lemma skipn_strspn (s delim : cstring) :
  skipn (strspn s delim) s = skip_while (mem_char delim) s.
Proof.
  induction s as [|c s IH]; simpl; [reflexivity|].
  destruct (mem_char delim c); simpl; auto.
Qed.

Lemma firstn_strcspn (s delim : cstring) :
  firstn (strcspn s delim) s = take_until (mem_char delim) s.
Proof.
  induction s as [|c s IH]; simpl; [reflexivity|].
  destruct (mem_char delim c); simpl; congruence.
Qed.

Lemma strtok_r_first_token (s delim : cstring) :
  fst (strtok_r s delim) = first_token (mem_char delim) s.
Proof.
  unfold strtok_r, first_token. rewrite skipn_strspn.
  remember (skip_while (mem_char delim) s) as s1 eqn:E.
  destruct s1 as [|c s1]; [reflexivity|].
  cbn [fst]. rewrite firstn_strcspn.
  assert (mem_char delim c = false) as Hc.
  { clear -E. induction s as [|d s IH]; simpl in E; [discriminate|].
    destruct (mem_char delim d) eqn:Hd; [auto|]. now inversion E; subst. }
  simpl. now rewrite Hc.
Qed.

Lemma mem_char_space (c : ascii) : mem_char (lit " ") c = is_space c.
Proof. unfold mem_char, is_space, lit. simpl. now rewrite orb_false_r. Qed.

Lemma first_token_ext (f g : ascii -> bool) (s : cstring) :
  (forall c, f c = g c) -> first_token f s = first_token g s.
Proof.
  intros E. unfold first_token.
  assert (forall t, take_until f t = take_until g t) as ->.
  { induction t as [|c t IH]; simpl; [reflexivity|]. now rewrite E, IH. }
  assert (skip_while f s = skip_while g s) as ->; [|reflexivity].
  induction s as [|c s IH]; simpl; [reflexivity|]. now rewrite E, IH.
Qed.

Lemma strtok_r_space (s : cstring) :
  fst (strtok_r s (lit " ")) = first_token is_space s.
Proof.
  rewrite strtok_r_first_token. apply first_token_ext, mem_char_space.
Qed.

Lemma strtok_r_some_length (s delim name rest : cstring) :
  strtok_r s delim = (Some name, rest) -> 0 < List.length s.
Proof.
  destruct s; [|simpl; lia]. unfold strtok_r; simpl. discriminate.
Qed.

(** ** Flags *)

Lemma has_flag_bit (flags : N) (n : N) :
  has_flag flags (2 ^ n) = N.testbit flags n.
Proof.
  unfold has_flag. destruct (N.testbit flags n) eqn:Hb.
  - apply negb_true_iff, N.eqb_neq. intros E.
    assert (N.testbit (N.land flags (2 ^ n)) n = true) as Ht.
    { now rewrite N.land_spec, Hb, N.pow2_bits_true. }
    rewrite E in Ht. now rewrite N.bits_0 in Ht.
  - apply negb_false_iff, N.eqb_eq, N.bits_inj. intros m.
    rewrite N.land_spec, N.bits_0.
    destruct (N.eq_dec n m) as [<-|Hnm].
    + now rewrite Hb.
    + rewrite N.pow2_bits_false by assumption. apply andb_false_r.
Qed.

Lemma has_upgrade (flags : N) :
  has_flag flags kValidUpgradeHeader = N.testbit flags 0.
Proof. apply (has_flag_bit flags 0). Qed.

Lemma has_connection (flags : N) :
  has_flag flags kValidConnectionHeader = N.testbit flags 1.
Proof. apply (has_flag_bit flags 1). Qed.

Lemma has_seckey (flags : N) :
  has_flag flags kValidSecKey = N.testbit flags 2.
Proof. apply (has_flag_bit flags 2). Qed.

(** ** The line buffer *)

#[local] Arguments Nat.modulo : simpl never.

Lemma store_app (acc tl : list ascii) (x c : ascii) :
  store (acc ++ x :: tl) (List.length acc) c = Some (acc ++ c :: tl).
Proof.
  induction acc as [|a acc IH]; simpl; [reflexivity|]. now rewrite IH.
Qed.

Lemma store_outside (a : list ascii) (i : nat) (c : ascii) :
  List.length a <= i -> store a i c = None.
Proof.
  revert i; induction a as [|x a IH]; intros i Hi; simpl; [reflexivity|].
  destruct i as [|i]; simpl in Hi; [lia|]. rewrite IH by lia. reflexivity.
Qed.

Lemma strcspn_line (acc z : list ascii) :
  strcspn (c_str (acc ++ LF :: z)) [CR; LF] = List.length (line_text acc).
Proof.
  unfold line_text.
  induction acc as [|c acc IH]; [reflexivity|].
  cbn [app c_str take_until]. unfold line_end at 1.
  destruct (Ascii.eqb_spec c NUL) as [->|Hnul]; [reflexivity|].
  cbn [strcspn mem_char existsb orb].
  destruct (Ascii.eqb_spec c CR) as [->|Hcr]; [reflexivity|].
  destruct (Ascii.eqb_spec c LF) as [->|Hlf]; [reflexivity|].
  simpl. now rewrite IH.
Qed.

Lemma line_text_length (acc : list ascii) :
  List.length (line_text acc) <= List.length acc.
Proof.
  unfold line_text. induction acc as [|c acc IH]; simpl; [lia|].
  destruct (line_end c); simpl; lia.
Qed.

Lemma store_line_end (acc z : list ascii) :
  exists buffer2,
    store (acc ++ LF :: z) (List.length (line_text acc)) NUL = Some buffer2 /\
    c_str buffer2 = line_text acc.
Proof.
  unfold line_text.
  induction acc as [|c acc (b & Hb & Hc)]; [now eexists|].
  cbn [app take_until]. destruct (line_end c) eqn:Hend.
  - now eexists.
  - cbn [List.length store]. rewrite Hb. eexists; split; [reflexivity|].
    cbn [c_str]. unfold line_end in Hend.
    destruct (c =? NUL)%char; [discriminate|]. now rewrite Hc.
Qed.

Lemma repeat_NUL_cons (k : nat) :
  k < 128 -> repeat NUL (128 - k) = NUL :: repeat NUL (128 - S k).
Proof.
  intros Hk. replace (128 - k) with (S (128 - S k)) by lia. reflexivity.
Qed.

(** Bytes other than the line feed are stored one after the other. *)
Lemma read_loop_accumulate (secKey : cstring) (raw : list ascii) :
  forall (acc rest : list ascii) (v : locals) (p : option cstring),
    buffer v = acc ++ repeat NUL (128 - List.length acc) ->
    counter v = List.length acc ->
    ~ In LF raw ->
    List.length acc + List.length raw <= 128 ->
    read_loop secKey (raw ++ rest) v p =
    read_loop secKey rest
      {| flags := flags v; currentLine := currentLine v;
         counter := List.length (acc ++ raw);
         buffer := (acc ++ raw) ++
                   repeat NUL (128 - List.length (acc ++ raw)) |} p.
Proof.
  induction raw as [|b raw IH]; intros acc rest v p Hbuf Hcnt Hlf Hlen.
  - rewrite app_nil_r. simpl. destruct v; simpl in *. now subst.
  - simpl in Hlen. cbn [app read_loop]. unfold loop_body.
    rewrite Hbuf, Hcnt, repeat_NUL_cons, store_app by lia.
    destruct (Ascii.eqb_spec b LF) as [->|_]; [elim Hlf; now left|].
    rewrite (IH (acc ++ [b])); cbn [flags currentLine counter buffer].
    + now rewrite <- app_assoc.
    + rewrite <- app_assoc, length_app. simpl.
      now replace (List.length acc + 1) with (S (List.length acc)) by lia.
    + rewrite length_app. simpl. apply Nat.mod_small. lia.
    + intros H. apply Hlf. now right.
    + rewrite length_app. simpl. lia.
Qed.

(** A line that fits the buffer is handed to the validator as its text. *)
Lemma read_loop_line (secKey : cstring) (raw rest : list ascii)
    (v : locals) (p : option cstring) :
  line_start v -> buffer_line raw ->
  read_loop secKey (raw ++ LF :: rest) v p =
  match on_line secKey (currentLine v) (line_text raw) (flags v) with
  | Next flags' q =>
      read_loop secKey rest
        {| flags := flags'; currentLine := (currentLine v + 1) mod 256;
           counter := 0; buffer := repeat NUL 128 |} (assign q p)
  | Break => BlankLine (flags v) p rest
  | Fail code => Failure code p rest
  | Crash u => Faulted u
  end.
Proof.
  intros (Hcnt & Hbuf & _) [Hlf Hlen].
  rewrite (read_loop_accumulate secKey raw [] (LF :: rest) v p);
    [|assumption|assumption|assumption|simpl; lia].
  cbn [app read_loop]. unfold loop_body.
  cbn [flags currentLine counter buffer].
  rewrite repeat_NUL_cons, store_app by assumption.
  rewrite Ascii.eqb_refl, strcspn_line.
  rewrite Nat.mod_small by (pose proof (line_text_length raw); lia).
  destruct (store_line_end raw (repeat NUL (128 - S (List.length raw))))
    as (b2 & -> & ->).
  now destruct (on_line _ _ _ _).
Qed.

(** The 129th byte of a line is stored behind the end of the buffer. *)
Lemma read_loop_overflow (secKey : cstring) (raw rest : list ascii)
    (b : ascii) (v : locals) (p : option cstring) :
  line_start v -> ~ In LF raw -> List.length raw = 128 ->
  read_loop secKey (raw ++ b :: rest) v p = Faulted BufferOverflow.
Proof.
  intros (Hcnt & Hbuf & _) Hlf Hlen.
  rewrite (read_loop_accumulate secKey raw [] (b :: rest) v p);
    [|assumption|assumption|assumption|simpl; lia].
  cbn [app read_loop]. unfold loop_body.
  cbn [flags currentLine counter buffer].
  rewrite store_outside; [reflexivity|].
  rewrite length_app, repeat_length. lia.
Qed.

(** ** The reading loop *)

Lemma read_loop_read (secKey : cstring) (stream : list ascii) (v : locals)
    (p : option cstring) :
  read_loop secKey stream v p =
  match _read stream with
  | (None, _) => EndOfStream (flags v) p
  | (Some bite, stream') =>
      match loop_body secKey bite v p with
      | Continue v' p' => read_loop secKey stream' v' p'
      | Leave exit => exit stream'
      end
  end.
Proof. destruct stream; reflexivity. Qed.

Lemma line_start_locals0 : line_start locals0.
Proof. unfold line_start, locals0; simpl. repeat split. lia. Qed.

Lemma line_start_next (flags' : N) (n : nat) :
  line_start {| flags := flags'; currentLine := n mod 256; counter := 0;
                buffer := repeat NUL 128 |}.
Proof.
  unfold line_start; simpl. repeat split. apply Nat.mod_upper_bound. lia.
Qed.

Lemma first_line_feed (s : list ascii) :
  ~ In LF s \/ exists raw s', s = raw ++ LF :: s' /\ ~ In LF raw.
Proof.
  induction s as [|c s [IH|(raw & s' & -> & IH)]].
  - left. auto.
  - destruct (Ascii.eqb_spec c LF) as [->|Hc].
    + right. exists [], s. auto.
    + left. intros [E|E]; auto.
  - right. destruct (Ascii.eqb_spec c LF) as [->|Hc].
    + exists [], (raw ++ LF :: s'). auto.
    + exists (c :: raw), s'. split; [reflexivity|]. intros [E|E]; auto.
Qed.

Lemma in_firstn (n : nat) (x : ascii) (l : list ascii) :
  In x (firstn n l) -> In x l.
Proof.
  revert l; induction n as [|n IH]; intros [|y l]; simpl; auto;
    try contradiction.
  intros [E|E]; auto.
Qed.

(** A last line that lacks its line feed is dropped. *)
Lemma read_loop_partial (secKey : cstring) (raw : list ascii) (v : locals)
    (p : option cstring) :
  line_start v -> ~ In LF raw -> List.length raw <= 128 ->
  read_loop secKey raw v p = EndOfStream (flags v) p.
Proof.
  intros (Hcnt & Hbuf & _) Hlf Hlen.
  rewrite <- (app_nil_r raw).
  rewrite (read_loop_accumulate secKey raw [] [] v p);
    [reflexivity|assumption|assumption|assumption|simpl; lia].
Qed.

Lemma read_loop_long (secKey : cstring) (s rest : list ascii) (v : locals)
    (p : option cstring) :
  line_start v -> ~ In LF s -> 128 <= List.length s ->
  read_loop secKey (s ++ LF :: rest) v p = Faulted BufferOverflow.
Proof.
  intros Hv Hlf Hlen.
  rewrite <- (firstn_skipn 128 s), <- app_assoc.
  assert (exists b t, skipn 128 s ++ LF :: rest = b :: t) as (b & t & ->).
  { destruct (skipn 128 s); simpl; eauto. }
  apply read_loop_overflow; [assumption| |].
  - intros H. apply Hlf. eapply in_firstn; eassumption.
  - rewrite length_firstn. lia.
Qed.

Lemma read_loop_no_line_feed (secKey : cstring) (s : list ascii)
    (v : locals) (p : option cstring) :
  line_start v -> ~ In LF s ->
  read_loop secKey s v p = EndOfStream (flags v) p \/
  read_loop secKey s v p = Faulted BufferOverflow.
Proof.
  intros Hv Hlf.
  destruct (Nat.le_gt_cases (List.length s) 128) as [Hlen|Hlen].
  - left. now apply read_loop_partial.
  - right. rewrite <- (firstn_skipn 128 s).
    destruct (skipn 128 s) as [|b t] eqn:E.
    + apply (f_equal (@List.length ascii)) in E.
      rewrite length_skipn in E. simpl in E. lia.
    + apply read_loop_overflow; [assumption| |].
      * intros H. apply Hlf. eapply in_firstn; eassumption.
      * rewrite length_firstn. lia.
Qed.

Lemma on_line_break (secKey line : cstring) (currentLine : nat) (flags : N) :
  on_line secKey currentLine line flags = Break <->
  currentLine <> 0 /\ line = [].
Proof.
  unfold on_line. split.
  - destruct (Nat.eqb_spec currentLine 0) as [|Hcl].
    + destruct (negb _); discriminate.
    + destruct line as [|c line]; [auto|]. cbn [List.length Nat.ltb Nat.leb].
      destruct (strtok_r _ _) as [[h|] r]; [|discriminate].
      repeat match goal with
        | |- context [if ?b then _ else _] => destruct b
        | |- context [match ?x with Some _ => _ | None => _ end] =>
            destruct x
        end; discriminate.
  - intros [Hcl ->].
    destruct (Nat.eqb_spec currentLine 0); [contradiction|reflexivity].
Qed.

Lemma count_occ_no_line_feed (raw : list ascii) :
  ~ In LF raw -> count_occ ascii_dec raw LF = 0.
Proof. intros H. now apply count_occ_not_In. Qed.

(** The loop is left by [break] only at a blank line. *)
Lemma read_loop_blank_inv (secKey : cstring) (n : nat) :
  forall (s : list ascii) (v : locals) (p q : option cstring) (f : N)
         (rest : list ascii),
    List.length s <= n ->
    line_start v ->
    read_loop secKey s v p = BlankLine f q rest ->
    exists pre raw,
      s = pre ++ raw ++ LF :: rest /\
      (pre = [] \/ exists pre', pre = pre' ++ [LF]) /\
      buffer_line raw /\
      line_text raw = [] /\
      (currentLine v + count_occ ascii_dec pre LF) mod 256 <> 0.
Proof.
  induction n as [|n IH]; intros s v p q f rest Hn Hv Hexit.
  - destruct s; [discriminate|simpl in Hn; lia].
  - destruct (first_line_feed s) as [Hlf|(raw & s' & -> & Hlf)].
    + destruct (read_loop_no_line_feed secKey s v p Hv Hlf); congruence.
    + destruct (Nat.le_gt_cases 128 (List.length raw)) as [Hlen|Hlen].
      { rewrite read_loop_long in Hexit by assumption. discriminate. }
      assert (buffer_line raw) as Hraw by (split; assumption).
      rewrite read_loop_line in Hexit by assumption.
      destruct (on_line _ _ _ _) as [f' q'| | |] eqn:Hline;
        try discriminate.
      * apply IH in Hexit as (pre & raw' & -> & Hpre & Hraw' & Htext & Hidx);
          [|rewrite length_app in Hn; simpl in Hn; lia
           |apply line_start_next].
        exists (raw ++ LF :: pre), raw'. rewrite <- app_assoc.
        repeat split; try assumption; try apply Hraw'.
        -- right. destruct Hpre as [->|(pre' & ->)].
           ++ exists raw. reflexivity.
           ++ exists (raw ++ LF :: pre'). now rewrite <- app_assoc.
        -- cbn [currentLine] in Hidx.
           rewrite count_occ_app, count_occ_no_line_feed by assumption.
           rewrite count_occ_cons_eq by reflexivity.
           rewrite Nat.Div0.add_mod_idemp_l in Hidx.
           now replace (currentLine v + (0 + S (count_occ ascii_dec pre LF)))
             with (currentLine v + 1 + count_occ ascii_dec pre LF) by lia.
      * injection Hexit as <- <- <-.
        apply on_line_break in Hline as [Hcl Htext].
        exists [], raw. repeat split; auto; try apply Hraw.
        simpl. rewrite Nat.add_0_r, Nat.mod_small; [assumption|apply Hv].
Qed.

(** ** Failed steps *)

Lemma trigger_error_fails (code : WebSocketError) (c : WebSocketClient) :
  fails_with code c ((_TRIGGER_ERROR code ;; ret false) c).
Proof.
  unfold fails_with, _TRIGGER_ERROR, terminate, modify, bind, ret. simpl.
  destruct (_onError c); eexists; (split; [reflexivity|]); simpl;
    auto using app_nil_r.
Qed.

Lemma begins_with_line_text (prefix raw : cstring) :
  Forall (fun c => line_end c = false) prefix ->
  begins_with prefix (line_text raw) -> begins_with prefix raw.
Proof.
  unfold begins_with, line_text. intros Hp. revert raw.
  induction Hp as [|a prefix Ha _ IH]; intros raw; [simpl; auto|].
  destruct raw as [|c raw]; [discriminate|].
  cbn [List.length take_until]. destruct (line_end c) eqn:Hc.
  - discriminate.
  - cbn [firstn]. specialize (IH raw).
    intros E; injection E as -> E; f_equal; auto.
Qed.

(** ** The final requirement check *)

(** C6.  Once the header loop has ended, at the blank line or at the end of
    the stream, [_readResponse] hands the accumulated flags to
    [_validateHandshake].  That check succeeds only with the three flags
    set, and tests them in the order Upgrade, Connection,
    Sec-WebSocket-Accept: a missing Upgrade flag, or else a missing
    Connection flag, fails the handshake with UPGRADE_REQUIRED, and with both
    of them set a missing SecKeyValid flag fails it with BAD_REQUEST. *)
Theorem final_validation (flags : N) (c : WebSocketClient) :
  let upgradeValid := N.testbit flags 0 in
  let connectionValid := N.testbit flags 1 in
  let secKeyValid := N.testbit flags 2 in
  (upgradeValid = true -> connectionValid = true -> secKeyValid = true ->
   _validateHandshake flags c = Returns true c) /\
  (upgradeValid = false ->
   fails_with UPGRADE_REQUIRED c (_validateHandshake flags c)) /\
  (upgradeValid = true -> connectionValid = false ->
   fails_with UPGRADE_REQUIRED c (_validateHandshake flags c)) /\
  (upgradeValid = true -> connectionValid = true -> secKeyValid = false ->
   fails_with BAD_REQUEST c (_validateHandshake flags c)) /\
  (forall secKey p,
     read_loop secKey (unread c) locals0 (m_protocol c)
       = EndOfStream flags p ->
     _readResponse secKey c
       = _validateHandshake flags (set_protocol p (set_unread [] c))) /\
  (forall secKey p rest,
     read_loop secKey (unread c) locals0 (m_protocol c)
       = BlankLine flags p rest ->
     _readResponse secKey c
       = _validateHandshake flags (set_protocol p (set_unread rest c))).
Proof.
  cbv zeta.
  assert (_validateHandshake flags c =
          if negb (N.testbit flags 0)
          then (_TRIGGER_ERROR UPGRADE_REQUIRED ;; ret false) c
          else if negb (N.testbit flags 1)
          then (_TRIGGER_ERROR UPGRADE_REQUIRED ;; ret false) c
          else if negb (N.testbit flags 2)
          then (_TRIGGER_ERROR BAD_REQUEST ;; ret false) c
          else Returns true c) as ->.
  { unfold _validateHandshake.
    rewrite has_upgrade, has_connection, has_seckey.
    now repeat destruct (N.testbit flags _). }
  repeat split.
  - now intros -> -> ->.
  - intros ->. apply trigger_error_fails.
  - intros -> ->. apply trigger_error_fails.
  - intros -> -> ->. apply trigger_error_fails.
  - intros secKey p E. unfold _readResponse. now rewrite E.
  - intros secKey p rest E. unfold _readResponse. now rewrite E.
Qed.

(** ** The header validator *)

Ltac known_header H :=
  repeat match goal with
    | |- context [strcasecmp ?h (lit ?n)] =>
        is_var h; rewrite (strcasecmp_caseless h _ (lit n) H)
    end;
  repeat match goal with
    | |- context [(strcasecmp (lit ?a) (lit ?b) =? 0)%Z] =>
        let r := eval vm_compute in (strcasecmp (lit a) (lit b) =? 0)%Z in
        change (strcasecmp (lit a) (lit b) =? 0)%Z with r
    end;
  cbv iota.

Lemma on_line_header (secKey line name rest : cstring)
    (currentLine : nat) (flags : N) :
  currentLine <> 0 ->
  strtok_r line (lit ":") = (Some name, rest) ->
  on_line secKey currentLine line flags =
  if (strcasecmp name (lit "Upgrade") =? 0)%Z then
    match first_token is_space rest with
    | None => Fail UPGRADE_REQUIRED
    | Some value =>
        if negb (strcasecmp value (lit "websocket") =? 0)%Z
        then Fail UPGRADE_REQUIRED
        else Next (N.lor flags kValidUpgradeHeader) None
    end
  else if (strcasecmp name (lit "Connection") =? 0)%Z then
    match first_token is_space rest with
    | None => Fail UPGRADE_REQUIRED
    | Some value =>
        if negb (strcasecmp value (lit "Upgrade") =? 0)%Z
        then Fail UPGRADE_REQUIRED
        else Next (N.lor flags kValidConnectionHeader) None
    end
  else if (strcasecmp name (lit "Sec-WebSocket-Accept") =? 0)%Z then
    match first_token is_space rest with
    | None => Fail BAD_REQUEST
    | Some value =>
        if negb (strcmp value (encodeSecKey secKey) =? 0)%Z
        then Fail BAD_REQUEST
        else Next (N.lor flags kValidSecKey) None
    end
  else if (strcasecmp name (lit "Sec-WebSocket-Protocol") =? 0)%Z then
    match first_token is_space rest with
    | None => Crash NullPointer
    | Some value => Next flags (Some value)
    end
  else Next flags None.
Proof.
  intros Hcl Htok. unfold on_line.
  destruct (Nat.eqb_spec currentLine 0) as [|_]; [contradiction|].
  apply strtok_r_some_length in Htok as Hlen.
  destruct (Nat.ltb_spec 0 (List.length line)) as [_|]; [|lia].
  rewrite Htok, !strtok_r_space. reflexivity.
Qed.

(** C10 (the code departs from the claim).  On a header line whose name
    equals [Sec-WebSocket-Protocol] up to case, a first space-delimited
    token is copied into [m_protocol] without any validation and the loop
    goes on; but when there is no token, [strlen] is handed the null
    pointer that [strtok_r] returned. *)
Theorem protocol_token_unchecked (secKey line name rest : cstring)
    (currentLine : nat) (flags : N) :
  currentLine <> 0 ->
  strtok_r line (lit ":") = (Some name, rest) ->
  caseless_eq name (lit "Sec-WebSocket-Protocol") ->
  (forall value, first_token is_space rest = Some value ->
     on_line secKey currentLine line flags = Next flags (Some value)) /\
  (first_token is_space rest = None ->
     on_line secKey currentLine line flags = Crash NullPointer).
Proof.
  intros Hcl Htok Hname.
  rewrite (on_line_header secKey line name rest currentLine flags Hcl Htok).
  known_header Hname.
  split; [intros value ->|intros ->]; reflexivity.
Qed.

(** ** The response reader *)

(** C9 (the code departs from the claim).  A line of more than 128 bytes,
    its line feed included, is not truncated: wherever the line stands in
    the response, its 129th byte is stored behind the end of
    [char buffer[128]]. *)
Theorem over_length_line_overflows (secKey : cstring)
    (raw rest : list ascii) (v : locals) (p : option cstring) :
  line_start v ->
  ~ In LF raw ->
  128 <= List.length raw ->
  read_loop secKey (raw ++ LF :: rest) v p = Faulted BufferOverflow.
Proof. apply read_loop_long. Qed.

(** ** The wait for the first byte *)

Lemma delay_iter (time k : nat) (c : WebSocketClient) :
  Nat.iter k (delay time) c = set_millis (millis c + k * time) c.
Proof.
  induction k as [|k IH]; simpl.
  - rewrite Nat.add_0_r. now destruct c.
  - rewrite IH. unfold delay, set_millis; simpl. f_equal. lia.
Qed.

Lemma available_delayed (time k : nat) (c : WebSocketClient) :
  available (set_millis (millis c + k * time) c) = polled time c k.
Proof. reflexivity. Qed.

Lemma wait_loop_spec (maxAttempts time : nat) :
  forall (fuel attempts : nat) (c : WebSocketClient),
    maxAttempts - attempts < fuel ->
    attempts <= maxAttempts ->
    exists j,
      wait_loop fuel attempts maxAttempts time c
        = (attempts + j, Nat.iter j (delay time) c) /\
      attempts + j <= maxAttempts /\
      (forall k, k < j -> available (Nat.iter k (delay time) c) = false) /\
      (attempts + j < maxAttempts ->
       available (Nat.iter j (delay time) c) = true).
Proof.
  induction fuel as [|fuel IH]; intros attempts c Hfuel Hle; [lia|].
  cbn [wait_loop].
  destruct (available c) eqn:Hav; cbn [negb andb].
  - exists 0. rewrite Nat.add_0_r. repeat split; auto. intros k Hk; lia.
  - destruct (Nat.ltb_spec attempts maxAttempts) as [Hlt|Hge].
    + destruct (IH (S attempts) (delay time c)) as (j & E & Hj & Hno & Hyes);
        [lia|lia|].
      exists (S j). rewrite E, Nat.iter_succ_r.
      replace (attempts + S j) with (S attempts + j) by lia.
      repeat split; auto.
      intros [|k] Hk; [assumption|].
      rewrite Nat.iter_succ_r. apply Hno. lia.
    + exists 0. rewrite Nat.add_0_r. repeat split; auto; intros; lia.
Qed.

(** The result of the wait, by the number of delays it takes. *)
Lemma wait_result (maxAttempts time : nat) (c : WebSocketClient) :
  exists attempts,
    _waitForResponse maxAttempts time c
      = Returns (attempts <? maxAttempts)
          (set_millis (millis c + attempts * time) c) /\
    attempts <= maxAttempts /\
    (forall k, k < attempts -> polled time c k = false) /\
    (attempts < maxAttempts -> polled time c attempts = true).
Proof.
  destruct (wait_loop_spec maxAttempts time (S maxAttempts) 0 c)
    as (j & E & Hj & Hno & Hyes); [lia|lia|].
  cbn [Nat.add] in *. exists j. repeat split.
  - unfold _waitForResponse. now rewrite E, delay_iter.
  - assumption.
  - intros k Hk. rewrite <- available_delayed, <- delay_iter. auto.
  - intros Hlt. rewrite <- available_delayed, <- delay_iter. auto.
Qed.

Lemma wait_result_seen (maxAttempts time attempts : nat)
    (c : WebSocketClient) :
  (forall k, k < attempts -> polled time c k = false) ->
  (attempts < maxAttempts -> polled time c attempts = true) ->
  (attempts <? maxAttempts) = true <->
  exists k, k < maxAttempts /\ polled time c k = true.
Proof.
  intros Hno Hyes. rewrite Nat.ltb_lt. split.
  - intros Hlt. exists attempts. auto.
  - intros (k & Hk & Hp).
    destruct (Nat.lt_ge_cases k attempts) as [Hka|Hka]; [|lia].
    rewrite Hno in Hp by assumption. discriminate.
Qed.

(** C8 (the code departs from the claim).  [_waitForResponse] polls
    [available()] before each of at most [maxAttempts] delays of [time] and
    once more after the last of them, and leaves the loop at the first poll
    that sees a byte.  It reports success exactly when one of the polls
    before the last one sees a byte: a byte that the final poll sees, after
    the last delay, is reported as a timeout. *)
Theorem wait_for_response_window (maxAttempts time : nat)
    (c : WebSocketClient) :
  exists attempts,
    _waitForResponse maxAttempts time c
      = Returns (attempts <? maxAttempts)
          (set_millis (millis c + attempts * time) c) /\
    attempts <= maxAttempts /\
    (forall k, k < attempts -> polled time c k = false) /\
    ((attempts <? maxAttempts) = true <->
     exists k, k < maxAttempts /\ polled time c k = true) /\
    ((forall k, k < maxAttempts -> polled time c k = false) ->
     polled time c maxAttempts = true ->
     _waitForResponse maxAttempts time c
       = Returns false (set_millis (millis c + maxAttempts * time) c)).
Proof.
  destruct (wait_loop_spec maxAttempts time (S maxAttempts) 0 c)
    as (j & E & Hj & Hno & Hyes); [lia|lia|].
  cbn [Nat.add] in *.
  assert (forall k, k < j -> polled time c k = false) as Hno'.
  { intros k Hk. rewrite <- available_delayed, <- delay_iter. auto. }
  assert ((j <? maxAttempts) = true <->
          exists k, k < maxAttempts /\ polled time c k = true) as Hiff.
  { rewrite Nat.ltb_lt. split.
    - intros Hlt. exists j. split; [assumption|].
      rewrite <- available_delayed, <- delay_iter. auto.
    - intros (k & Hk & Hp).
      destruct (Nat.lt_ge_cases k j) as [Hkj|Hkj]; [|lia].
      rewrite Hno' in Hp by assumption. discriminate. }
  assert (_waitForResponse maxAttempts time c
          = Returns (j <? maxAttempts) (set_millis (millis c + j * time) c))
    as Hrun.
  { unfold _waitForResponse. now rewrite E, delay_iter. }
  exists j. repeat split; try assumption; try apply Hiff.
  intros Hnone Hlast.
  assert (j = maxAttempts) as Hjm.
  { destruct (Nat.eq_dec j maxAttempts) as [|Hne]; [assumption|].
    assert (polled time c j = true) as Hp.
    { rewrite <- available_delayed, <- delay_iter. apply Hyes. lia. }
    rewrite Hnone in Hp by lia. discriminate. }
  rewrite Hrun, Hjm, Nat.ltb_irrefl. reflexivity.
Qed.

(** ** The orchestrator *)

Lemma validateHandshake_first_missing (flags : N) (c : WebSocketClient) :
  _validateHandshake flags c =
  match first_missing flags with
  | Some code => (_TRIGGER_ERROR code ;; ret false) c
  | None => Returns true c
  end.
Proof.
  unfold _validateHandshake, first_missing.
  rewrite has_upgrade, has_connection, has_seckey.
  now repeat destruct (N.testbit flags _).
Qed.

Lemma written_set_written (w : list ascii) (c : WebSocketClient) :
  written (set_written w c) = w.
Proof. reflexivity. Qed.

Lemma set_written_again (w w' : list ascii) (c : WebSocketClient) :
  set_written w (set_written w' c) = set_written w c.
Proof. reflexivity. Qed.

Lemma println_then {A : Type} (s : cstring) (k : M A) (c : WebSocketClient) :
  (println s ;; k) c = k (set_written (written c ++ s ++ [CR; LF]) c).
Proof. reflexivity. Qed.

Lemma println_last (s : cstring) (c : WebSocketClient) :
  println s c = Returns tt (set_written (written c ++ s ++ [CR; LF]) c).
Proof. reflexivity. Qed.

Lemma sendRequest_written (host : cstring) (port : N) (path secKey : cstring)
    (protocols : option cstring) (c : WebSocketClient) :
  _sendRequest host port path secKey protocols c =
  Returns tt
    (set_written
       (written c ++ handshake_request host port path secKey protocols) c).
Proof.
  unfold _sendRequest, handshake_request.
  rewrite !println_then.
  destruct protocols as [protocols|].
  - rewrite println_then, println_last.
    rewrite !written_set_written, !set_written_again.
    do 2 f_equal. repeat rewrite <- app_assoc. reflexivity.
  - change ((ret tt ;; println (lit "Sec-WebSocket-Version: 13" ++ [CR; LF]))
              ?st) with
      (println (lit "Sec-WebSocket-Version: 13" ++ [CR; LF]) st).
    rewrite println_last.
    rewrite !written_set_written, !set_written_again.
    do 2 f_equal. repeat rewrite <- app_assoc. reflexivity.
Qed.

Lemma open_refused (host : cstring) (port : N) (path : cstring)
    (protocols : option cstring) (server : Server) (seed : N)
    (c : WebSocketClient) :
  accepts server = false ->
  fails_with CONNECTION_REFUSED c
    (open host port path protocols server seed c).
Proof.
  intros Hacc. unfold open, close, connect, terminate, modify, bind, ret.
  rewrite Hacc. cbn [negb].
  unfold fails_with, _TRIGGER_ERROR, terminate, modify, bind, ret. simpl.
  destruct (_onError c); eexists; (split; [reflexivity|]); simpl;
    auto using app_nil_r.
Qed.

(** [open] on a server that accepts the connection: the request is written,
    the wait takes [attempts] delays, and the response is read unless the
    wait has timed out. *)
Lemma open_connected (host : cstring) (port : N) (path : cstring)
    (protocols : option cstring) (server : Server) (seed : N)
    (c : WebSocketClient) :
  accepts server = true ->
  let secKey := generateSecKey seed in
  let request := handshake_request host port path secKey protocols in
  exists attempts,
    let c2 := set_millis (millis c + attempts * kDelay)
                (requesting request server c) in
    ((attempts <? kTimeoutInterval) = true <->
     first_byte_seen server (millis c)) /\
    open host port path protocols server seed c =
    if attempts <? kTimeoutInterval then
      (ok <- _readResponse secKey ;;
       if negb ok then ret false
       else
         modify (set_readyState OPEN) ;;
         (fun c => if _onOpen c
                   then Returns tt (set_calls (calls c ++ [OnOpen]) c)
                   else Returns tt c) ;;
         ret true) c2
    else (_TRIGGER_ERROR REQUEST_TIMEOUT ;; ret false) c2.
Proof.
  intros Hacc secKey request.
  destruct (wait_result kTimeoutInterval kDelay
              (requesting request server c))
    as (attempts & Hrun & _ & Hno & Hyes).
  exists attempts.
  split.
  { exact (wait_result_seen kTimeoutInterval kDelay attempts _ Hno Hyes). }
  unfold open. fold secKey.
  unfold bind, close, connect, terminate, modify, ret.
  rewrite Hacc. cbn [negb]. rewrite sendRequest_written.
  match goal with
  | |- context [_waitForResponse _ _ ?st] =>
      change st with (requesting request server c)
  end.
  rewrite Hrun.
  destruct (attempts <? kTimeoutInterval); reflexivity.
Qed.

Lemma fails_with_state (code : WebSocketError) (c c2 : WebSocketClient)
    (o : outcome bool) :
  calls c2 = calls c -> _onError c2 = _onError c ->
  fails_with code c2 o -> fails_with code c o.
Proof. unfold fails_with. now intros -> ->. Qed.

Lemma fails_with_bind (code : WebSocketError) (c : WebSocketClient)
    (m : M bool) (k : M bool) :
  fails_with code c (m c) ->
  fails_with code c ((ok <- m ;; if negb ok then ret false else k) c).
Proof.
  intros (c' & E & H). exists c'. split; [|exact H].
  unfold bind. now rewrite E.
Qed.

Lemma readResponse_failure (secKey : cstring) (c : WebSocketClient)
    (code : WebSocketError) (p : option cstring) (rest : list ascii) :
  read_loop secKey (unread c) locals0 (m_protocol c) = Failure code p rest ->
  fails_with code c (_readResponse secKey c).
Proof.
  intros E. unfold _readResponse. rewrite E.
  eapply fails_with_state; [| |apply trigger_error_fails]; reflexivity.
Qed.

Lemma readResponse_missing (secKey : cstring) (c : WebSocketClient)
    (code : WebSocketError) (flags : N) (p : option cstring) :
  read_loop secKey (unread c) locals0 (m_protocol c) = EndOfStream flags p \/
  (exists rest, read_loop secKey (unread c) locals0 (m_protocol c)
                = BlankLine flags p rest) ->
  first_missing flags = Some code ->
  fails_with code c (_readResponse secKey c).
Proof.
  intros [E|(rest & E)] Hmiss; unfold _readResponse; rewrite E;
    rewrite validateHandshake_first_missing, Hmiss;
    (eapply fails_with_state; [| |apply trigger_error_fails]; reflexivity).
Qed.

Lemma readResponse_complete (secKey : cstring) (c : WebSocketClient)
    (flags : N) (p : option cstring) (rest : list ascii) :
  read_loop secKey (unread c) locals0 (m_protocol c)
    = BlankLine flags p rest ->
  first_missing flags = None ->
  _readResponse secKey c = Returns true (set_protocol p (set_unread rest c)).
Proof.
  intros E Hall. unfold _readResponse. rewrite E.
  now rewrite validateHandshake_first_missing, Hall.
Qed.

(** C2.  Every failing handshake attempt -- the connection is refused, no
    byte is seen in time, the status line or a checked header is rejected,
    or a requirement is missing at the end of the headers -- makes [open]
    return [false] with the transport terminated and the ready state
    CLOSED, after one dispatch of the error notification with the cause of
    that failure (the registered listener is called exactly once; an empty
    listener slot receives nothing).  And [open] returns [false] in these
    cases only. *)
Theorem failing_attempt_closes (host : cstring) (port : N) (path : cstring)
    (protocols : option cstring) (server : Server) (seed : N)
    (c : WebSocketClient) :
  (forall cause,
     failing_attempt server c (generateSecKey seed) cause ->
     exists c',
       open host port path protocols server seed c = Returns false c' /\
       connected c' = false /\
       m_readyState c' = CLOSED /\
       calls c' = calls c ++ (if _onError c then [OnError cause] else [])) /\
  (forall c',
     open host port path protocols server seed c = Returns false c' ->
     exists cause, failing_attempt server c (generateSecKey seed) cause).
Proof.
  split.
  - intros cause Hfail. change (fails_with cause c
      (open host port path protocols server seed c)).
    destruct Hfail as [Hacc|Hacc Hnone|code p rest Hacc Hseen Hloop
                      |flags p code Hacc Hseen Hloop Hmiss];
      [now apply open_refused|..];
      destruct (open_connected host port path protocols server seed c Hacc)
        as (attempts & Hiff & ->); cbv zeta in *.
    + destruct (attempts <? kTimeoutInterval);
        [elim Hnone; now apply Hiff|].
      eapply fails_with_state; [| |apply trigger_error_fails]; reflexivity.
    + destruct (attempts <? kTimeoutInterval); [|now apply Hiff in Hseen].
      eapply fails_with_state;
        [| |apply fails_with_bind; eapply readResponse_failure; exact Hloop];
        reflexivity.
    + destruct (attempts <? kTimeoutInterval); [|now apply Hiff in Hseen].
      eapply fails_with_state;
        [| |apply fails_with_bind; eapply readResponse_missing;
            [exact Hloop|exact Hmiss]];
        reflexivity.
  - intros c' Hopen.
    destruct (accepts server) eqn:Hacc;
      [|exists CONNECTION_REFUSED; now constructor].
    destruct (open_connected host port path protocols server seed c Hacc)
      as (attempts & Hiff & E); cbv zeta in *.
    rewrite E in Hopen. clear E.
    destruct (attempts <? kTimeoutInterval).
    + assert (first_byte_seen server (millis c)) as Hseen
        by now apply Hiff.
      set (c2 := set_millis _ _) in Hopen.
      unfold bind at 1 in Hopen. unfold _readResponse in Hopen.
      change (unread c2) with (response server) in Hopen.
      change (m_protocol c2) with (m_protocol c) in Hopen.
      destruct (read_loop _ _ _ _) as [flags p|flags p rest|code p rest|u]
        eqn:Hloop.
      * destruct (first_missing flags) as [code|] eqn:Hmiss.
        -- exists code. eapply requirement_missing; eauto.
        -- rewrite validateHandshake_first_missing, Hmiss in Hopen.
           cbn [negb] in Hopen. unfold bind, modify, ret in Hopen.
           destruct (_onOpen _); discriminate.
      * destruct (first_missing flags) as [code|] eqn:Hmiss.
        -- exists code. eapply requirement_missing; eauto.
        -- rewrite validateHandshake_first_missing, Hmiss in Hopen.
           cbn [negb] in Hopen. unfold bind, modify, ret in Hopen.
           destruct (_onOpen _); discriminate.
      * exists code. eapply line_rejected; eauto.
      * discriminate.
    + exists REQUEST_TIMEOUT. constructor; [assumption|].
      intros Hseen. apply Hiff in Hseen. discriminate.
Qed.

(** ** Valid responses *)

Lemma line_text_begins_with (prefix raw : cstring) :
  Forall (fun c => line_end c = false) prefix ->
  begins_with prefix raw -> begins_with prefix (line_text raw).
Proof.
  unfold begins_with, line_text. intros Hp. revert raw.
  induction Hp as [|a prefix Ha _ IH]; intros raw; [simpl; auto|].
  destruct raw as [|c raw]; [discriminate|].
  cbn [List.length take_until firstn]. intros E. injection E as -> E.
  rewrite Ha. cbn [firstn]. f_equal. auto.
Qed.

Lemma on_line_status (secKey : cstring) (raw : list ascii) (flags : N) :
  begins_with (lit "HTTP/1.1 101") raw ->
  on_line secKey 0 (line_text raw) flags = Next flags None.
Proof.
  intros Hok. unfold on_line. cbn [Nat.eqb].
  apply line_text_begins_with in Hok; [|repeat constructor].
  apply (strncmp_eq (line_text raw) (lit "HTTP/1.1 101")) in Hok.
  change (List.length (lit "HTTP/1.1 101")) with 12 in Hok.
  now rewrite Hok.
Qed.

Lemma not_caseless (a b : cstring) :
  ~ caseless_eq a b -> (strcasecmp a b =? 0)%Z = false.
Proof.
  intros H. destruct (Z.eqb_spec (strcasecmp a b) 0) as [E|]; [|reflexivity].
  now apply strcasecmp_eq in E.
Qed.

Lemma on_line_valid (secKey line : cstring) (kind : header_kind)
    (currentLine : nat) (flags : N) :
  currentLine <> 0 ->
  valid_header secKey line kind ->
  exists flags' q,
    on_line secKey currentLine line flags = Next flags' q /\
    (forall n, N.testbit flags n = true -> N.testbit flags' n = true) /\
    (kind = UpgradeHeader -> N.testbit flags' 0 = true) /\
    (kind = ConnectionHeader -> N.testbit flags' 1 = true) /\
    (kind = AcceptHeader -> N.testbit flags' 2 = true).
Proof.
  intros Hcl (name & rest & Htok & Hkind).
  rewrite (on_line_header secKey line name rest currentLine flags Hcl Htok).
  destruct kind.
  - destruct Hkind as (Hname & value & -> & Hvalue). known_header Hname.
    apply strcasecmp_eq in Hvalue. rewrite Hvalue. cbn [Z.eqb negb].
    eexists _, _. split; [reflexivity|].
    repeat split; try discriminate; intros; rewrite N.lor_spec;
      auto using orb_true_r, orb_true_l. now rewrite H.
  - destruct Hkind as (Hname & value & -> & Hvalue). known_header Hname.
    apply strcasecmp_eq in Hvalue. rewrite Hvalue. cbn [Z.eqb negb].
    eexists _, _. split; [reflexivity|].
    repeat split; try discriminate; intros; rewrite N.lor_spec;
      auto using orb_true_r, orb_true_l. now rewrite H.
  - destruct Hkind as (Hname & ->). known_header Hname.
    rewrite (proj2 (strcmp_eq _ _) eq_refl). cbn [Z.eqb negb].
    eexists _, _. split; [reflexivity|].
    repeat split; try discriminate; intros; rewrite N.lor_spec;
      auto using orb_true_r, orb_true_l. now rewrite H.
  - destruct Hkind as (Hname & Hvalue). known_header Hname.
    destruct (first_token is_space rest) as [value|]; [|contradiction].
    eexists _, _. split; [reflexivity|].
    repeat split; try discriminate; auto.
  - destruct Hkind as (H1 & H2 & H3 & H4).
    rewrite !not_caseless by assumption.
    eexists _, _. split; [reflexivity|].
    repeat split; try discriminate; auto.
Qed.

Lemma read_headers (secKey : cstring) (blank body : list ascii) :
  buffer_line blank -> line_text blank = [] ->
  forall (headers : list (list ascii)) (v : locals) (p : option cstring),
    line_start v ->
    currentLine v <> 0 ->
    currentLine v + List.length headers < 256 ->
    Forall (fun raw => buffer_line raw /\
                       exists kind, valid_header secKey (line_text raw) kind)
      headers ->
    exists f q,
      read_loop secKey
        (flat_map (fun raw => raw ++ [LF]) headers ++ blank ++ LF :: body)
        v p = BlankLine f q body /\
      (forall n, N.testbit (flags v) n = true -> N.testbit f n = true) /\
      (Exists (fun raw => valid_header secKey (line_text raw) UpgradeHeader)
         headers -> N.testbit f 0 = true) /\
      (Exists (fun raw => valid_header secKey (line_text raw)
                            ConnectionHeader)
         headers -> N.testbit f 1 = true) /\
      (Exists (fun raw => valid_header secKey (line_text raw) AcceptHeader)
         headers -> N.testbit f 2 = true).
Proof.
  intros Hblank Htext.
  induction headers as [|raw headers IH]; intros v p Hv Hcl Hlen Hall.
  - cbn [flat_map app]. rewrite read_loop_line by assumption.
    rewrite (proj2 (on_line_break secKey (line_text blank) (currentLine v)
                      (flags v))) by auto.
    eexists _, _. split; [reflexivity|].
    repeat split; auto; intros H; inversion H.
  - inversion Hall as [|? ? [Hraw (kind & Hkind)] Hall']; subst.
    cbn [flat_map List.length] in *. rewrite <- !app_assoc. cbn [app].
    rewrite read_loop_line by assumption.
    destruct (on_line_valid secKey _ _ _ (flags v) Hcl Hkind)
      as (f' & q' & Hline & Hmono & _).
    rewrite Hline.
    assert ((currentLine v + 1) mod 256 = currentLine v + 1) as Hnext
      by (apply Nat.mod_small; lia).
    edestruct (IH {| flags := f'; currentLine := (currentLine v + 1) mod 256;
                     counter := 0; buffer := repeat NUL 128 |}
                 (assign q' p))
      as (f & q & -> & Hmono' & Hu' & Hc' & Ha');
      [apply line_start_next
      |cbn [currentLine]; lia
      |cbn [currentLine]; lia
      |assumption|].
    cbn [flags] in Hmono'.
    eexists _, _. split; [reflexivity|].
    repeat split; auto; intros H; inversion H as [? ? Hk|]; subst; auto;
      apply Hmono';
      destruct (on_line_valid secKey _ _ _ (flags v) Hcl Hk)
        as (f2 & q2 & E2 & _ & Hu2 & Hc2 & Ha2);
      rewrite Hline in E2; injection E2 as <- <-; auto.
Qed.

(** C1, as amended.  When the server accepts the connection, a byte is
    seen within the polls of the wait, and the response is a valid 101
    response to the key of the request -- a status line that begins with
    [HTTP/1.1 101]; header lines that the validator accepts, each of them,
    among which [Upgrade: websocket], [Connection: Upgrade] (up to case) and
    [Sec-WebSocket-Accept] with exactly the expected accept value; then a
    blank line; every line within the 128-byte line buffer and fewer than
    255 header lines -- [open] returns [true], the ready state is OPEN, the
    transport stays connected with the body unread, and the open
    notification is dispatched once (the registered open listener is called
    exactly once) while the error notification is not. *)
Theorem valid_response_opens (host : cstring) (port : N) (path : cstring)
    (protocols : option cstring) (server : Server) (seed : N)
    (c : WebSocketClient) (r : http_response) :
  accepts server = true ->
  first_byte_seen server (millis c) ->
  response server = wire r ->
  valid_101_response (generateSecKey seed) r ->
  exists c',
    open host port path protocols server seed c = Returns true c' /\
    m_readyState c' = OPEN /\
    connected c' = true /\
    calls c' = calls c ++ (if _onOpen c then [OnOpen] else []) /\
    unread c' = body r.
Proof.
  intros Hacc Hseen Hwire
    (Hstatus & H101 & Hall & Hu & Hc & Ha & Hblank & Htext & Hlen).
  destruct (open_connected host port path protocols server seed c Hacc)
    as (attempts & Hiff & ->); cbv zeta in *.
  apply Hiff in Hseen. rewrite Hseen.
  set (c2 := set_millis _ _).
  destruct (read_headers (generateSecKey seed) (blank_line r) (body r)
              Hblank Htext
              (header_lines r)
              {| flags := 0; currentLine := (0 + 1) mod 256; counter := 0;
                 buffer := repeat NUL 128 |} (m_protocol c))
    as (f & q & Hloop & _ & Hu' & Hc' & Ha');
    [apply line_start_next
    |cbn [currentLine]; rewrite Nat.mod_small; lia
    |cbn [currentLine]; rewrite Nat.mod_small; lia
    |assumption|].
  assert (read_loop (generateSecKey seed) (unread c2) locals0 (m_protocol c2)
          = BlankLine f q (body r)) as Hread.
  { change (unread c2) with (response server).
    change (m_protocol c2) with (m_protocol c).
    rewrite Hwire. unfold wire.
    rewrite read_loop_line by auto using line_start_locals0.
    cbn [currentLine flags locals0].
    rewrite on_line_status by assumption. exact Hloop. }
  assert (first_missing f = None) as Hnone.
  { unfold first_missing. now rewrite Hu', Hc', Ha'. }
  unfold bind at 1.
  rewrite (readResponse_complete (generateSecKey seed) c2 f q (body r)
             Hread Hnone).
  cbn [negb]. unfold bind, modify, ret.
  change (_onOpen (set_readyState OPEN
                     (set_protocol q (set_unread (body r) c2))))
    with (_onOpen c).
  destruct (_onOpen c); eexists; (split; [reflexivity|]);
    repeat split; auto using app_nil_r.
Qed.

(** ** Further properties of the validator and of the reader *)

Lemma text_only_no_line_feed (raw : list ascii) :
  text_only raw -> ~ In LF raw.
Proof.
  intros Ht Hin. unfold text_only in Ht. rewrite Forall_forall in Ht.
  apply Ht in Hin. discriminate.
Qed.

Lemma line_text_cut (raw junk : list ascii) (c : ascii) :
  text_only raw -> line_end c = true -> line_text (raw ++ c :: junk) = raw.
Proof.
  unfold line_text. intros Ht Hc.
  induction Ht as [|a raw Ha _ IH]; simpl.
  - now rewrite Hc.
  - now rewrite Ha, IH.
Qed.

Lemma line_text_text_only (raw : list ascii) :
  text_only raw -> line_text raw = raw.
Proof.
  unfold line_text. intros Ht.
  induction Ht as [|a raw Ha _ IH]; simpl; [reflexivity|].
  now rewrite Ha, IH.
Qed.

(** The status line is checked by its first twelve characters only: after
    a first line that begins with [HTTP/1.1 101], whatever follows in it,
    the loop goes on with line 1 and no flag set. *)
Theorem status_line_is_prefix_check (secKey : cstring)
    (raw rest : list ascii) (p : option cstring) :
  buffer_line raw ->
  begins_with (lit "HTTP/1.1 101") raw ->
  read_loop secKey (raw ++ LF :: rest) locals0 p =
  read_loop secKey rest (at_line 1 0) p.
Proof.
  intros Hraw Hok.
  rewrite read_loop_line by auto using line_start_locals0.
  cbn [currentLine flags locals0]. now rewrite on_line_status.
Qed.






(** A carriage return (or a NUL) ends the text of a line: the bytes between
    it and the line feed are dropped, so the line is read like the same
    line without them. *)
Theorem carriage_return_cuts_line (secKey : cstring)
    (raw junk rest : list ascii) (c : ascii) (v : locals)
    (p : option cstring) :
  line_start v ->
  text_only raw ->
  c = CR \/ c = NUL ->
  ~ In LF junk ->
  List.length raw + List.length junk < 127 ->
  read_loop secKey (raw ++ c :: junk ++ LF :: rest) v p =
  read_loop secKey (raw ++ LF :: rest) v p.
Proof.
  intros Hv Ht Hc Hjunk Hlen.
  assert (line_end c = true) as Hend by (destruct Hc as [->| ->]; reflexivity).
  assert (~ In LF raw) as Hraw by now apply text_only_no_line_feed.
  replace (raw ++ c :: junk ++ LF :: rest)
    with ((raw ++ c :: junk) ++ LF :: rest)
    by (now rewrite <- app_assoc).
  rewrite !read_loop_line; try assumption.
  - now rewrite (line_text_cut raw junk c Ht Hend), line_text_text_only.
  - split; [assumption|lia].
  - split.
    + intros Hin. apply in_app_or in Hin as [Hin|[Hin|Hin]]; auto.
      destruct Hc as [->| ->]; discriminate.
    + rewrite length_app. simpl. lia.
Qed.

(** ** The flags and the lines that set them *)

(** A line that lets the loop go on leaves the flags as they are or adds
    the bit of the required header that it validly is. *)
Lemma on_line_next_inv (secKey line : cstring) (currentLine : nat)
    (flags flags' : N) (q : option cstring) :
  on_line secKey currentLine line flags = Next flags' q ->
  flags' = flags \/
  exists kind n,
    requirement_bit kind = Some n /\
    flags' = N.lor flags (2 ^ n) /\
    valid_header secKey line kind.
Proof.
  unfold on_line.
  destruct (currentLine =? 0).
  { destruct (negb _); [discriminate|]. intros [= <- <-]. now left. }
  destruct (0 <? List.length line); [|discriminate].
  destruct (strtok_r line (lit ":")) as [[name|] rest] eqn:Htok;
    [|discriminate].
  destruct (Z.eqb_spec (strcasecmp name (lit "Upgrade")) 0) as [E1|_].
  { destruct (fst (strtok_r rest (lit " "))) as [value|] eqn:Ev;
      [|discriminate].
    destruct (Z.eqb_spec (strcasecmp value (lit "websocket")) 0) as [E2|];
      [|discriminate].
    intros [= <- <-]. right. exists UpgradeHeader, 0%N.
    repeat split. exists name, rest. split; [exact Htok|].
    split; [now apply strcasecmp_eq|]. exists value.
    split; [now rewrite <- strtok_r_space|now apply strcasecmp_eq]. }
  destruct (Z.eqb_spec (strcasecmp name (lit "Connection")) 0) as [E1|_].
  { destruct (fst (strtok_r rest (lit " "))) as [value|] eqn:Ev;
      [|discriminate].
    destruct (Z.eqb_spec (strcasecmp value (lit "Upgrade")) 0) as [E2|];
      [|discriminate].
    intros [= <- <-]. right. exists ConnectionHeader, 1%N.
    repeat split. exists name, rest. split; [exact Htok|].
    split; [now apply strcasecmp_eq|]. exists value.
    split; [now rewrite <- strtok_r_space|now apply strcasecmp_eq]. }
  destruct (Z.eqb_spec (strcasecmp name (lit "Sec-WebSocket-Accept")) 0)
    as [E1|_].
  { cbv zeta.
    destruct (fst (strtok_r rest (lit " "))) as [value|] eqn:Ev;
      [|discriminate].
    destruct (Z.eqb_spec (strcmp value (encodeSecKey secKey)) 0) as [E2|];
      [|discriminate].
    intros [= <- <-]. right. exists AcceptHeader, 2%N.
    repeat split. exists name, rest. split; [exact Htok|].
    split; [now apply strcasecmp_eq|].
    apply strcmp_eq in E2. now rewrite <- strtok_r_space, Ev, E2. }
  destruct (Z.eqb_spec (strcasecmp name (lit "Sec-WebSocket-Protocol")) 0)
    as [E1|_].
  { destruct (fst (strtok_r rest (lit " "))); [|discriminate].
    intros [= <- <-]. now left. }
  intros [= <- <-]. now left.
Qed.

Lemma requirement_bit_small (kind : header_kind) (n : N) :
  requirement_bit kind = Some n -> (n < 3)%N.
Proof. destruct kind; intros [= <-]; reflexivity. Qed.

Lemma requirement_bit_inj (kind kind' : header_kind) (n : N) :
  requirement_bit kind = Some n -> requirement_bit kind' = Some n ->
  kind = kind'.
Proof. destruct kind, kind'; intros [= <-]; now intros [=]. Qed.

Lemma testbit_lor_pow2 (flags n m : N) :
  N.testbit (N.lor flags (2 ^ n)) m = N.testbit flags m || (n =? m)%N.
Proof. now rewrite N.lor_spec, N.pow2_bits_eqb. Qed.

Lemma loop_body_continue (secKey : cstring) (bite : ascii) (v v' : locals)
    (p p' : option cstring) :
  loop_body secKey bite v p = Continue v' p' ->
  flags v' = flags v \/
  exists n, (n < 3)%N /\ flags v' = N.lor (flags v) (2 ^ n).
Proof.
  unfold loop_body.
  destruct (store _ _ _) as [buffer1|]; [|discriminate].
  destruct (bite =? LF)%char; [|intros [= <- _]; now left].
  destruct (store _ _ _) as [buffer2|]; [|discriminate].
  destruct (on_line _ _ _ _) as [f q| | |] eqn:Hline; try discriminate.
  intros [= <- _]. cbn [flags].
  apply on_line_next_inv in Hline as [->|(kind & n & Hn & -> & _)];
    [now left|].
  right. exists n. split; [now apply requirement_bit_small in Hn|].
  reflexivity.
Qed.

Lemma loop_body_leave (secKey : cstring) (bite : ascii) (v : locals)
    (p : option cstring) (exit : list ascii -> loop_exit)
    (rest : list ascii) (f : N) :
  loop_body secKey bite v p = Leave exit ->
  exits_with (exit rest) f -> f = flags v.
Proof.
  unfold loop_body, exits_with.
  destruct (store _ _ _) as [buffer1|];
    [|intros [= <-] [(q & [=])|(q & r & [=])]].
  destruct (bite =? LF)%char; [|discriminate].
  destruct (store _ _ _) as [buffer2|];
    [|intros [= <-] [(q & [=])|(q & r & [=])]].
  destruct (on_line _ _ _ _) as [f' q'| | |]; [discriminate|..];
    intros [= <-] [(q & [=])|(q & r & [=])]; congruence.
Qed.

(** The flags only grow, and only by the three requirement bits: when the
    header loop is left towards the final check, every flag that was set is
    still set (a later header does not clear it), and every flag that is
    set was set before or is one of the bits 0, 1 and 2. *)
Theorem flags_only_grow (secKey : cstring) (s : list ascii) :
  forall (v : locals) (p : option cstring) (f : N),
    exits_with (read_loop secKey s v p) f ->
    (forall n, N.testbit (flags v) n = true -> N.testbit f n = true) /\
    (forall n, N.testbit f n = true ->
               N.testbit (flags v) n = true \/ (n < 3)%N).
Proof.
  induction s as [|bite s IH]; intros v p f Hexit.
  - destruct Hexit as [(q & [= <- _])|(q & r & [=])]. auto.
  - cbn [read_loop] in Hexit.
    destruct (loop_body secKey bite v p) as [v' p'|exit] eqn:Hbody.
    + apply IH in Hexit as [Hkeep Honly].
      apply loop_body_continue in Hbody as [E|(n & Hn & E)];
        rewrite E in *; [auto|].
      split.
      * intros m Hm. apply Hkeep. rewrite testbit_lor_pow2, Hm.
        reflexivity.
      * intros m Hm. apply Honly in Hm as [Hm|Hm]; [|now right].
        rewrite testbit_lor_pow2 in Hm.
        apply orb_true_iff in Hm as [Hm|Hm]; [now left|].
        apply N.eqb_eq in Hm as <-. now right.
    + rewrite (loop_body_leave secKey bite v p exit s f Hbody Hexit). auto.
Qed.

(** A requirement flag found set when the loop is left was set at the
    start, or the stream holds a line that is a valid header of its
    kind. *)
Lemma read_loop_flag_source (secKey : cstring) (kind : header_kind)
    (m : N) :
  requirement_bit kind = Some m ->
  forall (n : nat) (s : list ascii) (v : locals) (p : option cstring)
         (f : N),
    List.length s <= n ->
    line_start v ->
    exits_with (read_loop secKey s v p) f ->
    N.testbit f m = true ->
    N.testbit (flags v) m = true \/
    exists pre raw post,
      s = pre ++ raw ++ LF :: post /\
      (pre = [] \/ exists pre', pre = pre' ++ [LF]) /\
      buffer_line raw /\
      valid_header secKey (line_text raw) kind.
Proof.
  intros Hkind.
  induction n as [|n IH]; intros s v p f Hn Hv Hexit Hbit.
  - destruct s; [|simpl in Hn; lia].
    destruct Hexit as [(q & [= <- _])|(q & r & [=])]. now left.
  - destruct (first_line_feed s) as [Hlf|(raw & s' & -> & Hlf)].
    + destruct (read_loop_no_line_feed secKey s v p Hv Hlf) as [E|E];
        rewrite E in Hexit;
        destruct Hexit as [(q & [= <- _])|(q & r & [=])]. now left.
    + destruct (Nat.le_gt_cases 128 (List.length raw)) as [Hlen|Hlen].
      { rewrite read_loop_long in Hexit by assumption.
        destruct Hexit as [(q & [=])|(q & r & [=])]. }
      assert (buffer_line raw) as Hraw by (split; assumption).
      rewrite read_loop_line in Hexit by assumption.
      destruct (on_line _ _ _ _) as [f' q'| | |] eqn:Hline.
      * assert (List.length s' <= n) as Hn'
          by (rewrite length_app in Hn; simpl in Hn; lia).
        destruct (IH s' _ _ f Hn' (line_start_next f' (currentLine v + 1))
                    Hexit Hbit)
          as [Hset|(pre & raw' & post & -> & Hpre & Hr & Hk)].
        -- cbn [flags] in Hset.
           apply on_line_next_inv in Hline
             as [->|(kind' & m' & Hkind' & -> & Hvalid)]; [now left|].
           rewrite testbit_lor_pow2 in Hset.
           apply orb_true_iff in Hset as [Hset|Hset]; [now left|].
           apply N.eqb_eq in Hset as ->.
           rewrite (requirement_bit_inj kind kind' m Hkind Hkind').
           right. exists [], raw, s'. repeat split; auto; apply Hraw.
        -- right. exists (raw ++ LF :: pre), raw', post.
           rewrite <- app_assoc. repeat split; try apply Hr; auto.
           right. destruct Hpre as [->|(pre' & ->)].
           ++ exists raw. reflexivity.
           ++ exists (raw ++ LF :: pre'). now rewrite <- app_assoc.
      * destruct Hexit as [(q & [=])|(q & r & [= <- _ _])]. now left.
      * destruct Hexit as [(q & [=])|(q & r & [=])].
      * destruct Hexit as [(q & [=])|(q & r & [=])].
Qed.

(** ** The undefined behaviours of the reader *)

Lemma first_token_none (f : ascii -> bool) (s : cstring) :
  first_token f s = None -> Forall (fun c => f c = true) s.
Proof.
  unfold first_token. induction s as [|c s IH]; [constructor|].
  cbn [skip_while]. destruct (f c) eqn:Hc.
  - intros H. constructor; auto.
  - cbn [take_until]. rewrite Hc. discriminate.
Qed.

Lemma on_line_crash (secKey line : cstring) (currentLine : nat) (flags : N)
    (u : undefined_behaviour) :
  on_line secKey currentLine line flags = Crash u ->
  u = NullPointer /\ currentLine <> 0 /\ null_line line.
Proof.
  intros Hline.
  destruct (Nat.eq_dec currentLine 0) as [->|Hcl].
  { unfold on_line in Hline. cbn [Nat.eqb] in Hline.
    destruct (negb _); discriminate. }
  destruct line as [|c line].
  { unfold on_line in Hline.
    destruct (currentLine =? 0);
      [destruct (negb _); discriminate|discriminate]. }
  assert (c :: line <> []) as Hne by discriminate.
  destruct (strtok_r (c :: line) (lit ":")) as [[name|] rest] eqn:Htok.
  - rewrite (on_line_header secKey _ name rest currentLine flags Hcl Htok)
      in Hline.
    destruct (strcasecmp name (lit "Upgrade") =? 0)%Z.
    { destruct (first_token is_space rest); [|discriminate].
      destruct (negb _); discriminate. }
    destruct (strcasecmp name (lit "Connection") =? 0)%Z.
    { destruct (first_token is_space rest); [|discriminate].
      destruct (negb _); discriminate. }
    destruct (strcasecmp name (lit "Sec-WebSocket-Accept") =? 0)%Z.
    { destruct (first_token is_space rest); [|discriminate].
      destruct (negb _); discriminate. }
    destruct (Z.eqb_spec (strcasecmp name (lit "Sec-WebSocket-Protocol")) 0)
      as [Hname|_]; [|discriminate].
    apply strcasecmp_eq in Hname.
    destruct (first_token is_space rest) eqn:Hvalue; [discriminate|].
    injection Hline as <-. repeat split; auto.
    right. exists name, rest. auto.
  - assert (u = NullPointer) as ->.
    { unfold on_line in Hline.
      destruct (Nat.eqb_spec currentLine 0) as [|_]; [contradiction|].
      cbn [List.length Nat.ltb Nat.leb] in Hline.
      rewrite Htok in Hline. now injection Hline as <-. }
    repeat split; auto. left.
    pose proof (strtok_r_first_token (c :: line) (lit ":")) as Hfirst.
    rewrite Htok in Hfirst. cbn [fst] in Hfirst. symmetry in Hfirst.
    apply first_token_none in Hfirst.
    eapply Forall_impl; [|exact Hfirst].
    intros a Ha. unfold mem_char in Ha. change (lit ":") with [":"%char] in Ha.
    cbn [existsb] in Ha. rewrite orb_false_r in Ha.
    now apply Ascii.eqb_eq in Ha.
Qed.

Lemma read_loop_fault_source (secKey : cstring) :
  forall (n : nat) (s : list ascii) (v : locals) (p : option cstring)
         (u : undefined_behaviour),
    List.length s <= n ->
    line_start v ->
    read_loop secKey s v p = Faulted u ->
    exists pre raw post,
      s = pre ++ raw ++ post /\
      (pre = [] \/ exists pre', pre = pre' ++ [LF]) /\
      ~ In LF raw /\
      ((u = BufferOverflow /\ List.length raw = 128 /\ post <> []) \/
       (u = NullPointer /\ List.length raw < 128 /\
        (currentLine v = 0 -> pre <> []) /\
        (exists post', post = LF :: post') /\
        null_line (line_text raw))).
Proof.
  induction n as [|n IH]; intros s v p u Hn Hv Hfault.
  - destruct s; [discriminate|simpl in Hn; lia].
  - assert (forall t rest,
              s = t ++ rest -> ~ In LF t -> 128 <= List.length t ->
              rest <> [] \/ 128 < List.length t ->
              read_loop secKey s v p = Faulted BufferOverflow /\
              exists raw post,
                s = [] ++ raw ++ post /\ ~ In LF raw /\
                List.length raw = 128 /\ post <> []) as Hover.
    { intros t rest -> Hlf Hlen Hmore.
      assert (exists b post, skipn 128 t ++ rest = b :: post)
        as (b & post & Hpost).
      { destruct (skipn 128 t) as [|b t'] eqn:E; [|simpl; eauto].
        apply (f_equal (@List.length ascii)) in E.
        rewrite length_skipn in E. simpl in E.
        destruct Hmore as [Hrest|Hlong]; [|lia].
        destruct rest as [|b post]; [contradiction|simpl; eauto]. }
      assert (t ++ rest = firstn 128 t ++ b :: post) as Hsplit.
      { rewrite <- Hpost, app_assoc. now rewrite firstn_skipn. }
      assert (~ In LF (firstn 128 t)) as Hlf'
        by (intros H; apply Hlf; eapply in_firstn; eassumption).
      assert (List.length (firstn 128 t) = 128) as Hlen'
        by (rewrite length_firstn; lia).
      split.
      - rewrite Hsplit. now apply read_loop_overflow.
      - exists (firstn 128 t), (b :: post).
        repeat split; auto. discriminate. }
    destruct (first_line_feed s) as [Hlf|(raw & s' & Es & Hlf)].
    + destruct (Nat.le_gt_cases (List.length s) 128) as [Hlen|Hlen].
      { rewrite read_loop_partial in Hfault by assumption. discriminate. }
      destruct (Hover s [] (eq_sym (app_nil_r s)) Hlf) as
        (E & raw & post & Es & Hraw & Hlen' & Hpost); [lia|right; lia|].
      rewrite E in Hfault. injection Hfault as <-.
      exists [], raw, post. repeat split; auto.
    + destruct (Nat.le_gt_cases 128 (List.length raw)) as [Hlen|Hlen].
      { destruct (Hover raw (LF :: s') Es Hlf Hlen) as
          (E & raw' & post & Es' & Hraw & Hlen' & Hpost);
          [left; discriminate|].
        rewrite E in Hfault. injection Hfault as <-.
        exists [], raw', post. repeat split; auto. }
      clear Hover. subst s.
      assert (buffer_line raw) as Hraw by (split; assumption).
      rewrite read_loop_line in Hfault by assumption.
      destruct (on_line _ _ _ _) as [f' q'| | |u'] eqn:Hline;
        try discriminate.
      * assert (List.length s' <= n) as Hn'
          by (rewrite length_app in Hn; simpl in Hn; lia).
        destruct (IH s' _ _ u Hn' (line_start_next f' (currentLine v + 1))
                    Hfault)
          as (pre & raw' & post & -> & Hpre & Hr & Hcase).
        exists (raw ++ LF :: pre), raw', post.
        rewrite <- app_assoc. split; [reflexivity|].
        split.
        { right. destruct Hpre as [->|(pre' & ->)].
          - exists raw. reflexivity.
          - exists (raw ++ LF :: pre'). now rewrite <- app_assoc. }
        split; [assumption|].
        destruct Hcase as [Hcase|(Hu & Hl & _ & Hpost & Hnull)];
          [now left|].
        right. split; [exact Hu|]. split; [exact Hl|].
        split; [intros _ E; now destruct raw|].
        split; [exact Hpost|exact Hnull].
      * injection Hfault as <-.
        apply on_line_crash in Hline as (-> & Hcl & Hnull).
        exists [], raw, (LF :: s'). split; [reflexivity|].
        split; [now left|]. split; [assumption|].
        right. split; [reflexivity|]. split; [exact Hlen|].
        split; [intros E; contradiction|].
        split; [now exists s'|exact Hnull].
Qed.

(** The reader has two undefined behaviours and no other.  It writes behind
    the line buffer when a line, counted from the start of the response or
    from behind a line feed, has 128 bytes before its line feed or before
    another byte; and it follows a null pointer on a line behind the status
    line that is a [Sec-WebSocket-Protocol] header without a value or
    consists of colons only. *)
Theorem reader_faults_only (secKey : cstring) (s : list ascii)
    (p : option cstring) (u : undefined_behaviour) :
  read_loop secKey s locals0 p = Faulted u ->
  exists pre raw post,
    s = pre ++ raw ++ post /\
    (pre = [] \/ exists pre', pre = pre' ++ [LF]) /\
    ~ In LF raw /\
    ((u = BufferOverflow /\ List.length raw = 128 /\ post <> []) \/
     (u = NullPointer /\ List.length raw < 128 /\ pre <> [] /\
      (exists post', post = LF :: post') /\
      null_line (line_text raw))).
Proof.
  intros Hfault.
  destruct (read_loop_fault_source secKey (List.length s) s locals0 p u
              (Nat.le_refl _) line_start_locals0 Hfault)
    as (pre & raw & post & Es & Hpre & Hraw & Hcase).
  exists pre, raw, post. repeat split; auto.
  destruct Hcase as [Hcase|(Hu & Hl & Hne & Hpost & Hnull)]; [now left|].
  right. split; [exact Hu|]. split; [exact Hl|].
  split; [now apply Hne|]. split; [exact Hpost|exact Hnull].
Qed.

(** ** What [open] returns *)

Lemma trigger_error_returns (code : WebSocketError) (c : WebSocketClient) :
  exists c',
    (_TRIGGER_ERROR code ;; ret false) c = Returns false c' /\
    m_readyState c' = CLOSED /\
    connected c' = false /\
    calls c' = calls c ++ (if _onError c then [OnError code] else []) /\
    written c' = written c /\
    millis c' = millis c /\
    _onOpen c' = _onOpen c /\
    _onError c' = _onError c.
Proof.
  unfold _TRIGGER_ERROR, terminate, modify, bind, ret. simpl.
  destruct (_onError c) eqn:E; eexists; (split; [reflexivity|]); simpl;
    repeat split; auto using app_nil_r.
Qed.

Lemma readResponse_returns (secKey : cstring) (c c' : WebSocketClient)
    (b : bool) :
  _readResponse secKey c = Returns b c' ->
  written c' = written c /\
  millis c' = millis c /\
  _onOpen c' = _onOpen c /\
  _onError c' = _onError c /\
  if b then
    m_readyState c' = m_readyState c /\
    connected c' = connected c /\
    calls c' = calls c /\
    exists f,
      exits_with (read_loop secKey (unread c) locals0 (m_protocol c)) f /\
      first_missing f = None
  else
    m_readyState c' = CLOSED /\
    connected c' = false /\
    exists cause,
      calls c' = calls c ++ (if _onError c then [OnError cause] else []).
Proof.
  unfold _readResponse.
  destruct (read_loop _ _ _ _) as [f p|f p rest|code p rest|u] eqn:Hloop;
    [| | |discriminate].
  - rewrite validateHandshake_first_missing.
    destruct (first_missing f) as [code|] eqn:Hmiss.
    + destruct (trigger_error_returns code (set_protocol p (set_unread [] c)))
        as (c2 & -> & H). intros [= <- <-].
      repeat split; try apply H. exists code. apply H.
    + intros [= <- <-]. repeat split. exists f. split; [|assumption].
      left. now exists p.
  - rewrite validateHandshake_first_missing.
    destruct (first_missing f) as [code|] eqn:Hmiss.
    + destruct (trigger_error_returns code
                  (set_protocol p (set_unread rest c)))
        as (c2 & -> & H). intros [= <- <-].
      repeat split; try apply H. exists code. apply H.
    + intros [= <- <-]. repeat split. exists f. split; [|assumption].
      right. now exists p, rest.
  - destruct (trigger_error_returns code
                (set_protocol p (set_unread rest c)))
      as (c2 & -> & H). intros [= <- <-].
    repeat split; try apply H. exists code. apply H.
Qed.

Lemma open_connected_bound (host : cstring) (port : N) (path : cstring)
    (protocols : option cstring) (server : Server) (seed : N)
    (c : WebSocketClient) :
  accepts server = true ->
  let secKey := generateSecKey seed in
  let request := handshake_request host port path secKey protocols in
  exists attempts,
    let c2 := set_millis (millis c + attempts * kDelay)
                (requesting request server c) in
    attempts <= kTimeoutInterval /\
    ((attempts <? kTimeoutInterval) = true <->
     first_byte_seen server (millis c)) /\
    open host port path protocols server seed c =
    if attempts <? kTimeoutInterval then
      (ok <- _readResponse secKey ;;
       if negb ok then ret false
       else
         modify (set_readyState OPEN) ;;
         (fun c => if _onOpen c
                   then Returns tt (set_calls (calls c ++ [OnOpen]) c)
                   else Returns tt c) ;;
         ret true) c2
    else (_TRIGGER_ERROR REQUEST_TIMEOUT ;; ret false) c2.
Proof.
  intros Hacc secKey request.
  destruct (wait_result kTimeoutInterval kDelay
              (requesting request server c))
    as (attempts & Hrun & Hle & Hno & Hyes).
  exists attempts. split; [exact Hle|]. split.
  { exact (wait_result_seen kTimeoutInterval kDelay attempts _ Hno Hyes). }
  unfold open. fold secKey.
  unfold bind, close, connect, terminate, modify, ret.
  rewrite Hacc. cbn [negb]. rewrite sendRequest_written.
  match goal with
  | |- context [_waitForResponse _ _ ?st] =>
      change st with (requesting request server c)
  end.
  rewrite Hrun.
  destruct (attempts <? kTimeoutInterval); reflexivity.
Qed.

Lemma open_outcome (host : cstring) (port : N)
    (path : cstring) (protocols : option cstring) (server : Server)
    (seed : N) (c c' : WebSocketClient) (b : bool) :
  open host port path protocols server seed c = Returns b c' ->
  (b = true /\
   m_readyState c' = OPEN /\
   connected c' = true /\
   calls c' = calls c ++ (if _onOpen c then [OnOpen] else [])) \/
  (b = false /\
   m_readyState c' = CLOSED /\
   connected c' = false /\
   exists cause,
     calls c' = calls c ++ (if _onError c then [OnError cause] else [])).
Proof.
  intros Hopen.
  destruct (accepts server) eqn:Hacc.
  - destruct (open_connected_bound host port path protocols server seed c
                Hacc) as (attempts & _ & _ & E).
    cbv zeta in E. rewrite E in Hopen. clear E.
    set (c2 := set_millis _ _) in Hopen.
    destruct (attempts <? kTimeoutInterval).
    + unfold bind at 1 in Hopen.
      destruct (_readResponse _ c2) as [ok c3|u] eqn:Hread; [|discriminate].
      apply readResponse_returns in Hread
        as (_ & _ & Hlisten & _ & Hread).
      destruct ok; cbn [negb] in Hopen.
      * destruct Hread as (Hstate & Hconn & Hcalls & _).
        unfold bind, modify, ret in Hopen.
        change (_onOpen (set_readyState OPEN c3)) with (_onOpen c3) in Hopen.
        rewrite Hlisten in Hopen. change (_onOpen c2) with (_onOpen c) in *.
        left. destruct (_onOpen c); injection Hopen as <- <-; simpl;
          rewrite Hconn, Hcalls; repeat split; auto using app_nil_r.
      * injection Hopen as <- <-. right. split; [reflexivity|]. exact Hread.
    + destruct (trigger_error_returns REQUEST_TIMEOUT c2)
        as (c3 & E & Hstate & Hconn & Hcalls & _).
      rewrite E in Hopen. injection Hopen as <- <-. right.
      repeat split; auto. now exists REQUEST_TIMEOUT.
  - unfold open, close, connect, terminate, modify, bind at 1 2, ret
      in Hopen. rewrite Hacc in Hopen. cbn [negb] in Hopen.
    match type of Hopen with
    | (_TRIGGER_ERROR _ ;; _) ?st = _ =>
        destruct (trigger_error_returns CONNECTION_REFUSED st)
          as (c3 & E & Hstate & Hconn & Hcalls & _)
    end.
    unfold ret in E. rewrite E in Hopen. injection Hopen as <- <-. right.
    repeat split; auto. now exists CONNECTION_REFUSED.
Qed.

(** What [open] returns agrees with the state it leaves, and one
    notification is dispatched: [true] comes with the ready state OPEN, the
    transport connected and the open notification; [false] with the ready
    state CLOSED, the transport terminated and the error notification for
    one cause.  The state is never left at CONNECTING, and never both
    notifications are dispatched. *)
Theorem open_result_matches_state (host : cstring) (port : N)
    (path : cstring) (protocols : option cstring) (server : Server)
    (seed : N) (c c' : WebSocketClient) (b : bool) :
  open host port path protocols server seed c = Returns b c' ->
  (b = true /\
   m_readyState c' = OPEN /\
   connected c' = true /\
   calls c' = calls c ++ (if _onOpen c then [OnOpen] else [])) \/
  (b = false /\
   m_readyState c' = CLOSED /\
   connected c' = false /\
   exists cause,
     calls c' = calls c ++ (if _onError c then [OnError cause] else [])).
Proof. apply open_outcome. Qed.

Lemma open_frame (host : cstring) (port : N)
    (path : cstring) (protocols : option cstring) (server : Server)
    (seed : N) (c c' : WebSocketClient) (b : bool) :
  open host port path protocols server seed c = Returns b c' ->
  _onOpen c' = _onOpen c /\
  _onError c' = _onError c /\
  if accepts server then
    written c' =
      written c ++
      handshake_request host port path (generateSecKey seed) protocols /\
    exists attempts,
      attempts <= kTimeoutInterval /\
      millis c' = millis c + attempts * kDelay
  else
    written c' = written c /\ millis c' = millis c.
Proof.
  intros Hopen.
  destruct (accepts server) eqn:Hacc.
  - destruct (open_connected_bound host port path protocols server seed c
                Hacc) as (attempts & Hle & _ & E).
    cbv zeta in E. rewrite E in Hopen. clear E.
    set (c2 := set_millis _ _) in Hopen.
    assert (written c' = written c2 /\ millis c' = millis c2 /\
            _onOpen c' = _onOpen c2 /\ _onError c' = _onError c2)
      as (Hw & Hm & Hlo & Hle').
    { destruct (attempts <? kTimeoutInterval).
      - unfold bind at 1 in Hopen.
        destruct (_readResponse _ c2) as [ok c3|u] eqn:Hread;
          [|discriminate].
        apply readResponse_returns in Hread
          as (Hw & Hm & Hlo & Hle' & _).
        rewrite <- Hw, <- Hm, <- Hlo, <- Hle'.
        destruct ok; cbn [negb] in Hopen.
        + unfold bind, modify, ret in Hopen.
          change (_onOpen (set_readyState OPEN c3)) with (_onOpen c3)
            in Hopen.
          destruct (_onOpen c3) eqn:Eo; injection Hopen as <- <-; simpl;
            rewrite ?Eo; repeat split.
        + injection Hopen as <- <-. repeat split.
      - destruct (trigger_error_returns REQUEST_TIMEOUT c2)
          as (c3 & E & _ & _ & _ & Hw & Hm & Hlo & Hle').
        rewrite E in Hopen. injection Hopen as <- <-.
        repeat split; assumption. }
    rewrite Hw, Hm, Hlo, Hle'.
    split; [reflexivity|]. split; [reflexivity|].
    split; [reflexivity|]. now exists attempts.
  - unfold open, close, connect, terminate, modify, bind at 1 2, ret
      in Hopen. rewrite Hacc in Hopen. cbn [negb] in Hopen.
    match type of Hopen with
    | (_TRIGGER_ERROR _ ;; _) ?st = _ =>
        destruct (trigger_error_returns CONNECTION_REFUSED st)
          as (c3 & E & _ & _ & _ & Hw & Hm & Hlo & Hle)
    end.
    unfold ret in E. rewrite E in Hopen. injection Hopen as <- <-.
    repeat split; assumption.
Qed.

(** When [open] returns [true] the header loop has been left towards the
    final check with all three flags. *)
Lemma open_result_source (host : cstring) (port : N) (path : cstring)
    (protocols : option cstring) (server : Server) (seed : N)
    (c c' : WebSocketClient) :
  open host port path protocols server seed c = Returns true c' ->
  accepts server = true /\
  first_byte_seen server (millis c) /\
  exists f,
    exits_with (read_loop (generateSecKey seed) (response server) locals0
                  (m_protocol c)) f /\
    first_missing f = None.
Proof.
  intros Hopen.
  destruct (accepts server) eqn:Hacc.
  - destruct (open_connected_bound host port path protocols server seed c
                Hacc) as (attempts & _ & Hiff & E).
    cbv zeta in E. rewrite E in Hopen. clear E.
    set (c2 := set_millis _ _) in Hopen.
    destruct (attempts <? kTimeoutInterval).
    + split; [reflexivity|]. split; [now apply Hiff|].
      unfold bind at 1 in Hopen.
      destruct (_readResponse _ c2) as [ok c3|u] eqn:Hread; [|discriminate].
      destruct ok; [|discriminate].
      apply readResponse_returns in Hread
        as (_ & _ & _ & _ & _ & _ & _ & H). exact H.
    + destruct (trigger_error_returns REQUEST_TIMEOUT c2) as (c3 & E & _).
      rewrite E in Hopen. discriminate.
  - destruct (open_refused host port path protocols server seed c Hacc)
      as (c3 & E & _).
    rewrite E in Hopen. discriminate.
Qed.

Lemma read_loop_status_source (secKey : cstring) (s : list ascii)
    (p : option cstring) (f : N) (m : N) :
  exits_with (read_loop secKey s locals0 p) f ->
  N.testbit f m = true ->
  exists raw rest,
    s = raw ++ LF :: rest /\
    buffer_line raw /\
    begins_with (lit "HTTP/1.1 101") raw.
Proof.
  intros Hexit Hbit.
  destruct (first_line_feed s) as [Hlf|(raw & s' & -> & Hlf)].
  - destruct (read_loop_no_line_feed secKey s locals0 p
                line_start_locals0 Hlf) as [E|E];
      rewrite E in Hexit;
      destruct Hexit as [(q & [= <- _])|(q & r & [=])].
    now rewrite N.bits_0 in Hbit.
  - destruct (Nat.le_gt_cases 128 (List.length raw)) as [Hlen|Hlen].
    { rewrite read_loop_long in Hexit
        by auto using line_start_locals0.
      destruct Hexit as [(q & [=])|(q & r & [=])]. }
    assert (buffer_line raw) as Hraw by (split; assumption).
    exists raw, s'. repeat split; try apply Hraw.
    rewrite read_loop_line in Hexit by auto using line_start_locals0.
    cbn [currentLine flags locals0] in Hexit.
    unfold on_line in Hexit. cbn [Nat.eqb] in Hexit.
    destruct (Z.eqb_spec (strncmp (line_text raw) (lit "HTTP/1.1 101") 12) 0)
      as [E|_]; cbn [negb] in Hexit.
    + apply (strncmp_eq (line_text raw) (lit "HTTP/1.1 101")) in E.
      apply begins_with_line_text in E; [assumption|repeat constructor].
    + destruct Hexit as [(q & [=])|(q & r & [=])].
Qed.

(** [open] returns [true] only for a response that earns it: the
    connection was accepted, a byte was seen by a poll of the wait, the
    first line of the response begins with [HTTP/1.1 101], and the response
    holds a line that is a valid [Upgrade] header, one that is a valid
    [Connection] header, and one that is a [Sec-WebSocket-Accept] header
    with exactly the accept value of the key that was sent. *)
Theorem open_success_sound (host : cstring) (port : N) (path : cstring)
    (protocols : option cstring) (server : Server) (seed : N)
    (c c' : WebSocketClient) :
  open host port path protocols server seed c = Returns true c' ->
  accepts server = true /\
  first_byte_seen server (millis c) /\
  (exists raw rest,
     response server = raw ++ LF :: rest /\
     buffer_line raw /\
     begins_with (lit "HTTP/1.1 101") raw) /\
  (forall kind m,
     requirement_bit kind = Some m ->
     exists pre raw post,
       response server = pre ++ raw ++ LF :: post /\
       (pre = [] \/ exists pre', pre = pre' ++ [LF]) /\
       buffer_line raw /\
       valid_header (generateSecKey seed) (line_text raw) kind).
Proof.
  intros Hopen.
  destruct (open_result_source host port path protocols server seed c c'
              Hopen) as (Hacc & Hseen & f & Hexit & Hall).
  repeat split; try assumption.
  - apply (read_loop_status_source _ _ _ f 0 Hexit).
    unfold first_missing in Hall.
    destruct (N.testbit f 0); [reflexivity|discriminate].
  - intros kind m Hkind.
    assert (N.testbit f m = true) as Hbit.
    { unfold first_missing in Hall.
      destruct (N.testbit f 0) eqn:H0; [|discriminate].
      destruct (N.testbit f 1) eqn:H1; [|discriminate].
      destruct (N.testbit f 2) eqn:H2; [|discriminate].
      destruct kind; cbn in Hkind; try discriminate;
        injection Hkind as <-; assumption. }
    destruct (read_loop_flag_source (generateSecKey seed) kind m Hkind
                (List.length (response server)) (response server) locals0
                (m_protocol c) f (Nat.le_refl _) line_start_locals0
                Hexit Hbit) as [Hzero|H]; [|exact H].
    cbn [flags locals0] in Hzero. now rewrite N.bits_0 in Hzero.
Qed.

(** ** The reader, line by line *)

Lemma line_start_next_line (v : locals) (flags' : N) :
  line_start (next_line v flags').
Proof. apply line_start_next. Qed.

(** Over lines that the validator lets pass, the loop arrives at the state
    that [read_lines] gives. *)
Lemma read_lines_loop (secKey : cstring) (tail : list ascii) :
  forall (lines : list (list ascii)) (v v' : locals)
         (p q : option cstring),
    line_start v ->
    Forall buffer_line lines ->
    read_lines secKey lines v p = Some (v', q) ->
    read_loop secKey (on_wire lines ++ tail) v p
      = read_loop secKey tail v' q /\
    line_start v' /\
    currentLine v' = (currentLine v + List.length lines) mod 256.
Proof.
  induction lines as [|raw lines IH]; intros v v' p q Hv Hall Hrun.
  - injection Hrun as <- <-. cbn [on_wire flat_map app List.length].
    split; [reflexivity|]. split; [assumption|].
    rewrite Nat.add_0_r, Nat.mod_small; [reflexivity|apply Hv].
  - inversion Hall as [|? ? Hraw Hall']; subst.
    cbn [read_lines] in Hrun.
    destruct (on_line _ _ _ _) as [f' q'| | |] eqn:Hline; try discriminate.
    destruct (IH _ _ _ _ (line_start_next_line v f') Hall' Hrun)
      as (Hloop & Hv' & Hcl).
    unfold on_wire in *. cbn [flat_map]. rewrite <- !app_assoc. cbn [app].
    rewrite read_loop_line by assumption. rewrite Hline.
    split; [exact Hloop|]. split; [assumption|].
    rewrite Hcl. cbn [next_line currentLine List.length].
    rewrite Nat.Div0.add_mod_idemp_l. f_equal. lia.
Qed.

(** Where the loop is left at the end of the stream, all of it has been
    read: lines that the validator let pass, and an unfinished one. *)
Lemma read_loop_end_inv (secKey : cstring) :
  forall (n : nat) (s : list ascii) (v : locals) (p q : option cstring)
         (f : N),
    List.length s <= n ->
    line_start v ->
    read_loop secKey s v p = EndOfStream f q ->
    exists lines partial v',
      s = on_wire lines ++ partial /\
      Forall buffer_line lines /\
      ~ In LF partial /\
      List.length partial <= 128 /\
      read_lines secKey lines v p = Some (v', q) /\
      f = flags v'.
Proof.
  induction n as [|n IH]; intros s v p q f Hn Hv Hexit.
  - destruct s; [|simpl in Hn; lia].
    injection Hexit as <- <-. exists [], [], v.
    repeat split; auto. simpl. lia.
  - destruct (first_line_feed s) as [Hlf|(raw & s' & -> & Hlf)].
    + destruct (Nat.le_gt_cases (List.length s) 128) as [Hlen|Hlen].
      * rewrite read_loop_partial in Hexit by assumption.
        injection Hexit as <- <-. exists [], s, v. repeat split; auto.
      * exfalso.
        rewrite <- (firstn_skipn 128 s) in Hexit.
        destruct (skipn 128 s) as [|b t] eqn:Et.
        -- apply (f_equal (@List.length ascii)) in Et.
           rewrite length_skipn in Et. simpl in Et. lia.
        -- rewrite read_loop_overflow in Hexit;
             [discriminate|assumption| |].
           ++ intros H. apply Hlf. eapply in_firstn; eassumption.
           ++ rewrite length_firstn. lia.
    + destruct (Nat.le_gt_cases 128 (List.length raw)) as [Hlen|Hlen].
      { rewrite read_loop_long in Hexit by assumption. discriminate. }
      assert (buffer_line raw) as Hraw by (split; assumption).
      rewrite read_loop_line in Hexit by assumption.
      destruct (on_line _ _ _ _) as [f' q'| | |] eqn:Hline;
        try discriminate.
      assert (List.length s' <= n) as Hn'
        by (rewrite length_app in Hn; simpl in Hn; lia).
      destruct (IH s' _ _ q f Hn' (line_start_next f' (currentLine v + 1))
                  Hexit)
        as (lines & partial & v' & -> & Hall & Hp & Hlp & Hrun & Hf).
      exists (raw :: lines), partial, v'.
      unfold on_wire. cbn [flat_map]. rewrite <- !app_assoc. cbn [app].
      repeat split; auto.
      cbn [read_lines]. rewrite Hline. exact Hrun.
Qed.

(** Where the loop is left by [break], it has read lines that the validator
    let pass, and a line of zero length behind them. *)
Lemma read_loop_break_inv (secKey : cstring) :
  forall (n : nat) (s : list ascii) (v : locals) (p q : option cstring)
         (f : N) (rest : list ascii),
    List.length s <= n ->
    line_start v ->
    read_loop secKey s v p = BlankLine f q rest ->
    exists lines raw v',
      s = on_wire lines ++ raw ++ LF :: rest /\
      Forall buffer_line lines /\
      buffer_line raw /\
      read_lines secKey lines v p = Some (v', q) /\
      line_text raw = [] /\
      currentLine v' <> 0 /\
      f = flags v'.
Proof.
  induction n as [|n IH]; intros s v p q f rest Hn Hv Hexit.
  - destruct s; [discriminate|simpl in Hn; lia].
  - destruct (first_line_feed s) as [Hlf|(raw & s' & -> & Hlf)].
    + destruct (read_loop_no_line_feed secKey s v p Hv Hlf); congruence.
    + destruct (Nat.le_gt_cases 128 (List.length raw)) as [Hlen|Hlen].
      { rewrite read_loop_long in Hexit by assumption. discriminate. }
      assert (buffer_line raw) as Hraw by (split; assumption).
      rewrite read_loop_line in Hexit by assumption.
      destruct (on_line _ _ _ _) as [f' q'| | |] eqn:Hline;
        try discriminate.
      * assert (List.length s' <= n) as Hn'
          by (rewrite length_app in Hn; simpl in Hn; lia).
        destruct (IH s' _ _ q f rest Hn'
                    (line_start_next f' (currentLine v + 1)) Hexit)
          as (lines & raw' & v' & -> & Hall & Hr & Hrun & Ht & Hcl & Hf).
        exists (raw :: lines), raw', v'.
        unfold on_wire. cbn [flat_map]. rewrite <- !app_assoc. cbn [app].
        repeat split; auto; try apply Hr.
        cbn [read_lines]. rewrite Hline. exact Hrun.
      * injection Hexit as <- <- <-.
        apply on_line_break in Hline as [Hcl Ht].
        exists [], raw, v. repeat split; auto; apply Hraw.
Qed.

(** Where the loop is left by a failure, it has read lines that the
    validator let pass, and a line that it rejects behind them. *)
Lemma read_loop_failure_inv (secKey : cstring) :
  forall (n : nat) (s : list ascii) (v : locals) (p q : option cstring)
         (code : WebSocketError) (rest : list ascii),
    List.length s <= n ->
    line_start v ->
    read_loop secKey s v p = Failure code q rest ->
    exists lines raw v',
      s = on_wire lines ++ raw ++ LF :: rest /\
      Forall buffer_line lines /\
      buffer_line raw /\
      read_lines secKey lines v p = Some (v', q) /\
      on_line secKey (currentLine v') (line_text raw) (flags v')
        = Fail code.
Proof.
  induction n as [|n IH]; intros s v p q code rest Hn Hv Hexit.
  - destruct s; [discriminate|simpl in Hn; lia].
  - destruct (first_line_feed s) as [Hlf|(raw & s' & -> & Hlf)].
    + destruct (read_loop_no_line_feed secKey s v p Hv Hlf); congruence.
    + destruct (Nat.le_gt_cases 128 (List.length raw)) as [Hlen|Hlen].
      { rewrite read_loop_long in Hexit by assumption. discriminate. }
      assert (buffer_line raw) as Hraw by (split; assumption).
      rewrite read_loop_line in Hexit by assumption.
      destruct (on_line _ _ _ _) as [f' q'| |code'|] eqn:Hline;
        try discriminate.
      * assert (List.length s' <= n) as Hn'
          by (rewrite length_app in Hn; simpl in Hn; lia).
        destruct (IH s' _ _ q code rest Hn'
                    (line_start_next f' (currentLine v + 1)) Hexit)
          as (lines & raw' & v' & -> & Hall & Hr & Hrun & Hfail).
        exists (raw :: lines), raw', v'.
        unfold on_wire. cbn [flat_map]. rewrite <- !app_assoc. cbn [app].
        repeat split; auto; try apply Hr.
        cbn [read_lines]. rewrite Hline. exact Hrun.
      * injection Hexit as <- <- <-.
        exists [], raw, v. repeat split; auto; apply Hraw.
Qed.

(** A line that the validator rejects makes [open] fail with its cause. *)
Lemma open_line_rejected (host : cstring) (port : N) (path : cstring)
    (protocols : option cstring) (server : Server) (seed : N)
    (c : WebSocketClient) (code : WebSocketError) (p : option cstring)
    (rest : list ascii) :
  accepts server = true ->
  first_byte_seen server (millis c) ->
  read_loop (generateSecKey seed) (response server) locals0 (m_protocol c)
    = Failure code p rest ->
  fails_with code c (open host port path protocols server seed c).
Proof.
  intros Hacc Hseen Hloop.
  destruct (open_connected_bound host port path protocols server seed c
              Hacc) as (attempts & _ & Hiff & ->); cbv zeta in *.
  apply Hiff in Hseen. rewrite Hseen.
  eapply fails_with_state;
    [| |apply fails_with_bind; eapply readResponse_failure; exact Hloop];
    reflexivity.
Qed.

(** The status check, which the validator makes when the line counter
    is 0. *)
Lemma on_line_not_status (secKey : cstring) (raw : list ascii) (flags : N) :
  ~ begins_with (lit "HTTP/1.1 101") raw ->
  on_line secKey 0 (line_text raw) flags = Fail BAD_REQUEST.
Proof.
  intros Hbad. unfold on_line. cbn [Nat.eqb].
  destruct (Z.eqb_spec (strncmp (line_text raw) (lit "HTTP/1.1 101") 12) 0)
    as [E|]; [|reflexivity].
  apply (strncmp_eq (line_text raw) (lit "HTTP/1.1 101")) in E.
  apply begins_with_line_text in E; [contradiction|].
  repeat constructor.
Qed.

(** The line [raw] that follows the lines [lines] of the response meets
    the validator in the state that [read_lines] gives. *)
Lemma response_line (secKey : cstring) (lines : list (list ascii))
    (raw post : list ascii) (v : locals) (p q : option cstring) :
  Forall buffer_line lines ->
  buffer_line raw ->
  read_lines secKey lines locals0 p = Some (v, q) ->
  currentLine v = List.length lines mod 256 /\
  read_loop secKey (on_wire lines ++ raw ++ LF :: post) locals0 p =
  match on_line secKey (currentLine v) (line_text raw) (flags v) with
  | Next flags' q' => read_loop secKey post (next_line v flags') (assign q' q)
  | Break => BlankLine (flags v) q post
  | Fail code => Failure code q post
  | Crash u => Faulted u
  end.
Proof.
  intros Hall Hraw Hrun.
  destruct (read_lines_loop secKey (raw ++ LF :: post) lines locals0 v p q
              line_start_locals0 Hall Hrun) as (Hloop & Hv & Hcl).
  split; [exact Hcl|].
  rewrite Hloop. now apply read_loop_line.
Qed.

Lemma name_of_status_line (line name rest : cstring) :
  strtok_r line (lit ":") = (Some name, rest) ->
  begins_with (lit "HTTP/1.1 101") line ->
  exists t, name = "H"%char :: t.
Proof.
  intros Htok Hb. unfold begins_with in Hb.
  destruct line as [|c line]; [discriminate|].
  cbn [lit list_ascii_of_string List.length firstn] in Hb.
  injection Hb as -> _.
  unfold strtok_r in Htok. change (lit ":") with [":"%char] in Htok.
  cbn [strspn mem_char existsb Ascii.eqb Bool.eqb orb skipn] in Htok.
  cbn [strcspn mem_char existsb Ascii.eqb Bool.eqb orb negb firstn] in Htok.
  injection Htok as <- _. eauto.
Qed.

Lemma header_name_not_status (raw : list ascii) (name rest expected : cstring) :
  strtok_r (line_text raw) (lit ":") = (Some name, rest) ->
  caseless_eq name expected ->
  hd " "%char (map tolower expected) <> "h"%char ->
  ~ begins_with (lit "HTTP/1.1 101") raw.
Proof.
  intros Htok Hname Hhd Hb.
  apply line_text_begins_with in Hb; [|repeat constructor].
  destruct (name_of_status_line _ _ _ Htok Hb) as (t & ->).
  unfold caseless_eq in Hname. rewrite <- Hname in Hhd.
  now apply Hhd.
Qed.

(** How a checked header line decides the handshake: when its first
    space-delimited token passes the test of its branch, the loop goes on
    behind the line with the flag of the branch added; otherwise [open]
    fails with the cause of the branch. *)
Lemma checked_header_decides (host : cstring) (port : N) (path : cstring)
    (protocols : option cstring) (server : Server) (seed : N)
    (c : WebSocketClient) (lines : list (list ascii))
    (raw post : list ascii) (v : locals) (q : option cstring)
    (rest : cstring) (matches : cstring -> Prop) (test : cstring -> bool)
    (flag : N) (cause : WebSocketError) :
  accepts server = true ->
  first_byte_seen server (millis c) ->
  response server = on_wire lines ++ raw ++ LF :: post ->
  Forall buffer_line lines ->
  buffer_line raw ->
  read_lines (generateSecKey seed) lines locals0 (m_protocol c)
    = Some (v, q) ->
  (forall value, test value = true <-> matches value) ->
  on_line (generateSecKey seed) (currentLine v) (line_text raw) (flags v) =
    match first_token is_space rest with
    | None => Fail cause
    | Some value =>
        if negb (test value) then Fail cause
        else Next (N.lor (flags v) flag) None
    end ->
  token_decides is_space matches rest
    (read_loop (generateSecKey seed) (response server) locals0
       (m_protocol c)
     = read_loop (generateSecKey seed) post
         (next_line v (N.lor (flags v) flag)) q)
    (fails_with cause c (open host port path protocols server seed c)).
Proof.
  intros Hacc Hseen Hwire Hall Hraw Hrun Htest Hline.
  destruct (response_line (generateSecKey seed) lines raw post v
              (m_protocol c) q Hall Hraw Hrun) as [_ Hloop].
  rewrite <- Hwire, Hline in Hloop.
  assert (forall value,
            first_token is_space rest = Some value -> ~ matches value ->
            fails_with cause c
              (open host port path protocols server seed c)) as Hmiss.
  { intros value Hv Hno. rewrite Hv in Hloop.
    destruct (test value) eqn:Ht; [elim Hno; now apply Htest|].
    cbn [negb] in Hloop.
    now apply (open_line_rejected host port path protocols server seed c
                 cause q post). }
  split; [|split; [exact Hmiss|]].
  - intros value Hv Hyes. rewrite Hv in Hloop.
    apply Htest in Hyes. rewrite Hyes in Hloop. exact Hloop.
  - intros Hv. rewrite Hv in Hloop.
    now apply (open_line_rejected host port path protocols server seed c
                 cause q post).
Qed.

(** ** The claims about the lines of the response *)

(** C3, as amended.  When the first line of the response is complete (its
    line feed has arrived) within the 128-byte line buffer and does not
    begin with the twelve characters [HTTP/1.1 101] (an empty first line
    included), the validator rejects it whatever the flags, the loop is left
    with everything behind the first line unread -- no header line has been
    examined and no flag set -- and the handshake fails with BAD_REQUEST:
    [_readResponse] and [open] return [false] with the transport terminated,
    the state CLOSED and the error notification dispatched once. *)
Theorem status_line_rejected (secKey : cstring) (raw rest : list ascii)
    (c : WebSocketClient) :
  unread c = raw ++ LF :: rest ->
  buffer_line raw ->
  ~ begins_with (lit "HTTP/1.1 101") raw ->
  (forall flags, on_line secKey 0 (line_text raw) flags = Fail BAD_REQUEST) /\
  read_loop secKey (unread c) locals0 (m_protocol c)
    = Failure BAD_REQUEST (m_protocol c) rest /\
  (exists c',
     _readResponse secKey c = Returns false c' /\
     connected c' = false /\
     m_readyState c' = CLOSED /\
     calls c' = calls c ++ (if _onError c then [OnError BAD_REQUEST] else [])
     /\
     unread c' = rest /\
     m_protocol c' = m_protocol c) /\
  (forall host port path protocols server seed c0,
     accepts server = true ->
     first_byte_seen server (millis c0) ->
     response server = raw ++ LF :: rest ->
     fails_with BAD_REQUEST c0
       (open host port path protocols server seed c0)).
Proof.
  intros Hs Hraw Hbad.
  assert (forall key p,
            read_loop key (raw ++ LF :: rest) locals0 p
            = Failure BAD_REQUEST p rest) as Hloop.
  { intros key p. rewrite read_loop_line by auto using line_start_locals0.
    cbn [currentLine flags locals0]. now rewrite on_line_not_status. }
  split; [intros flags; now apply on_line_not_status|].
  split; [rewrite Hs; apply Hloop|].
  split.
  - unfold _readResponse. rewrite Hs, Hloop.
    unfold _TRIGGER_ERROR, terminate, modify, bind, ret. simpl.
    destruct (_onError c); eexists; (split; [reflexivity|]); simpl;
      repeat split; auto using app_nil_r.
  - intros host port path protocols server seed c0 Hacc Hseen Hwire.
    apply (open_line_rejected host port path protocols server seed c0
             BAD_REQUEST (m_protocol c0) rest Hacc Hseen).
    rewrite Hwire. apply Hloop.
Qed.

(** C5, as amended.  Take a header line that the reader examines: the lines
    before it fit the line buffer and the validator has let the loop go on
    at each of them, the line fits the buffer, and its index is no multiple
    of 256.  When its name equals [Upgrade] (respectively [Connection]) up
    to case, the first token of the remainder delimited by the space
    character (the only delimiter: a tab is part of the token) has to equal
    [websocket] (respectively [Upgrade]) up to case.  When it does, the
    UpgradeValid (respectively ConnectionValid) flag is added to the flags
    and the loop goes on behind the line; when it differs or is missing,
    [open] fails with UPGRADE_REQUIRED. *)
Theorem upgrade_connection_checked (host : cstring) (port : N)
    (path : cstring) (protocols : option cstring) (server : Server)
    (seed : N) (c : WebSocketClient) (lines : list (list ascii))
    (raw post : list ascii) (v : locals) (q : option cstring)
    (name rest : cstring) :
  accepts server = true ->
  first_byte_seen server (millis c) ->
  response server = on_wire lines ++ raw ++ LF :: post ->
  Forall buffer_line lines ->
  buffer_line raw ->
  read_lines (generateSecKey seed) lines locals0 (m_protocol c)
    = Some (v, q) ->
  List.length lines mod 256 <> 0 ->
  strtok_r (line_text raw) (lit ":") = (Some name, rest) ->
  (caseless_eq name (lit "Upgrade") ->
   token_decides is_space (fun value => caseless_eq value (lit "websocket"))
     rest
     (read_loop (generateSecKey seed) (response server) locals0
        (m_protocol c)
      = read_loop (generateSecKey seed) post
          (next_line v (N.lor (flags v) kValidUpgradeHeader)) q)
     (fails_with UPGRADE_REQUIRED c
        (open host port path protocols server seed c)) /\
   N.testbit (N.lor (flags v) kValidUpgradeHeader) 0 = true) /\
  (caseless_eq name (lit "Connection") ->
   token_decides is_space (fun value => caseless_eq value (lit "Upgrade"))
     rest
     (read_loop (generateSecKey seed) (response server) locals0
        (m_protocol c)
      = read_loop (generateSecKey seed) post
          (next_line v (N.lor (flags v) kValidConnectionHeader)) q)
     (fails_with UPGRADE_REQUIRED c
        (open host port path protocols server seed c)) /\
   N.testbit (N.lor (flags v) kValidConnectionHeader) 1 = true).
Proof.
  intros Hacc Hseen Hwire Hall Hraw Hrun Hindex Htok.
  destruct (response_line (generateSecKey seed) lines raw post v
              (m_protocol c) q Hall Hraw Hrun) as [Hcl _].
  rewrite <- Hcl in Hindex.
  pose proof (on_line_header (generateSecKey seed) (line_text raw) name rest
                (currentLine v) (flags v) Hindex Htok) as Hline.
  split; intros Hname;
    (split; [|rewrite N.lor_spec; apply orb_true_r]).
  - apply (checked_header_decides host port path protocols server seed c
             lines raw post v q rest _
             (fun value => (strcasecmp value (lit "websocket") =? 0)%Z)
             kValidUpgradeHeader UPGRADE_REQUIRED);
      try assumption.
    + intros value. rewrite Z.eqb_eq. apply strcasecmp_eq.
    + rewrite Hline. known_header Hname. reflexivity.
  - apply (checked_header_decides host port path protocols server seed c
             lines raw post v q rest _
             (fun value => (strcasecmp value (lit "Upgrade") =? 0)%Z)
             kValidConnectionHeader UPGRADE_REQUIRED);
      try assumption.
    + intros value. rewrite Z.eqb_eq. apply strcasecmp_eq.
    + rewrite Hline. known_header Hname. reflexivity.
Qed.

(** C4 (the code departs from the claim at the line indices that are
    multiples of 256).  Take a header line whose name equals
    [Sec-WebSocket-Accept] up to case and that the reader examines: the
    lines before it fit the line buffer and the validator has let the loop
    go on at each of them, and the line fits the buffer.  At a line index
    that is no multiple of 256, the first space-delimited token of its value
    has to be equal, character for character, to the accept value that
    [encodeSecKey] computes from the key that [open] has generated: on a
    match the SecKeyValid flag is added to the flags and the loop goes on
    behind the line; when the token differs or is missing, [open] fails with
    BAD_REQUEST.  At a line index that is a multiple of 256 the 8-bit line
    counter is 0 and the line is checked as a status line: [open] fails with
    BAD_REQUEST whatever the token.  The key is the one of the request:
    what [open] has written holds the line [Sec-WebSocket-Key] with it. *)
Theorem sec_accept_checked (host : cstring) (port : N) (path : cstring)
    (protocols : option cstring) (server : Server) (seed : N)
    (c : WebSocketClient) (lines : list (list ascii))
    (raw post : list ascii) (v : locals) (q : option cstring)
    (name rest : cstring) :
  accepts server = true ->
  first_byte_seen server (millis c) ->
  response server = on_wire lines ++ raw ++ LF :: post ->
  Forall buffer_line lines ->
  buffer_line raw ->
  read_lines (generateSecKey seed) lines locals0 (m_protocol c)
    = Some (v, q) ->
  strtok_r (line_text raw) (lit ":") = (Some name, rest) ->
  caseless_eq name (lit "Sec-WebSocket-Accept") ->
  (List.length lines mod 256 <> 0 ->
   token_decides is_space
     (fun value => value = encodeSecKey (generateSecKey seed)) rest
     (read_loop (generateSecKey seed) (response server) locals0
        (m_protocol c)
      = read_loop (generateSecKey seed) post
          (next_line v (N.lor (flags v) kValidSecKey)) q)
     (fails_with BAD_REQUEST c
        (open host port path protocols server seed c)) /\
   N.testbit (N.lor (flags v) kValidSecKey) 2 = true) /\
  (List.length lines mod 256 = 0 ->
   fails_with BAD_REQUEST c (open host port path protocols server seed c)) /\
  (forall b c',
     open host port path protocols server seed c = Returns b c' ->
     exists before behind,
       written c' =
         before ++
         snprintf 128 (lit "Sec-WebSocket-Key: " ++ generateSecKey seed) ++
         [CR; LF] ++ behind).
Proof.
  intros Hacc Hseen Hwire Hall Hraw Hrun Htok Hname.
  destruct (response_line (generateSecKey seed) lines raw post v
              (m_protocol c) q Hall Hraw Hrun) as [Hcl Hloop].
  split; [|split].
  - intros Hindex. rewrite <- Hcl in Hindex.
    split; [|rewrite N.lor_spec; apply orb_true_r].
    apply (checked_header_decides host port path protocols server seed c
             lines raw post v q rest _
             (fun value =>
                (strcmp value (encodeSecKey (generateSecKey seed)) =? 0)%Z)
             kValidSecKey BAD_REQUEST);
      try assumption.
    + intros value. rewrite Z.eqb_eq. apply strcmp_eq.
    + rewrite (on_line_header (generateSecKey seed) (line_text raw) name
                 rest (currentLine v) (flags v) Hindex Htok).
      known_header Hname. reflexivity.
  - intros Hindex. rewrite <- Hcl in Hindex.
    rewrite <- Hwire, Hindex in Hloop.
    rewrite on_line_not_status in Hloop.
    + now apply (open_line_rejected host port path protocols server seed c
                   BAD_REQUEST q post).
    + apply (header_name_not_status raw name rest
               (lit "Sec-WebSocket-Accept") Htok Hname).
      discriminate.
  - intros b c' Hopen.
    destruct (open_frame host port path protocols server seed c c' b Hopen)
      as (_ & _ & Hwritten).
    rewrite Hacc in Hwritten. destruct Hwritten as [-> _].
    unfold handshake_request.
    exists (written c ++
            snprintf 128 (lit "GET " ++ path ++ lit " HTTP/1.1") ++
            [CR; LF] ++
            snprintf 128 (lit "Host: " ++ host ++ lit ":" ++ utoa port) ++
            [CR; LF] ++
            lit "Upgrade: websocket" ++ [CR; LF] ++
            lit "Connection: Upgrade" ++ [CR; LF]).
    eexists. repeat rewrite <- app_assoc. reflexivity.
Qed.

(** C7 (the code departs from the claim at the line indices that are
    multiples of 256).  The header loop, started at the beginning of a line
    with lines that fit the line buffer, is left towards the final check in
    exactly two ways.  At the end of the stream, exactly when all of it has
    been read without the validator leaving the loop: lines at which the
    loop went on and an unfinished last line, which is dropped; the flags
    are the ones accumulated over these lines.  And by [break], exactly at
    a line of zero length (cut at the first carriage return), behind lines
    at which the loop went on, whose index is no multiple of 256: the bytes
    behind that line's line feed are left unread.  At a zero-length line
    whose index is a multiple of 256 the 8-bit line counter is 0, the line is
    checked as a status line and the loop is left by the failure
    BAD_REQUEST.  The one other way in which the loop returns is that
    failure: exactly at a line that the validator rejects, behind lines at
    which the loop went on.  After both exits towards the final check
    [_readResponse] hands the flags to [_validateHandshake]. *)
Theorem header_loop_exits (secKey : cstring) :
  (forall s v p f q,
     line_start v ->
     (read_loop secKey s v p = EndOfStream f q <->
      exists lines partial v',
        s = on_wire lines ++ partial /\
        Forall buffer_line lines /\
        ~ In LF partial /\
        List.length partial <= 128 /\
        read_lines secKey lines v p = Some (v', q) /\
        f = flags v')) /\
  (forall s v p f q rest,
     line_start v ->
     (read_loop secKey s v p = BlankLine f q rest <->
      exists lines raw v',
        s = on_wire lines ++ raw ++ LF :: rest /\
        Forall buffer_line lines /\
        buffer_line raw /\
        read_lines secKey lines v p = Some (v', q) /\
        line_text raw = [] /\
        (currentLine v + List.length lines) mod 256 <> 0 /\
        f = flags v')) /\
  (forall lines raw rest v v' p q,
     line_start v ->
     Forall buffer_line lines ->
     buffer_line raw ->
     read_lines secKey lines v p = Some (v', q) ->
     line_text raw = [] ->
     (currentLine v + List.length lines) mod 256 = 0 ->
     read_loop secKey (on_wire lines ++ raw ++ LF :: rest) v p
       = Failure BAD_REQUEST q rest) /\
  (forall s v p code q rest,
     line_start v ->
     (read_loop secKey s v p = Failure code q rest <->
      exists lines raw v',
        s = on_wire lines ++ raw ++ LF :: rest /\
        Forall buffer_line lines /\
        buffer_line raw /\
        read_lines secKey lines v p = Some (v', q) /\
        on_line secKey (currentLine v') (line_text raw) (flags v')
          = Fail code)) /\
  (forall c f q,
     read_loop secKey (unread c) locals0 (m_protocol c) = EndOfStream f q ->
     _readResponse secKey c
       = _validateHandshake f (set_protocol q (set_unread [] c))) /\
  (forall c f q rest,
     read_loop secKey (unread c) locals0 (m_protocol c)
       = BlankLine f q rest ->
     _readResponse secKey c
       = _validateHandshake f (set_protocol q (set_unread rest c)) /\
     unread (set_protocol q (set_unread rest c)) = rest).
Proof.
  split.
  { intros s v p f q Hv. split.
    - intros Hexit.
      exact (read_loop_end_inv secKey (List.length s) s v p q f
               (Nat.le_refl _) Hv Hexit).
    - intros (lines & partial & v' & -> & Hall & Hlf & Hlen & Hrun & ->).
      destruct (read_lines_loop secKey partial lines v v' p q Hv Hall Hrun)
        as (-> & Hv' & _).
      now apply read_loop_partial. }
  split.
  { intros s v p f q rest Hv. split.
    - intros Hexit.
      destruct (read_loop_break_inv secKey (List.length s) s v p q f rest
                  (Nat.le_refl _) Hv Hexit)
        as (lines & raw & v' & -> & Hall & Hraw & Hrun & Ht & Hcl & ->).
      exists lines, raw, v'. repeat split; auto; try apply Hraw.
      destruct (read_lines_loop secKey [] lines v v' p q Hv Hall Hrun)
        as (_ & _ & E).
      now rewrite <- E.
    - intros (lines & raw & v' & -> & Hall & Hraw & Hrun & Ht & Hcl & ->).
      destruct (read_lines_loop secKey (raw ++ LF :: rest) lines v v' p q
                  Hv Hall Hrun) as (-> & Hv' & E).
      rewrite read_loop_line by assumption.
      rewrite (proj2 (on_line_break secKey (line_text raw) (currentLine v')
                        (flags v'))); [reflexivity|].
      split; [now rewrite E|assumption]. }
  split.
  { intros lines raw rest v v' p q Hv Hall Hraw Hrun Ht Hcl.
    destruct (read_lines_loop secKey (raw ++ LF :: rest) lines v v' p q
                Hv Hall Hrun) as (-> & Hv' & E).
    rewrite read_loop_line by assumption.
    rewrite E, Hcl, on_line_not_status; [reflexivity|].
    intros Hb. apply line_text_begins_with in Hb; [|repeat constructor].
    rewrite Ht in Hb. discriminate. }
  split.
  { intros s v p code q rest Hv. split.
    - intros Hexit.
      exact (read_loop_failure_inv secKey (List.length s) s v p q code rest
               (Nat.le_refl _) Hv Hexit).
    - intros (lines & raw & v' & -> & Hall & Hraw & Hrun & Hfail).
      destruct (read_lines_loop secKey (raw ++ LF :: rest) lines v v' p q
                  Hv Hall Hrun) as (-> & Hv' & _).
      rewrite read_loop_line by assumption. now rewrite Hfail. }
  split.
  - intros c f q E. unfold _readResponse. now rewrite E.
  - intros c f q rest E. unfold _readResponse. now rewrite E.
Qed.

(** ** The 8-bit line counter *)

Lemma read_headers_then (secKey : cstring) (tail : list ascii) :
  forall (headers : list (list ascii)) (v : locals) (p : option cstring),
    line_start v ->
    currentLine v <> 0 ->
    currentLine v + List.length headers <= 256 ->
    Forall (fun raw => buffer_line raw /\
                       exists kind, valid_header secKey (line_text raw) kind)
      headers ->
    exists f q,
      read_loop secKey (flat_map (fun raw => raw ++ [LF]) headers ++ tail)
        v p =
      read_loop secKey tail
        (at_line ((currentLine v + List.length headers) mod 256) f) q.
Proof.
  induction headers as [|raw headers IH]; intros v p Hv Hcl Hlen Hall.
  - exists (flags v), p. cbn [flat_map app List.length].
    destruct Hv as (Hcnt & Hbuf & Hlt).
    rewrite Nat.add_0_r, Nat.mod_small by assumption.
    destruct v as [f n k b]. cbn in Hcnt, Hbuf. subst k b. reflexivity.
  - inversion Hall as [|? ? [Hraw (kind & Hkind)] Hall']; subst.
    cbn [flat_map List.length] in *. rewrite <- !app_assoc. cbn [app].
    rewrite read_loop_line by assumption.
    destruct (on_line_valid secKey _ _ _ (flags v) Hcl Hkind)
      as (f' & q' & Hline & _).
    rewrite Hline.
    destruct headers as [|raw' headers].
    { exists f', (assign q' p). reflexivity. }
    assert ((currentLine v + 1) mod 256 = currentLine v + 1) as Hnext
      by (apply Nat.mod_small; cbn [List.length] in Hlen; lia).
    destruct (IH {| flags := f'; currentLine := (currentLine v + 1) mod 256;
                    counter := 0; buffer := repeat NUL 128 |}
                (assign q' p))
      as (f & q & E);
      [apply line_start_next
      |cbn [currentLine]; lia
      |cbn [currentLine]; lia
      |assumption|].
    cbn [currentLine] in E. rewrite Hnext in E.
    exists f, q.
    replace (currentLine v + S (List.length (raw' :: headers)))
      with (currentLine v + 1 + List.length (raw' :: headers)) by lia.
    rewrite Hnext. exact E.
Qed.

(** The line counter is a byte, so the line behind 255 header lines is
    line 0 again and is checked like a status line: a response with a
    correct status line and 255 valid header lines fails with BAD_REQUEST at
    the line that follows them, its blank line included, unless that line
    begins with [HTTP/1.1 101]. *)
Theorem line_counter_wraps (host : cstring) (port : N) (path : cstring)
    (protocols : option cstring) (server : Server) (seed : N)
    (c : WebSocketClient) (status : list ascii)
    (headers : list (list ascii)) (raw rest : list ascii) :
  accepts server = true ->
  first_byte_seen server (millis c) ->
  buffer_line status ->
  begins_with (lit "HTTP/1.1 101") status ->
  Forall (fun raw =>
            buffer_line raw /\
            exists kind,
              valid_header (generateSecKey seed) (line_text raw) kind)
    headers ->
  List.length headers = 255 ->
  buffer_line raw ->
  ~ begins_with (lit "HTTP/1.1 101") raw ->
  response server =
    status ++ LF :: flat_map (fun raw => raw ++ [LF]) headers ++
    raw ++ LF :: rest ->
  fails_with BAD_REQUEST c (open host port path protocols server seed c).
Proof.
  intros Hacc Hseen Hstatus H101 Hall Hlen Hraw Hbad Hwire.
  destruct (open_connected_bound host port path protocols server seed c
              Hacc) as (attempts & _ & Hiff & ->); cbv zeta in *.
  apply Hiff in Hseen. rewrite Hseen.
  set (c2 := set_millis _ _).
  destruct (read_headers_then (generateSecKey seed) (raw ++ LF :: rest)
              headers (at_line 1 0) (m_protocol c))
    as (f & q & Hloop);
    [apply (line_start_next 0 1)
    |discriminate
    |cbn [currentLine at_line]; lia
    |assumption|].
  cbn [currentLine at_line] in Hloop. rewrite Hlen in Hloop.
  change ((1 + 255) mod 256) with 0 in Hloop.
  assert (read_loop (generateSecKey seed) (unread c2) locals0 (m_protocol c2)
          = Failure BAD_REQUEST q rest) as Hread.
  { change (unread c2) with (response server).
    change (m_protocol c2) with (m_protocol c).
    rewrite Hwire.
    rewrite read_loop_line by auto using line_start_locals0.
    cbn [currentLine flags locals0].
    rewrite on_line_status by assumption.
    change (read_loop (generateSecKey seed)
              (flat_map (fun raw => raw ++ [LF]) headers ++ raw ++ LF :: rest)
              (at_line 1 0) (assign None (m_protocol c))
            = Failure BAD_REQUEST q rest).
    cbn [assign]. rewrite Hloop.
    rewrite read_loop_line by (assumption || apply (line_start_next f 0)).
    cbn [currentLine flags at_line].
    unfold on_line. cbn [Nat.eqb].
    destruct (Z.eqb_spec (strncmp (line_text raw) (lit "HTTP/1.1 101") 12) 0)
      as [E|]; [|reflexivity].
    apply (strncmp_eq (line_text raw) (lit "HTTP/1.1 101")) in E.
    apply begins_with_line_text in E; [contradiction|].
    repeat constructor. }
  eapply fails_with_state;
    [| |apply fails_with_bind; eapply readResponse_failure; exact Hread];
    reflexivity.
Qed.

(** ** The listeners, [listen] and the sketch's [loop] *)

(** The listeners that [onOpen] and [onError] register are the ones that the
    next [open] notifies, whatever was registered before: the open listener
    when it returns [true], the error listener when it returns [false], and
    an empty callback silences the notification.  [open] keeps them
    registered. *)
Theorem registered_listeners_used (host : cstring) (port : N)
    (path : cstring) (protocols : option cstring) (server : Server)
    (seed : N) (c c' : WebSocketClient) (b : bool)
    (open_listener error_listener : bool) :
  (onOpen open_listener ;; onError error_listener ;;
   open host port path protocols server seed) c = Returns b c' ->
  _onOpen c' = open_listener /\
  _onError c' = error_listener /\
  ((b = true /\
    calls c' = calls c ++ (if open_listener then [OnOpen] else [])) \/
   (b = false /\
    exists cause,
      calls c' =
        calls c ++ (if error_listener then [OnError cause] else []))).
Proof.
  intros Hopen.
  change (open host port path protocols server seed
            (set_listeners open_listener error_listener c) = Returns b c')
    in Hopen.
  destruct (open_frame host port path protocols server seed _ c' b Hopen)
    as (Hlo & Hle & _).
  split; [exact Hlo|]. split; [exact Hle|].
  destruct (open_outcome host port path protocols server seed _ c' b Hopen)
    as [(Hb & _ & _ & Hcalls)|(Hb & _ & _ & cause & Hcalls)].
  - left. split; [exact Hb|exact Hcalls].
  - right. split; [exact Hb|]. exists cause. exact Hcalls.
Qed.

Lemma listen_closed (l : Listening) :
  connected (session l) = false ->
  is_OPEN (m_readyState (session l)) = false ->
  forall n, loop n l = inl l.
Proof.
  intros Hconn Hstate. induction n as [|n IH]; [reflexivity|].
  cbn [loop]. unfold listen. rewrite Hconn, Hstate. exact IH.
Qed.

(** When the transport is gone, [listen] reports the abnormal closure
    once: an OPEN session is terminated and its close listener, if there is
    one, is called with ABNORMAL_CLOSURE; a session that is not OPEN is left
    alone.  However often the sketch's [loop] runs after that, nothing more
    happens.  The open and error listeners are never called. *)
Theorem listen_reports_closure_once (l : Listening) :
  connected (session l) = false ->
  exists l',
    listen l = inl l' /\
    closures l' =
      closures l ++
      (if is_OPEN (m_readyState (session l)) && _onClose l
       then [ABNORMAL_CLOSURE] else []) /\
    m_readyState (session l') =
      (if is_OPEN (m_readyState (session l)) then CLOSED
       else m_readyState (session l)) /\
    connected (session l') = false /\
    calls (session l') = calls (session l) /\
    forall n, loop (S n) l = inl l'.
Proof.
  intros Hconn.
  destruct (is_OPEN (m_readyState (session l))) eqn:Hstate.
  - eexists. split.
    + unfold listen. rewrite Hconn, Hstate. cbn. reflexivity.
    + cbn [closures session andb].
      split; [destruct (_onClose l); auto using app_nil_r|].
      repeat split.
      intros n. cbn [loop]. unfold listen at 1. rewrite Hconn, Hstate.
      cbn [negb terminate modify].
      apply listen_closed; reflexivity.
  - exists l. split; [unfold listen; now rewrite Hconn, Hstate|].
    cbn [andb]. rewrite app_nil_r. repeat split; auto.
    intros n. now apply listen_closed.
Qed.

(** A failed [open] is reported by the error notification alone: the
    [listen] calls that follow it find the session CLOSED, call no close
    listener and change nothing. *)
Theorem listen_after_failed_open (host : cstring) (port : N)
    (path : cstring) (protocols : option cstring) (server : Server)
    (seed : N) (c c' : WebSocketClient) (close_listener : bool)
    (reported : list eWebSocketCloseEvent) (n : nat) :
  open host port path protocols server seed c = Returns false c' ->
  loop n {| session := c'; _onClose := close_listener;
            closures := reported |}
  = inl {| session := c'; _onClose := close_listener;
           closures := reported |}.
Proof.
  intros Hopen.
  destruct (open_outcome host port path protocols server seed c c' false
              Hopen) as [([=] & _)|(_ & Hstate & Hconn & _)].
  apply listen_closed; cbn [session]; [exact Hconn|now rewrite Hstate].
Qed.

(** ** More on [_waitForResponse] *)

(** A byte that is pending when the wait begins ends it at once, with no
    delay and the state as it was; the wait then reports success unless its
    budget [maxAttempts] is zero, when it reports a timeout all the same. *)
Theorem wait_returns_at_once (maxAttempts time : nat)
    (c : WebSocketClient) :
  available c = true ->
  _waitForResponse maxAttempts time c = Returns (0 <? maxAttempts) c.
Proof.
  intros Hav. unfold _waitForResponse. cbn [wait_loop].
  now rewrite Hav.
Qed.

(** A wait that reports a timeout has taken its whole budget: exactly
    [maxAttempts] delays of [time] have passed, none of the polls made
    before them saw a byte, and nothing but the clock has changed. *)
Theorem wait_timeout_takes_budget (maxAttempts time : nat)
    (c c' : WebSocketClient) :
  _waitForResponse maxAttempts time c = Returns false c' ->
  c' = set_millis (millis c + maxAttempts * time) c /\
  forall k, k < maxAttempts -> polled time c k = false.
Proof.
  intros Hwait.
  destruct (wait_result maxAttempts time c)
    as (attempts & E & Hle & Hno & _).
  rewrite E in Hwait. injection Hwait as Hb <-.
  apply Nat.ltb_ge in Hb.
  assert (attempts = maxAttempts) as -> by lia.
  split; [reflexivity|exact Hno].
Qed.

(** A larger budget never turns a success into a timeout, nor does it
    change the moment the wait ends: a wait that succeeds with the budget
    [maxAttempts] succeeds with every larger one, in the same state. *)
Theorem wait_budget_monotone (maxAttempts maxAttempts' time : nat)
    (c c' : WebSocketClient) :
  maxAttempts <= maxAttempts' ->
  _waitForResponse maxAttempts time c = Returns true c' ->
  _waitForResponse maxAttempts' time c = Returns true c'.
Proof.
  intros Hle Hwait.
  destruct (wait_result maxAttempts time c)
    as (a & E & _ & Hno & Hyes).
  rewrite E in Hwait. injection Hwait as Hb <-.
  apply Nat.ltb_lt in Hb. specialize (Hyes Hb).
  destruct (wait_result maxAttempts' time c)
    as (a' & E' & Hle' & Hno' & Hyes').
  rewrite E'.
  assert (a' = a) as ->.
  { destruct (Nat.lt_trichotomy a' a) as [Hlt|[Heq|Hgt]];
      [|exact Heq|].
    - rewrite Hno in Hyes' by exact Hlt.
      assert (a' < maxAttempts') as Hin by lia.
      specialize (Hyes' Hin). discriminate.
    - rewrite Hno' in Hyes by exact Hgt. discriminate. }
  assert ((a <? maxAttempts') = true) as -> by (apply Nat.ltb_lt; lia).
  reflexivity.
Qed.

(** ** More on [_sendRequest] *)

Lemma utoa_digits_length (fuel n : nat) (acc : cstring) :
  List.length (utoa_digits fuel n acc) <= fuel + List.length acc.
Proof.
  revert n acc. induction fuel as [|fuel IH]; intros n acc; [simpl; lia|].
  cbn [utoa_digits]. destruct (n / 10 =? 0).
  - cbn [List.length]. lia.
  - specialize (IH (n / 10) (digit (n mod 10) :: acc)).
    cbn [List.length] in IH. lia.
Qed.

Lemma snprintf_fits (size : nat) (formatted : cstring) :
  List.length formatted <= size - 1 -> snprintf size formatted = formatted.
Proof. intros H. unfold snprintf. now apply firstn_all2. Qed.

(** With a path of at most 114 characters, a host of at most 115, a key of
    at most 108 and protocols of at most 103, [_sendRequest] writes the
    request as its format strings spell it, nothing cut, and changes
    nothing else. *)
Theorem request_wire_format (host : cstring) (port : N)
    (path secKey : cstring) (protocols : option cstring)
    (c : WebSocketClient) :
  List.length path <= 114 ->
  List.length host <= 115 ->
  List.length secKey <= 108 ->
  (forall p, protocols = Some p -> List.length p <= 103) ->
  _sendRequest host port path secKey protocols c =
  Returns tt
    (set_written (written c ++ plain_request host port path secKey protocols)
       c).
Proof.
  intros Hpath Hhost Hkey Hprot.
  rewrite sendRequest_written. do 3 f_equal.
  unfold handshake_request, plain_request.
  pose proof (utoa_digits_length 5 (N.to_nat (port mod 65536)) []) as Hport.
  fold (utoa port) in Hport. simpl in Hport.
  rewrite (snprintf_fits 128 (lit "GET " ++ path ++ lit " HTTP/1.1"))
    by (rewrite !length_app; simpl; lia).
  rewrite (snprintf_fits 128 (lit "Host: " ++ host ++ lit ":" ++ utoa port))
    by (rewrite !length_app; simpl; lia).
  rewrite (snprintf_fits 128 (lit "Sec-WebSocket-Key: " ++ secKey))
    by (rewrite !length_app; simpl; lia).
  destruct protocols as [p|].
  - rewrite (snprintf_fits 128 (lit "Sec-WebSocket-Protocol: " ++ p))
      by (rewrite !length_app; simpl; specialize (Hprot p eq_refl); lia).
    repeat rewrite <- app_assoc. reflexivity.
  - repeat rewrite <- app_assoc. reflexivity.
Qed.

(** A path of more than 114 characters is not refused: the request line is
    cut after 127 characters, so that it goes out without its complete
    [ HTTP/1.1], and the headers follow it. *)
Theorem long_path_truncated (host : cstring) (port : N)
    (path secKey : cstring) (protocols : option cstring)
    (c : WebSocketClient) :
  114 < List.length path ->
  exists line tail,
    _sendRequest host port path secKey protocols c =
    Returns tt (set_written (written c ++ line ++ [CR; LF] ++ tail) c) /\
    List.length line = 127 /\
    begins_with line (lit "GET " ++ path ++ lit " HTTP/1.1") /\
    line <> lit "GET " ++ path ++ lit " HTTP/1.1".
Proof.
  intros Hpath.
  assert (127 < List.length (lit "GET " ++ path ++ lit " HTTP/1.1"))
    as Hlong by (rewrite !length_app; simpl; lia).
  exists (snprintf 128 (lit "GET " ++ path ++ lit " HTTP/1.1")).
  eexists. split; [|split; [|split]].
  - rewrite sendRequest_written. unfold handshake_request. reflexivity.
  - revert Hlong. generalize (lit "GET " ++ path ++ lit " HTTP/1.1").
    intros full Hlong. unfold snprintf. rewrite length_firstn. lia.
  - revert Hlong. generalize (lit "GET " ++ path ++ lit " HTTP/1.1").
    intros full Hlong. unfold begins_with, snprintf.
    rewrite length_firstn. f_equal. lia.
  - revert Hlong. generalize (lit "GET " ++ path ++ lit " HTTP/1.1").
    intros full Hlong E. apply (f_equal (@List.length ascii)) in E.
    unfold snprintf in E. rewrite length_firstn in E. lia.
Qed.

(** ** A response without its blank line *)

Lemma read_headers_cut (secKey : cstring) (partial : list ascii) :
  ~ In LF partial -> List.length partial <= 128 ->
  forall (headers : list (list ascii)) (v : locals) (p : option cstring),
    line_start v ->
    currentLine v <> 0 ->
    currentLine v + List.length headers < 256 ->
    Forall (fun raw => buffer_line raw /\
                       exists kind, valid_header secKey (line_text raw) kind)
      headers ->
    exists f q,
      read_loop secKey
        (flat_map (fun raw => raw ++ [LF]) headers ++ partial) v p
        = EndOfStream f q /\
      (forall n, N.testbit (flags v) n = true -> N.testbit f n = true) /\
      (Exists (fun raw => valid_header secKey (line_text raw) UpgradeHeader)
         headers -> N.testbit f 0 = true) /\
      (Exists (fun raw => valid_header secKey (line_text raw)
                            ConnectionHeader)
         headers -> N.testbit f 1 = true) /\
      (Exists (fun raw => valid_header secKey (line_text raw) AcceptHeader)
         headers -> N.testbit f 2 = true).
Proof.
  intros Hlf Hpartial.
  induction headers as [|raw headers IH]; intros v p Hv Hcl Hlen Hall.
  - cbn [flat_map app]. rewrite read_loop_partial by assumption.
    eexists _, _. split; [reflexivity|].
    repeat split; auto; intros H; inversion H.
  - inversion Hall as [|? ? [Hraw (kind & Hkind)] Hall']; subst.
    cbn [flat_map List.length] in *. rewrite <- !app_assoc. cbn [app].
    rewrite read_loop_line by assumption.
    destruct (on_line_valid secKey _ _ _ (flags v) Hcl Hkind)
      as (f' & q' & Hline & Hmono & _).
    rewrite Hline.
    assert ((currentLine v + 1) mod 256 = currentLine v + 1) as Hnext
      by (apply Nat.mod_small; lia).
    edestruct (IH {| flags := f'; currentLine := (currentLine v + 1) mod 256;
                     counter := 0; buffer := repeat NUL 128 |}
                 (assign q' p))
      as (f & q & -> & Hmono' & Hu' & Hc' & Ha');
      [apply line_start_next
      |cbn [currentLine]; lia
      |cbn [currentLine]; lia
      |assumption|].
    cbn [flags] in Hmono'.
    eexists _, _. split; [reflexivity|].
    repeat split; auto; intros H; inversion H as [? ? Hk|]; subst; auto;
      apply Hmono';
      destruct (on_line_valid secKey _ _ _ (flags v) Hcl Hk)
        as (f2 & q2 & E2 & _ & Hu2 & Hc2 & Ha2);
      rewrite Hline in E2; injection E2 as <- <-; auto.
Qed.

Lemma readResponse_ended (secKey : cstring) (c : WebSocketClient)
    (flags : N) (p : option cstring) :
  read_loop secKey (unread c) locals0 (m_protocol c) = EndOfStream flags p ->
  first_missing flags = None ->
  _readResponse secKey c = Returns true (set_protocol p (set_unread [] c)).
Proof.
  intros E Hall. unfold _readResponse. rewrite E.
  now rewrite validateHandshake_first_missing, Hall.
Qed.

(** The blank line that ends the headers is not needed: when the stream of
    a valid 101 response ends behind the line feed of its last header, or
    within an unfinished line of at most 128 bytes that follows it, [open]
    succeeds as well -- it returns [true] with the ready state OPEN, the
    open notification dispatched once and nothing left unread. *)
Theorem cut_response_opens (host : cstring) (port : N) (path : cstring)
    (protocols : option cstring) (server : Server) (seed : N)
    (c : WebSocketClient) (r : http_response) (partial : list ascii) :
  accepts server = true ->
  first_byte_seen server (millis c) ->
  valid_101_response (generateSecKey seed) r ->
  ~ In LF partial ->
  List.length partial <= 128 ->
  response server = wire_without_blank_line r ++ partial ->
  exists c',
    open host port path protocols server seed c = Returns true c' /\
    m_readyState c' = OPEN /\
    connected c' = true /\
    calls c' = calls c ++ (if _onOpen c then [OnOpen] else []) /\
    unread c' = [].
Proof.
  intros Hacc Hseen
    (Hstatus & H101 & Hall & Hu & Hc & Ha & _ & _ & Hlen)
    Hlf Hpartial Hwire.
  destruct (open_connected_bound host port path protocols server seed c
              Hacc) as (attempts & _ & Hiff & ->); cbv zeta in *.
  apply Hiff in Hseen. rewrite Hseen.
  set (c2 := set_millis _ _).
  destruct (read_headers_cut (generateSecKey seed) partial Hlf Hpartial
              (header_lines r)
              {| flags := 0; currentLine := (0 + 1) mod 256; counter := 0;
                 buffer := repeat NUL 128 |} (m_protocol c))
    as (f & q & Hloop & _ & Hu' & Hc' & Ha');
    [apply line_start_next
    |cbn [currentLine]; rewrite Nat.mod_small; lia
    |cbn [currentLine]; rewrite Nat.mod_small; lia
    |assumption|].
  assert (read_loop (generateSecKey seed) (unread c2) locals0 (m_protocol c2)
          = EndOfStream f q) as Hread.
  { change (unread c2) with (response server).
    change (m_protocol c2) with (m_protocol c).
    rewrite Hwire. unfold wire_without_blank_line.
    rewrite <- app_assoc. cbn [app].
    rewrite read_loop_line by auto using line_start_locals0.
    cbn [currentLine flags locals0].
    rewrite on_line_status by assumption. exact Hloop. }
  assert (first_missing f = None) as Hnone.
  { unfold first_missing. now rewrite Hu', Hc', Ha'. }
  unfold bind at 1.
  rewrite (readResponse_ended (generateSecKey seed) c2 f q Hread Hnone).
  cbn [negb]. unfold bind, modify, ret.
  change (_onOpen (set_readyState OPEN (set_protocol q (set_unread [] c2))))
    with (_onOpen c).
  destruct (_onOpen c); eexists; (split; [reflexivity|]);
    repeat split; auto using app_nil_r.
Qed.

End Handshake.

(** ** The theorems on the sample handshake *)

Lemma buffer_line_dec (raw : list ascii) :
  forallb (fun c => negb (c =? LF)%char) raw
  && (List.length raw <? 128) = true ->
  buffer_line raw.
Proof.
  intros H. apply andb_true_iff in H as [Hlf Hlen]. split.
  - intros Hin. rewrite forallb_forall in Hlf. apply Hlf in Hin.
    now rewrite Ascii.eqb_refl in Hin.
  - now apply Nat.ltb_lt.
Qed.

Lemma no_line_feed_dec (raw : list ascii) :
  forallb (fun c => negb (c =? LF)%char) raw = true -> ~ In LF raw.
Proof.
  intros Hlf Hin. rewrite forallb_forall in Hlf. apply Hlf in Hin.
  now rewrite Ascii.eqb_refl in Hin.
Qed.

Lemma valid_response_opens_witness :
  exists c',
    open rfc_encodeSecKey rfc_base64 5000 1 rfc_random
      (lit "example.com") 8000 (lit "/chat") None
      (server_replying 3 (wire rfc_response)) 0 fresh_client
      = Returns true c' /\
    m_readyState c' = OPEN /\
    connected c' = true /\
    calls c' = [OnOpen] /\
    unread c' = [].
Proof.
  apply (valid_response_opens rfc_encodeSecKey rfc_base64 5000 1 rfc_random
           (lit "example.com") 8000 (lit "/chat") None
           (server_replying 3 (wire rfc_response)) 0 fresh_client
           rfc_response).
  - reflexivity.
  - exists 3. split; [lia|reflexivity].
  - reflexivity.
  - repeat split.
    + apply no_line_feed_dec. reflexivity.
    + vm_compute. lia.
    + repeat constructor;
        try (apply no_line_feed_dec; reflexivity);
        try (vm_compute; lia).
      * exists UpgradeHeader. eexists _, _. split; [reflexivity|].
        split; [reflexivity|]. eexists. split; reflexivity.
      * exists ConnectionHeader. eexists _, _. split; [reflexivity|].
        split; [reflexivity|]. eexists. split; reflexivity.
      * exists AcceptHeader. eexists _, _. split; [reflexivity|].
        split; reflexivity.
      * exists ProtocolHeader. eexists _, _. split; [reflexivity|].
        split; [reflexivity|discriminate].
    + apply Exists_cons_hd. eexists _, _. split; [reflexivity|].
      split; [reflexivity|]. eexists. split; reflexivity.
    + apply Exists_cons_tl, Exists_cons_hd. eexists _, _.
      split; [reflexivity|].
      split; [reflexivity|]. eexists. split; reflexivity.
    + apply Exists_cons_tl, Exists_cons_tl, Exists_cons_hd. eexists _, _.
      split; [reflexivity|]. split; reflexivity.
    + apply no_line_feed_dec. reflexivity.
    + vm_compute. lia.
    + vm_compute. lia.
Defined.

Lemma failing_attempt_closes_witness :
  exists c',
    open rfc_encodeSecKey rfc_base64 5000 1 rfc_random
      (lit "example.com") 8000 (lit "/chat") None
      (server_replying 0 wrong_accept_reply) 0 fresh_client
      = Returns false c' /\
    connected c' = false /\
    m_readyState c' = CLOSED /\
    calls c' = [OnError BAD_REQUEST].
Proof.
  apply (proj1 (failing_attempt_closes rfc_encodeSecKey rfc_base64 5000 1
                  rfc_random (lit "example.com") 8000 (lit "/chat") None
                  (server_replying 0 wrong_accept_reply) 0 fresh_client)
           BAD_REQUEST).
  apply line_rejected with (p := None) (rest := [CR; LF]).
  - reflexivity.
  - exists 0. split; [lia|reflexivity].
  - vm_compute. reflexivity.
Defined.

Lemma buffer_lines_dec (lines : list (list ascii)) :
  forallb (fun raw => forallb (fun c => negb (c =? LF)%char) raw
                      && (List.length raw <? 128)) lines = true ->
  Forall buffer_line lines.
Proof.
  intros H. apply Forall_forall. intros raw Hin.
  rewrite forallb_forall in H. now apply buffer_line_dec, H.
Qed.

(** C1, as the claim states it, fails: the response of the RFC with one
    more header, [Connection: keep-alive], has a correct status line and
    the three valid headers, within all limits of the reader, yet [open]
    fails with UPGRADE_REQUIRED, because the validator checks every
    [Connection] header. *)
Lemma later_header_rejected :
  ~ (forall (server : Server) (c : WebSocketClient) (r : http_response),
       accepts server = true ->
       first_byte_seen 5000 1 server (millis c) ->
       response server = wire r ->
       claimed_101_response rfc_encodeSecKey rfc_key r ->
       Forall buffer_line (status_line r :: header_lines r) ->
       buffer_line (blank_line r) ->
       line_text (blank_line r) = [] ->
       List.length (header_lines r) < 255 ->
       exists c',
         open rfc_encodeSecKey rfc_base64 5000 1 rfc_random
           (lit "example.com") 8000 (lit "/chat") None server 0 c
         = Returns true c').
Proof.
  intros claim.
  destruct (claim (server_replying 0 (wire keep_alive_response))
              fresh_client keep_alive_response) as (c' & Hopen).
  - reflexivity.
  - exists 0. split; [lia|reflexivity].
  - reflexivity.
  - split; [reflexivity|]. split; [|split].
    + apply Exists_cons_hd. eexists _, _. split; [reflexivity|].
      split; [reflexivity|]. eexists. split; reflexivity.
    + apply Exists_cons_tl, Exists_cons_hd. eexists _, _.
      split; [reflexivity|].
      split; [reflexivity|]. eexists. split; reflexivity.
    + apply Exists_cons_tl, Exists_cons_tl, Exists_cons_hd. eexists _, _.
      split; [reflexivity|]. split; reflexivity.
  - apply buffer_lines_dec. reflexivity.
  - apply buffer_line_dec. reflexivity.
  - reflexivity.
  - vm_compute. lia.
  - vm_compute in Hopen. discriminate.
Qed.

(** C3, as the claim states it, fails: a first line that does not begin
    with [HTTP/1.1 101] and is not followed by a line feed is never handed
    to the validator; the loop ends with the stream and the final check
    fails with UPGRADE_REQUIRED. *)
Lemma unfinished_status_line_unchecked :
  ~ (forall (server : Server) (c : WebSocketClient),
       accepts server = true ->
       first_byte_seen 5000 1 server (millis c) ->
       List.length (first_line (response server)) < 128 ->
       ~ begins_with (lit "HTTP/1.1 101") (first_line (response server)) ->
       fails_with BAD_REQUEST c
         (open rfc_encodeSecKey rfc_base64 5000 1 rfc_random
            (lit "example.com") 8000 (lit "/chat") None server 0 c)).
Proof.
  intros claim.
  destruct (claim (server_replying 0 bare_not_found) fresh_client)
    as (c' & Hopen & _ & _ & Hcalls).
  - reflexivity.
  - exists 0. split; [lia|reflexivity].
  - vm_compute. lia.
  - discriminate.
  - vm_compute in Hopen. injection Hopen as <-.
    vm_compute in Hcalls. discriminate.
Qed.

Lemma status_line_rejected_witness :
  (exists c',
     _readResponse rfc_encodeSecKey rfc_key
       (requesting [] (server_replying 0 not_found_reply) fresh_client)
       = Returns false c' /\
     connected c' = false /\
     m_readyState c' = CLOSED /\
     calls c' = [OnError BAD_REQUEST] /\
     unread c' = crlf "Content-Length: 0" ++ crlf "" /\
     m_protocol c' = None) /\
  fails_with BAD_REQUEST fresh_client
    (open rfc_encodeSecKey rfc_base64 5000 1 rfc_random
       (lit "example.com") 8000 (lit "/chat") None
       (server_replying 0 not_found_reply) 0 fresh_client).
Proof.
  destruct (status_line_rejected rfc_encodeSecKey rfc_base64 5000 1
              rfc_random rfc_key
              (lit "HTTP/1.1 404 Not Found" ++ [CR])
              (crlf "Content-Length: 0" ++ crlf "")
              (requesting [] (server_replying 0 not_found_reply)
                 fresh_client))
    as (_ & _ & Hread & Hopen).
  - reflexivity.
  - apply buffer_line_dec. reflexivity.
  - discriminate.
  - split; [exact Hread|].
    apply (Hopen (lit "example.com") 8000%N (lit "/chat") None
             (server_replying 0 not_found_reply) 0%N fresh_client).
    + reflexivity.
    + exists 0. split; [lia|reflexivity].
    + reflexivity.
Defined.

Lemma sec_accept_checked_witness :
  read_loop rfc_encodeSecKey rfc_key (wire rfc_response) locals0 None
  = read_loop rfc_encodeSecKey rfc_key
      (crlf "Sec-WebSocket-Protocol: chat" ++ crlf "")
      (next_line (at_line 3 3) 7) None /\
  fails_with BAD_REQUEST fresh_client
    (open rfc_encodeSecKey rfc_base64 5000 1 rfc_random
       (lit "example.com") 8000 (lit "/chat") None
       (server_replying 0 late_accept_reply) 0 fresh_client).
Proof.
  split.
  - destruct (sec_accept_checked rfc_encodeSecKey rfc_base64 5000 1
                rfc_random (lit "example.com") 8000 (lit "/chat") None
                (server_replying 0 (wire rfc_response)) 0 fresh_client
                [lit "HTTP/1.1 101 Switching Protocols" ++ [CR];
                 lit "Upgrade: websocket" ++ [CR];
                 lit "Connection: Upgrade" ++ [CR]]
                (lit "Sec-WebSocket-Accept: s3pPLMBiTxaQ9kYGzzhZRbK+xOo="
                 ++ [CR])
                (crlf "Sec-WebSocket-Protocol: chat" ++ crlf "")
                (at_line 3 3) None
                (lit "Sec-WebSocket-Accept")
                (lit " s3pPLMBiTxaQ9kYGzzhZRbK+xOo="))
      as (Hrule & _ & _).
    + reflexivity.
    + exists 0. split; [lia|reflexivity].
    + reflexivity.
    + apply buffer_lines_dec. reflexivity.
    + apply buffer_line_dec. reflexivity.
    + reflexivity.
    + reflexivity.
    + reflexivity.
    + destruct Hrule as ((Hmatch & _) & _); [discriminate|].
      apply (Hmatch rfc_accept); reflexivity.
  - destruct (sec_accept_checked rfc_encodeSecKey rfc_base64 5000 1
                rfc_random (lit "example.com") 8000 (lit "/chat") None
                (server_replying 0 late_accept_reply) 0 fresh_client
                late_accept_lines
                (lit "Sec-WebSocket-Accept: s3pPLMBiTxaQ9kYGzzhZRbK+xOo="
                 ++ [CR])
                (crlf "")
                (at_line 0 3) None
                (lit "Sec-WebSocket-Accept")
                (lit " s3pPLMBiTxaQ9kYGzzhZRbK+xOo="))
      as (_ & Hwrap & _).
    + reflexivity.
    + exists 0. split; [lia|reflexivity].
    + reflexivity.
    + apply buffer_lines_dec. reflexivity.
    + apply buffer_line_dec. reflexivity.
    + vm_compute. reflexivity.
    + reflexivity.
    + reflexivity.
    + apply Hwrap. reflexivity.
Defined.

Lemma upgrade_connection_checked_witness :
  read_loop rfc_encodeSecKey rfc_key (wire rfc_response) locals0 None
  = read_loop rfc_encodeSecKey rfc_key
      (crlf "Connection: Upgrade" ++
       crlf "Sec-WebSocket-Accept: s3pPLMBiTxaQ9kYGzzhZRbK+xOo=" ++
       crlf "Sec-WebSocket-Protocol: chat" ++ crlf "")
      (next_line (at_line 1 0) 1) None /\
  fails_with UPGRADE_REQUIRED fresh_client
    (open rfc_encodeSecKey rfc_base64 5000 1 rfc_random
       (lit "example.com") 8000 (lit "/chat") None
       (server_replying 0 (wire keep_alive_response)) 0 fresh_client).
Proof.
  split.
  - destruct (upgrade_connection_checked rfc_encodeSecKey rfc_base64 5000 1
                rfc_random (lit "example.com") 8000 (lit "/chat") None
                (server_replying 0 (wire rfc_response)) 0 fresh_client
                [lit "HTTP/1.1 101 Switching Protocols" ++ [CR]]
                (lit "Upgrade: websocket" ++ [CR])
                (crlf "Connection: Upgrade" ++
                 crlf "Sec-WebSocket-Accept: s3pPLMBiTxaQ9kYGzzhZRbK+xOo="
                 ++ crlf "Sec-WebSocket-Protocol: chat" ++ crlf "")
                (at_line 1 0) None
                (lit "Upgrade") (lit " websocket"))
      as (Hupgrade & _).
    + reflexivity.
    + exists 0. split; [lia|reflexivity].
    + reflexivity.
    + apply buffer_lines_dec. reflexivity.
    + apply buffer_line_dec. reflexivity.
    + reflexivity.
    + discriminate.
    + reflexivity.
    + destruct Hupgrade as ((Hmatch & _) & _); [reflexivity|].
      apply (Hmatch (lit "websocket")); reflexivity.
  - destruct (upgrade_connection_checked rfc_encodeSecKey rfc_base64 5000 1
                rfc_random (lit "example.com") 8000 (lit "/chat") None
                (server_replying 0 (wire keep_alive_response)) 0
                fresh_client
                [lit "HTTP/1.1 101 Switching Protocols" ++ [CR];
                 lit "Upgrade: websocket" ++ [CR];
                 lit "Connection: Upgrade" ++ [CR];
                 lit "Sec-WebSocket-Accept: s3pPLMBiTxaQ9kYGzzhZRbK+xOo="
                 ++ [CR]]
                (lit "Connection: keep-alive" ++ [CR])
                (crlf "")
                (at_line 4 7) None
                (lit "Connection") (lit " keep-alive"))
      as (_ & Hconnection).
    + reflexivity.
    + exists 0. split; [lia|reflexivity].
    + reflexivity.
    + apply buffer_lines_dec. reflexivity.
    + apply buffer_line_dec. reflexivity.
    + reflexivity.
    + discriminate.
    + reflexivity.
    + destruct Hconnection as ((_ & Hmiss & _) & _); [reflexivity|].
      apply (Hmiss (lit "keep-alive")); [reflexivity|discriminate].
Defined.

(** C5, as the claim states it, fails: with the token delimited by white
    space, the header [Upgrade:<TAB>websocket] of an otherwise valid
    response carries the token [websocket], yet the loop does not go on
    behind it: [open] fails with UPGRADE_REQUIRED, because the tab is not a
    delimiter of [strtok_r(rest, " ", ...)]. *)
Lemma upgrade_tab_rejected :
  ~ (forall (server : Server) (c : WebSocketClient)
            (lines : list (list ascii)) (raw post : list ascii)
            (v : locals) (q : option cstring) (name rest : cstring),
       accepts server = true ->
       first_byte_seen 5000 1 server (millis c) ->
       response server = on_wire lines ++ raw ++ LF :: post ->
       Forall buffer_line lines ->
       buffer_line raw ->
       read_lines rfc_encodeSecKey rfc_key lines locals0 (m_protocol c)
         = Some (v, q) ->
       List.length lines mod 256 <> 0 ->
       strtok_r (line_text raw) (lit ":") = (Some name, rest) ->
       caseless_eq name (lit "Upgrade") ->
       token_decides is_whitespace
         (fun value => caseless_eq value (lit "websocket")) rest
         (read_loop rfc_encodeSecKey rfc_key (response server) locals0
            (m_protocol c)
          = read_loop rfc_encodeSecKey rfc_key post
              (next_line v (N.lor (flags v) kValidUpgradeHeader)) q)
         (fails_with UPGRADE_REQUIRED c
            (open rfc_encodeSecKey rfc_base64 5000 1 rfc_random
               (lit "example.com") 8000 (lit "/chat") None server 0 c))).
Proof.
  intros claim.
  destruct (claim (server_replying 0 tab_reply) fresh_client
              [lit "HTTP/1.1 101 Switching Protocols" ++ [CR]]
              (tab_upgrade ++ [CR])
              (crlf "Connection: Upgrade" ++
               crlf "Sec-WebSocket-Accept: s3pPLMBiTxaQ9kYGzzhZRbK+xOo=" ++
               crlf "")
              (at_line 1 0) None (lit "Upgrade") ([HT] ++ lit "websocket"))
    as (Hmatch & _).
  - reflexivity.
  - exists 0. split; [lia|reflexivity].
  - reflexivity.
  - apply buffer_lines_dec. reflexivity.
  - apply buffer_line_dec. reflexivity.
  - reflexivity.
  - discriminate.
  - reflexivity.
  - reflexivity.
  - specialize (Hmatch (lit "websocket") eq_refl eq_refl).
    vm_compute in Hmatch. discriminate.
Qed.

Lemma header_loop_exits_witness :
  read_loop rfc_encodeSecKey rfc_key
    (on_wire [lit "Upgrade: websocket" ++ [CR]] ++
     [CR] ++ LF :: lit "payload")
    (at_line 1 0) None
  = BlankLine 1 None (lit "payload") /\
  read_loop rfc_encodeSecKey rfc_key
    (on_wire [lit "Upgrade: websocket" ++ [CR]] ++ lit "Connection: Upg")
    (at_line 1 0) None
  = EndOfStream 1 None /\
  read_loop rfc_encodeSecKey rfc_key (on_wire padded_lines ++ [CR] ++ [LF])
    locals0 None
  = Failure BAD_REQUEST None [].
Proof.
  split; [|split].
  - apply (proj2 (proj1 (proj2 (header_loop_exits rfc_encodeSecKey rfc_key))
                    (on_wire [lit "Upgrade: websocket" ++ [CR]] ++
                     [CR] ++ LF :: lit "payload")
                    (at_line 1 0) None 1%N None (lit "payload")
                    (line_start_next 0 1))).
    exists [lit "Upgrade: websocket" ++ [CR]], [CR], (at_line 2 1).
    split; [reflexivity|].
    split; [apply buffer_lines_dec; reflexivity|].
    split; [apply buffer_line_dec; reflexivity|].
    split; [reflexivity|]. split; [reflexivity|].
    split; [vm_compute; discriminate|reflexivity].
  - apply (proj2 (proj1 (header_loop_exits rfc_encodeSecKey rfc_key)
                    (on_wire [lit "Upgrade: websocket" ++ [CR]] ++
                     lit "Connection: Upg")
                    (at_line 1 0) None 1%N None (line_start_next 0 1))).
    exists [lit "Upgrade: websocket" ++ [CR]], (lit "Connection: Upg"),
      (at_line 2 1).
    split; [reflexivity|].
    split; [apply buffer_lines_dec; reflexivity|].
    split; [apply no_line_feed_dec; reflexivity|].
    split; [vm_compute; lia|]. split; reflexivity.
  - apply (proj1 (proj2 (proj2 (header_loop_exits rfc_encodeSecKey rfc_key)))
             padded_lines [CR] [] locals0 (at_line 0 7) None None
             line_start_locals0).
    + apply buffer_lines_dec. reflexivity.
    + apply buffer_line_dec. reflexivity.
    + reflexivity.
    + reflexivity.
    + reflexivity.
Defined.

Lemma final_validation_witness :
  _validateHandshake 7 fresh_client = Returns true fresh_client /\
  fails_with UPGRADE_REQUIRED fresh_client
    (_validateHandshake 6 fresh_client) /\
  fails_with UPGRADE_REQUIRED fresh_client
    (_validateHandshake 5 fresh_client) /\
  fails_with BAD_REQUEST fresh_client (_validateHandshake 3 fresh_client).
Proof.
  split; [|split; [|split]].
  - apply (proj1 (final_validation rfc_encodeSecKey 7 fresh_client));
      reflexivity.
  - apply (proj1 (proj2 (final_validation rfc_encodeSecKey 6 fresh_client)));
      reflexivity.
  - apply (proj1 (proj2 (proj2
             (final_validation rfc_encodeSecKey 5 fresh_client))));
      reflexivity.
  - apply (proj1 (proj2 (proj2 (proj2
             (final_validation rfc_encodeSecKey 3 fresh_client)))));
      reflexivity.
Defined.

Lemma wait_for_response_window_witness :
  _waitForResponse 3 1
    (requesting [] (server_replying 3 (wire rfc_response)) fresh_client)
  = Returns false
      (set_millis 3
         (requesting [] (server_replying 3 (wire rfc_response))
            fresh_client)).
Proof.
  destruct (wait_for_response_window 3 1
              (requesting [] (server_replying 3 (wire rfc_response))
                 fresh_client))
    as (attempts & _ & _ & _ & _ & Hlast).
  apply Hlast.
  - intros [|[|[|k]]] Hk; try reflexivity. lia.
  - reflexivity.
Defined.

Lemma over_length_line_overflows_witness :
  read_loop rfc_encodeSecKey rfc_key
    (long_header ++ LF :: crlf "") (at_line 4 7) None
  = Faulted BufferOverflow.
Proof.
  apply (over_length_line_overflows rfc_encodeSecKey rfc_key long_header
           (crlf "") (at_line 4 7) None).
  - repeat split. simpl. lia.
  - apply no_line_feed_dec. reflexivity.
  - apply Nat.leb_le. reflexivity.
Defined.

Lemma protocol_token_unchecked_witness :
  on_line rfc_encodeSecKey rfc_key 4 (lit "Sec-WebSocket-Protocol: chat") 7
  = Next 7 (Some (lit "chat")) /\
  on_line rfc_encodeSecKey rfc_key 4 (lit "Sec-WebSocket-Protocol:") 7
  = Crash NullPointer.
Proof.
  split.
  - apply (proj1 (protocol_token_unchecked rfc_encodeSecKey rfc_key
                    (lit "Sec-WebSocket-Protocol: chat")
                    (lit "Sec-WebSocket-Protocol") (lit " chat") 4 7
                    ltac:(discriminate) eq_refl eq_refl)
             (lit "chat")). reflexivity.
  - apply (proj2 (protocol_token_unchecked rfc_encodeSecKey rfc_key
                    (lit "Sec-WebSocket-Protocol:")
                    (lit "Sec-WebSocket-Protocol") [] 4 7
                    ltac:(discriminate) eq_refl eq_refl)). reflexivity.
Defined.

(** ** The further properties on sample data *)


Lemma rfc_response_valid :
  valid_101_response rfc_encodeSecKey rfc_key rfc_response.
Proof.
  repeat split.
  - apply no_line_feed_dec. reflexivity.
  - vm_compute. lia.
  - repeat constructor;
      try (apply no_line_feed_dec; reflexivity);
      try (vm_compute; lia).
    + exists UpgradeHeader. eexists _, _. split; [reflexivity|].
      split; [reflexivity|]. eexists. split; reflexivity.
    + exists ConnectionHeader. eexists _, _. split; [reflexivity|].
      split; [reflexivity|]. eexists. split; reflexivity.
    + exists AcceptHeader. eexists _, _. split; [reflexivity|].
      split; reflexivity.
    + exists ProtocolHeader. eexists _, _. split; [reflexivity|].
      split; [reflexivity|discriminate].
  - apply Exists_cons_hd. eexists _, _. split; [reflexivity|].
    split; [reflexivity|]. eexists. split; reflexivity.
  - apply Exists_cons_tl, Exists_cons_hd. eexists _, _.
    split; [reflexivity|].
    split; [reflexivity|]. eexists. split; reflexivity.
  - apply Exists_cons_tl, Exists_cons_tl, Exists_cons_hd. eexists _, _.
    split; [reflexivity|]. split; reflexivity.
  - apply no_line_feed_dec. reflexivity.
  - vm_compute. lia.
  - vm_compute. lia.
Qed.

Lemma padded_headers_valid :
  Forall (fun raw =>
            buffer_line raw /\
            exists kind,
              valid_header rfc_encodeSecKey rfc_key (line_text raw) kind)
    padded_headers.
Proof.
  unfold padded_headers. apply Forall_app. split.
  - repeat constructor;
      try (apply no_line_feed_dec; reflexivity);
      try (vm_compute; lia).
    + exists UpgradeHeader. eexists _, _. split; [reflexivity|].
      split; [reflexivity|]. eexists. split; reflexivity.
    + exists ConnectionHeader. eexists _, _. split; [reflexivity|].
      split; [reflexivity|]. eexists. split; reflexivity.
    + exists AcceptHeader. eexists _, _. split; [reflexivity|].
      split; reflexivity.
  - apply Forall_forall. intros raw Hraw. apply repeat_spec in Hraw.
    subst raw. split; [apply buffer_line_dec; reflexivity|].
    exists OtherHeader. eexists _, _. split; [reflexivity|].
    repeat split; intros H; vm_compute in H; discriminate.
Qed.

Lemma status_line_is_prefix_check_witness :
  read_loop rfc_encodeSecKey rfc_key
    ((lit "HTTP/1.1 1010 Anything" ++ [CR]) ++ LF :: crlf "") locals0 None
  = read_loop rfc_encodeSecKey rfc_key (crlf "") (at_line 1 0) None.
Proof.
  apply (status_line_is_prefix_check rfc_encodeSecKey rfc_key
           (lit "HTTP/1.1 1010 Anything" ++ [CR]) (crlf "") None).
  - apply buffer_line_dec. reflexivity.
  - reflexivity.
Defined.




Lemma carriage_return_cuts_line_witness :
  read_loop rfc_encodeSecKey rfc_key
    (lit "Upgrade: websocket" ++ CR :: lit "junk" ++ LF :: crlf "")
    (at_line 1 0) None
  = read_loop rfc_encodeSecKey rfc_key
      (lit "Upgrade: websocket" ++ LF :: crlf "") (at_line 1 0) None.
Proof.
  apply (carriage_return_cuts_line rfc_encodeSecKey rfc_key
           (lit "Upgrade: websocket") (lit "junk") (crlf "") CR
           (at_line 1 0) None).
  - repeat split. simpl. lia.
  - repeat constructor.
  - left. reflexivity.
  - apply no_line_feed_dec. reflexivity.
  - vm_compute. lia.
Defined.

Lemma flags_only_grow_witness :
  (forall n, N.testbit 2 n = true -> N.testbit 3 n = true) /\
  (forall n, N.testbit 3 n = true -> N.testbit 2 n = true \/ (n < 3)%N).
Proof.
  apply (flags_only_grow rfc_encodeSecKey rfc_key
           (crlf "Upgrade: websocket" ++ crlf "") (at_line 2 2) None 3).
  right. exists None, []. reflexivity.
Defined.

Lemma reader_faults_only_witness :
  exists pre raw post,
    empty_protocol_reply = pre ++ raw ++ post /\
    (pre = [] \/ exists pre', pre = pre' ++ [LF]) /\
    ~ In LF raw /\
    ((NullPointer = BufferOverflow /\ List.length raw = 128 /\
      post <> []) \/
     (NullPointer = NullPointer /\ List.length raw < 128 /\ pre <> [] /\
      (exists post', post = LF :: post') /\
      null_line (line_text raw))).
Proof.
  apply (reader_faults_only rfc_encodeSecKey rfc_key empty_protocol_reply
           None NullPointer).
  vm_compute. reflexivity.
Defined.

Lemma open_result_matches_state_witness :
  exists b c',
    open rfc_encodeSecKey rfc_base64 5000 1 rfc_random
      (lit "example.com") 8000 (lit "/chat") None
      (server_replying 0 not_found_reply) 0 fresh_client
    = Returns b c' /\
    ((b = true /\
      m_readyState c' = OPEN /\
      connected c' = true /\
      calls c' =
        calls fresh_client ++ (if _onOpen fresh_client then [OnOpen] else []))
     \/
     (b = false /\
      m_readyState c' = CLOSED /\
      connected c' = false /\
      exists cause,
        calls c' =
          calls fresh_client ++
          (if _onError fresh_client then [OnError cause] else []))).
Proof.
  eexists _, _. split; [vm_compute; reflexivity|].
  apply (open_result_matches_state rfc_encodeSecKey rfc_base64 5000 1
           rfc_random (lit "example.com") 8000 (lit "/chat") None
           (server_replying 0 not_found_reply) 0 fresh_client).
  vm_compute. reflexivity.
Defined.

Lemma open_success_sound_witness :
  accepts (server_replying 3 (wire rfc_response)) = true /\
  first_byte_seen 5000 1 (server_replying 3 (wire rfc_response)) 0 /\
  (exists raw rest,
     wire rfc_response = raw ++ LF :: rest /\
     buffer_line raw /\
     begins_with (lit "HTTP/1.1 101") raw) /\
  (forall kind m,
     requirement_bit kind = Some m ->
     exists pre raw post,
       wire rfc_response = pre ++ raw ++ LF :: post /\
       (pre = [] \/ exists pre', pre = pre' ++ [LF]) /\
       buffer_line raw /\
       valid_header rfc_encodeSecKey rfc_key (line_text raw) kind).
Proof.
  eapply (open_success_sound rfc_encodeSecKey rfc_base64 5000 1 rfc_random
            (lit "example.com") 8000 (lit "/chat") None
            (server_replying 3 (wire rfc_response)) 0 fresh_client).
  vm_compute. reflexivity.
Defined.

Lemma line_counter_wraps_witness :
  fails_with BAD_REQUEST fresh_client
    (open rfc_encodeSecKey rfc_base64 5000 1 rfc_random
       (lit "example.com") 8000 (lit "/chat") None
       (server_replying 0 padded_reply) 0 fresh_client).
Proof.
  apply (line_counter_wraps rfc_encodeSecKey rfc_base64 5000 1 rfc_random
           (lit "example.com") 8000 (lit "/chat") None
           (server_replying 0 padded_reply) 0 fresh_client
           (lit "HTTP/1.1 101 Switching Protocols" ++ [CR])
           padded_headers [CR] []).
  - reflexivity.
  - exists 0. split; [lia|reflexivity].
  - apply buffer_line_dec. reflexivity.
  - reflexivity.
  - exact padded_headers_valid.
  - reflexivity.
  - apply buffer_line_dec. reflexivity.
  - discriminate.
  - vm_compute. reflexivity.
Defined.

Lemma registered_listeners_used_witness :
  exists b c',
    (onOpen false ;; onError true ;;
     open rfc_encodeSecKey rfc_base64 5000 1 rfc_random
       (lit "example.com") 8000 (lit "/chat") None
       (server_replying 3 (wire rfc_response)) 0) fresh_client
    = Returns b c' /\
    _onOpen c' = false /\
    _onError c' = true /\
    ((b = true /\ calls c' = calls fresh_client ++ []) \/
     (b = false /\
      exists cause, calls c' = calls fresh_client ++ [OnError cause])).
Proof.
  eexists _, _. split; [vm_compute; reflexivity|].
  apply (registered_listeners_used rfc_encodeSecKey rfc_base64 5000 1
           rfc_random (lit "example.com") 8000 (lit "/chat") None
           (server_replying 3 (wire rfc_response)) 0 fresh_client _ _
           false true).
  vm_compute. reflexivity.
Defined.

Lemma listen_reports_closure_once_witness :
  exists l',
    listen (ret tt) (dropped OPEN true) = inl l' /\
    closures l' = [] ++ [ABNORMAL_CLOSURE] /\
    m_readyState (session l') = CLOSED /\
    connected (session l') = false /\
    calls (session l') = calls (session (dropped OPEN true)) /\
    forall n, loop (ret tt) (S n) (dropped OPEN true) = inl l'.
Proof.
  apply (listen_reports_closure_once (ret tt) (dropped OPEN true)).
  reflexivity.
Defined.

Lemma listen_after_failed_open_witness :
  exists c',
    open rfc_encodeSecKey rfc_base64 5000 1 rfc_random
      (lit "example.com") 8000 (lit "/chat") None refusing_server 0
      fresh_client
    = Returns false c' /\
    loop (ret tt) 3 {| session := c'; _onClose := true; closures := [] |}
    = inl {| session := c'; _onClose := true; closures := [] |}.
Proof.
  eexists. split; [vm_compute; reflexivity|].
  apply (listen_after_failed_open rfc_encodeSecKey rfc_base64 5000 1
           rfc_random (ret tt) (lit "example.com") 8000 (lit "/chat") None
           refusing_server 0 fresh_client _ true [] 3).
  vm_compute. reflexivity.
Defined.

Lemma wait_returns_at_once_witness :
  _waitForResponse 0 1
    (requesting [] (server_replying 0 (wire rfc_response)) fresh_client)
  = Returns false
      (requesting [] (server_replying 0 (wire rfc_response)) fresh_client).
Proof.
  apply (wait_returns_at_once 0 1
           (requesting [] (server_replying 0 (wire rfc_response))
              fresh_client)).
  reflexivity.
Defined.

Lemma wait_timeout_takes_budget_witness :
  set_millis 3
    (requesting [] (server_replying 10 (wire rfc_response)) fresh_client)
  = set_millis (0 + 3 * 1)
      (requesting [] (server_replying 10 (wire rfc_response)) fresh_client)
  /\
  forall k,
    k < 3 ->
    polled 1
      (requesting [] (server_replying 10 (wire rfc_response)) fresh_client) k
    = false.
Proof.
  apply (wait_timeout_takes_budget 3 1
           (requesting [] (server_replying 10 (wire rfc_response))
              fresh_client)
           (set_millis 3
              (requesting [] (server_replying 10 (wire rfc_response))
                 fresh_client))).
  reflexivity.
Defined.

Lemma wait_budget_monotone_witness :
  _waitForResponse 10 1
    (requesting [] (server_replying 3 (wire rfc_response)) fresh_client)
  = Returns true
      (set_millis 3
         (requesting [] (server_replying 3 (wire rfc_response))
            fresh_client)).
Proof.
  apply (wait_budget_monotone 5 10 1
           (requesting [] (server_replying 3 (wire rfc_response))
              fresh_client)).
  - lia.
  - reflexivity.
Defined.

Lemma request_wire_format_witness :
  _sendRequest (lit "example.com") 8000 (lit "/chat") rfc_key
    (Some (lit "chat")) fresh_client
  = Returns tt
      (set_written
         (written fresh_client ++
          plain_request (lit "example.com") 8000 (lit "/chat") rfc_key
            (Some (lit "chat")))
         fresh_client).
Proof.
  apply (request_wire_format (lit "example.com") 8000 (lit "/chat") rfc_key
           (Some (lit "chat")) fresh_client).
  - vm_compute. lia.
  - vm_compute. lia.
  - vm_compute. lia.
  - intros p [= <-]. vm_compute. lia.
Defined.

Lemma long_path_truncated_witness :
  exists line tail,
    _sendRequest (lit "example.com") 8000 long_path rfc_key None
      fresh_client
    = Returns tt
        (set_written (written fresh_client ++ line ++ [CR; LF] ++ tail)
           fresh_client) /\
    List.length line = 127 /\
    begins_with line (lit "GET " ++ long_path ++ lit " HTTP/1.1") /\
    line <> lit "GET " ++ long_path ++ lit " HTTP/1.1".
Proof.
  apply (long_path_truncated (lit "example.com") 8000 long_path rfc_key
           None fresh_client).
  vm_compute. lia.
Defined.

Lemma cut_response_opens_witness :
  exists c',
    open rfc_encodeSecKey rfc_base64 5000 1 rfc_random
      (lit "example.com") 8000 (lit "/chat") None
      (server_replying 3
         (wire_without_blank_line rfc_response ++ lit "X-Unfinished"))
      0 fresh_client
    = Returns true c' /\
    m_readyState c' = OPEN /\
    connected c' = true /\
    calls c' = [OnOpen] /\
    unread c' = [].
Proof.
  apply (cut_response_opens rfc_encodeSecKey rfc_base64 5000 1 rfc_random
           (lit "example.com") 8000 (lit "/chat") None
           (server_replying 3
              (wire_without_blank_line rfc_response ++ lit "X-Unfinished"))
           0 fresh_client rfc_response (lit "X-Unfinished")).
  - reflexivity.
  - exists 3. split; [lia|reflexivity].
  - exact rfc_response_valid.
  - apply no_line_feed_dec. reflexivity.
  - vm_compute. lia.
  - reflexivity.
Defined.

(** ** Sample runs of [open] *)

Example refused_connection_fails :
  exists c',
    open rfc_encodeSecKey rfc_base64 5000 1 rfc_random
      (lit "example.com") 8000 (lit "/chat") None refusing_server 0
      fresh_client
    = Returns false c' /\
    m_readyState c' = CLOSED /\
    calls c' = [OnError CONNECTION_REFUSED].
Proof. eexists. repeat split. Qed.

(** An empty first line is not a status line. *)
Example empty_status_line_fails :
  exists c',
    open rfc_encodeSecKey rfc_base64 5000 1 rfc_random
      (lit "example.com") 8000 (lit "/chat") None
      (server_replying 0 (crlf "" ++ wire rfc_response)) 0 fresh_client
    = Returns false c' /\
    calls c' = [OnError BAD_REQUEST].
Proof. eexists. split; vm_compute; reflexivity. Qed.

(** The three valid headers, and one more [Connection] header that is not
    [Upgrade]. *)
Example later_connection_header_fails :
  exists c',
    open rfc_encodeSecKey rfc_base64 5000 1 rfc_random
      (lit "example.com") 8000 (lit "/chat") None
      (server_replying 0 (wire keep_alive_response)) 0 fresh_client
    = Returns false c' /\
    calls c' = [OnError UPGRADE_REQUIRED].
Proof. eexists. split; vm_compute; reflexivity. Qed.

(** A status line that is not a 101 status line and whose line feed never
    arrives. *)
Example unfinished_status_line_fails :
  exists c',
    open rfc_encodeSecKey rfc_base64 5000 1 rfc_random
      (lit "example.com") 8000 (lit "/chat") None
      (server_replying 0 bare_not_found) 0 fresh_client
    = Returns false c' /\
    calls c' = [OnError UPGRADE_REQUIRED].
Proof. eexists. split; vm_compute; reflexivity. Qed.

(** A response that stops before its blank line. *)
Example truncated_response_fails :
  exists c',
    open rfc_encodeSecKey rfc_base64 5000 1 rfc_random
      (lit "example.com") 8000 (lit "/chat") None
      (server_replying 0 (crlf "HTTP/1.1 101 Switching Protocols" ++
                          crlf "Upgrade: websocket" ++
                          lit "Connection: Upg")) 0 fresh_client
    = Returns false c' /\
    calls c' = [OnError UPGRADE_REQUIRED].
Proof. eexists. split; vm_compute; reflexivity. Qed.


(** A byte that arrives during the last delay of the wait is pending at the
    final poll, and [open] still fails with REQUEST_TIMEOUT. *)
Example byte_at_final_poll_times_out :
  polled 1
    (requesting [] (server_replying 3 (wire rfc_response)) fresh_client) 3
  = true /\
  exists c',
    open rfc_encodeSecKey rfc_base64 3 1 rfc_random
      (lit "example.com") 8000 (lit "/chat") None
      (server_replying 3 (wire rfc_response)) 0 fresh_client
    = Returns false c' /\
    calls c' = [OnError REQUEST_TIMEOUT].
Proof. split; [reflexivity|]. eexists. split; vm_compute; reflexivity. Qed.

(** A response whose line 256 is its correct [Sec-WebSocket-Accept]
    header, behind the status line, [Upgrade], [Connection] and 253 other
    headers. *)
Example accept_header_at_line_256_fails :
  exists c',
    open rfc_encodeSecKey rfc_base64 5000 1 rfc_random
      (lit "example.com") 8000 (lit "/chat") None
      (server_replying 0 late_accept_reply) 0 fresh_client
    = Returns false c' /\
    calls c' = [OnError BAD_REQUEST].
Proof. eexists. split; vm_compute; reflexivity. Qed.

(** A valid response whose blank line is line 256, behind the status line
    and 255 headers. *)
Example blank_line_at_line_256_fails :
  exists c',
    open rfc_encodeSecKey rfc_base64 5000 1 rfc_random
      (lit "example.com") 8000 (lit "/chat") None
      (server_replying 0 padded_reply) 0 fresh_client
    = Returns false c' /\
    calls c' = [OnError BAD_REQUEST].
Proof. eexists. split; vm_compute; reflexivity. Qed.

(** A header line of 140 bytes in an otherwise valid response. *)
Example long_header_overflows :
  open rfc_encodeSecKey rfc_base64 5000 1 rfc_random
    (lit "example.com") 8000 (lit "/chat") None
    (server_replying 0 long_header_reply) 0 fresh_client
  = Undefined BufferOverflow.
Proof. vm_compute. reflexivity. Qed.

(** A [Sec-WebSocket-Protocol] header without a value in an otherwise valid
    response. *)
Example empty_protocol_header_faults :
  open rfc_encodeSecKey rfc_base64 5000 1 rfc_random
    (lit "example.com") 8000 (lit "/chat") None
    (server_replying 0 empty_protocol_reply) 0 fresh_client
  = Undefined NullPointer.
Proof. vm_compute. reflexivity. Qed.

(** A tab behind the colon of the [Upgrade] header of an otherwise valid
    response. *)
Example tab_separated_upgrade_fails :
  exists c',
    open rfc_encodeSecKey rfc_base64 5000 1 rfc_random
      (lit "example.com") 8000 (lit "/chat") None
      (server_replying 0 tab_reply) 0 fresh_client
    = Returns false c' /\
    calls c' = [OnError UPGRADE_REQUIRED].
Proof. eexists. split; vm_compute; reflexivity. Qed.
